(** * Browser File System Manager: the [App] component, embedded

    A shallow embedding of the orchestration code of the React component
    [App] (text upload, media recording, storage inspector) together with
    a model of the host objects it talks to: the origin private file
    system, writable file streams, capture streams and the persistence
    permission.

    Every handler of the component is an [async] function that awaits host
    promises.  A handler is embedded as a computation in the monad [M]
    below: it threads the component state ([App]: the [useState] cells
    and the [useRef] cells), the host state ([World]) and the traffic
    with the host ([Traffic]: the failures the host has in store and the
    log of the calls made), and ends in [Ok], in [Err] (a rejected promise
    or a thrown exception, carrying [err.message]) or in [Hang] (a loop
    that does not end).

    Handlers run one at a time, from start to end: the buttons of the
    component are disabled while [isLoading] or [isRecording] holds, and
    the writes to one writable stream are queued by the stream in call
    order.  A state variable that a handler reads is read when the
    handler starts, as the closure of the handler has it.  Console
    output, the reset of the file input and the download link are not
    part of the model. *)

From Stdlib Require Import String Ascii List Arith Lia.
From Stdlib.Strings Require Import Byte.
From stdpp Require Import base option list strings gmap fin_maps pretty.

Open Scope string_scope.
Open Scope list_scope.
Open Scope nat_scope.

(** ** Host objects *)

(** [RecordingType] of [type.ts]. *)
Inductive RecordingType : Type := webcam | screen.

(** The string a [RecordingType] is at run time (it is used inside the
    template literal that builds the name of a recording). *)
Definition RecordingType_string (type : RecordingType) : string :=
  match type with
  | webcam => "webcam"
  | screen => "screen"
  end.

(** A [FileSystemFileHandle] designates an entry of the root directory by
    its name; the component only reads [name] and calls [getFile] and
    [createWritable] on it. *)
Record FileSystemFileHandle : Type := mkHandle { name : string }.

(** An entry of the root directory: its [kind] and, for a file, its bytes. *)
Inductive entry : Type :=
| a_file (bytes : list byte)
| a_directory.

Definition kind (e : entry) : string :=
  match e with
  | a_file _ => "file"
  | a_directory => "directory"
  end.

(** A [FileSystemWritableFileStream]: the entry it was opened on, the
    data of the [write] calls it has accepted so far, oldest first (the
    component never seeks, so the swap file is their concatenation), and
    whether it still accepts calls. *)
Inductive stream_state : Type := writable_ | closed_ | errored_.

Record FileSystemWritableFileStream : Type := mkWritable {
  target : string;
  written : list (list byte);
  state : stream_state
}.

(** Writable streams and capture streams are objects shared by
    reference: a reference is an index in the host's table. *)
Abbreviation WritableRef := nat (only parsing).
Abbreviation MediaStream := nat (only parsing).

(** The [MediaRecorder] built by [startRecording]; its two event handlers
    close over [type] and it records [stream]. *)
Record MediaRecorder : Type := mkRecorder {
  recorder_type : RecordingType;
  recorder_stream : MediaStream
}.

(** The file handed over by the file input: its name and the chunks its
    [stream()] delivers, in order.  Its bytes are their concatenation. *)
Record File : Type := mkFile {
  file_name : string;
  stream : list (list byte)
}.

Definition content (f : File) : list byte := concat (stream f).
Definition size (f : File) : nat := length (content f).

(** What the capability probe looks at, and the persistence permission:
    whether the storage is already persistent and whether [persist()]
    would be granted. *)
Record Navigator : Type := mkNavigator {
  has_storage : bool;
  has_getDirectory : bool;
  has_mediaDevices : bool;
  has_MediaRecorder : bool;
  is_persisted : bool;
  grants_persist : bool
}.

(** The calls the component makes to the host, as they are logged in
    [calls]. *)
Inductive HostCall : Type :=
| call_persisted
| call_persist
| call_getDirectory
| call_getFileHandle (fileName : string) (create : bool)
| call_createWritable (fileName : string)
| call_read
| call_write (writable : WritableRef) (data : list byte)
| call_close (writable : WritableRef)
| call_abort (writable : WritableRef)
| call_getFile (fileName : string)
| call_text
| call_values
| call_removeEntry (fileName : string)
| call_getUserMedia
| call_getDisplayMedia
| call_stopTracks (s : MediaStream)
| call_newMediaRecorder
| call_start
| call_stop
| call_createObjectURL.

(** ** The state *)

(** The component state: one field per [useState] cell and per [useRef]
    cell of [App], under the name the source gives it. *)
Record App : Type := mkApp {
  isSupported : bool;
  isRecording : bool;
  currentRecordingType : option RecordingType;
  mediaRecorderRef : option MediaRecorder;
  mediaStreamRef : option MediaStream;
  writableStreamRef : option WritableRef;
  currentFileHandleRef : option FileSystemFileHandle;
  activeWebcamFileHandle : option FileSystemFileHandle;
  activeScreenFileHandle : option FileSystemFileHandle;
  webcamPlaybackUrl : option string;
  screenPlaybackUrl : option string;
  activeTextFileHandle : option FileSystemFileHandle;
  fileContent : string;
  fileList : list string;
  isInspecting : bool;
  isLoading : bool;
  error : string;
  success : string
}.

(** The host state: the permission and capability flags, the root
    directory, the table of writable streams, the table of capture
    streams (is the stream still live?) and the number of object URLs
    handed out. *)
Record World : Type := mkWorld {
  navigator : Navigator;
  storage : gmap string entry;
  writables : list FileSystemWritableFileStream;
  streams : list bool;
  objectURLs : nat
}.

(** The traffic between the component and the host: the faults to come
    and the log of the calls made.  [faults] scripts the host's failures:
    each call that returns a promise (or may throw) takes the head of the
    script; [Some m] makes that call fail with message [m], [None] and
    the empty script let it go through. *)
Record Traffic : Type := mkTraffic {
  faults : list (option string);
  calls : list HostCall
}.

(** Everything a handler reads and writes. *)
Record Sys : Type := mkSys {
  app : App;
  world : World;
  traffic : Traffic
}.

(** Field updates. *)
Definition app_setIsSupported (v : bool) (a : App) : App :=
  {|
    isSupported := v; isRecording := isRecording a;
    currentRecordingType := currentRecordingType a;
    mediaRecorderRef := mediaRecorderRef a;
    mediaStreamRef := mediaStreamRef a;
    writableStreamRef := writableStreamRef a;
    currentFileHandleRef := currentFileHandleRef a;
    activeWebcamFileHandle := activeWebcamFileHandle a;
    activeScreenFileHandle := activeScreenFileHandle a;
    webcamPlaybackUrl := webcamPlaybackUrl a;
    screenPlaybackUrl := screenPlaybackUrl a;
    activeTextFileHandle := activeTextFileHandle a;
    fileContent := fileContent a; fileList := fileList a;
    isInspecting := isInspecting a; isLoading := isLoading a;
    error := error a; success := success a
  |}.

Definition app_setIsRecording (v : bool) (a : App) : App :=
  {|
    isSupported := isSupported a; isRecording := v;
    currentRecordingType := currentRecordingType a;
    mediaRecorderRef := mediaRecorderRef a;
    mediaStreamRef := mediaStreamRef a;
    writableStreamRef := writableStreamRef a;
    currentFileHandleRef := currentFileHandleRef a;
    activeWebcamFileHandle := activeWebcamFileHandle a;
    activeScreenFileHandle := activeScreenFileHandle a;
    webcamPlaybackUrl := webcamPlaybackUrl a;
    screenPlaybackUrl := screenPlaybackUrl a;
    activeTextFileHandle := activeTextFileHandle a;
    fileContent := fileContent a; fileList := fileList a;
    isInspecting := isInspecting a; isLoading := isLoading a;
    error := error a; success := success a
  |}.

Definition app_setCurrentRecordingType (v : option RecordingType) (a : App) : App :=
  {|
    isSupported := isSupported a; isRecording := isRecording a;
    currentRecordingType := v; mediaRecorderRef := mediaRecorderRef a;
    mediaStreamRef := mediaStreamRef a;
    writableStreamRef := writableStreamRef a;
    currentFileHandleRef := currentFileHandleRef a;
    activeWebcamFileHandle := activeWebcamFileHandle a;
    activeScreenFileHandle := activeScreenFileHandle a;
    webcamPlaybackUrl := webcamPlaybackUrl a;
    screenPlaybackUrl := screenPlaybackUrl a;
    activeTextFileHandle := activeTextFileHandle a;
    fileContent := fileContent a; fileList := fileList a;
    isInspecting := isInspecting a; isLoading := isLoading a;
    error := error a; success := success a
  |}.

Definition app_set_mediaRecorderRef (v : option MediaRecorder) (a : App) : App :=
  {|
    isSupported := isSupported a; isRecording := isRecording a;
    currentRecordingType := currentRecordingType a; mediaRecorderRef := v;
    mediaStreamRef := mediaStreamRef a;
    writableStreamRef := writableStreamRef a;
    currentFileHandleRef := currentFileHandleRef a;
    activeWebcamFileHandle := activeWebcamFileHandle a;
    activeScreenFileHandle := activeScreenFileHandle a;
    webcamPlaybackUrl := webcamPlaybackUrl a;
    screenPlaybackUrl := screenPlaybackUrl a;
    activeTextFileHandle := activeTextFileHandle a;
    fileContent := fileContent a; fileList := fileList a;
    isInspecting := isInspecting a; isLoading := isLoading a;
    error := error a; success := success a
  |}.

Definition app_set_mediaStreamRef (v : option MediaStream) (a : App) : App :=
  {|
    isSupported := isSupported a; isRecording := isRecording a;
    currentRecordingType := currentRecordingType a;
    mediaRecorderRef := mediaRecorderRef a; mediaStreamRef := v;
    writableStreamRef := writableStreamRef a;
    currentFileHandleRef := currentFileHandleRef a;
    activeWebcamFileHandle := activeWebcamFileHandle a;
    activeScreenFileHandle := activeScreenFileHandle a;
    webcamPlaybackUrl := webcamPlaybackUrl a;
    screenPlaybackUrl := screenPlaybackUrl a;
    activeTextFileHandle := activeTextFileHandle a;
    fileContent := fileContent a; fileList := fileList a;
    isInspecting := isInspecting a; isLoading := isLoading a;
    error := error a; success := success a
  |}.

Definition app_set_writableStreamRef (v : option WritableRef) (a : App) : App :=
  {|
    isSupported := isSupported a; isRecording := isRecording a;
    currentRecordingType := currentRecordingType a;
    mediaRecorderRef := mediaRecorderRef a;
    mediaStreamRef := mediaStreamRef a; writableStreamRef := v;
    currentFileHandleRef := currentFileHandleRef a;
    activeWebcamFileHandle := activeWebcamFileHandle a;
    activeScreenFileHandle := activeScreenFileHandle a;
    webcamPlaybackUrl := webcamPlaybackUrl a;
    screenPlaybackUrl := screenPlaybackUrl a;
    activeTextFileHandle := activeTextFileHandle a;
    fileContent := fileContent a; fileList := fileList a;
    isInspecting := isInspecting a; isLoading := isLoading a;
    error := error a; success := success a
  |}.

Definition app_set_currentFileHandleRef (v : option FileSystemFileHandle) (a : App) : App :=
  {|
    isSupported := isSupported a; isRecording := isRecording a;
    currentRecordingType := currentRecordingType a;
    mediaRecorderRef := mediaRecorderRef a;
    mediaStreamRef := mediaStreamRef a;
    writableStreamRef := writableStreamRef a; currentFileHandleRef := v;
    activeWebcamFileHandle := activeWebcamFileHandle a;
    activeScreenFileHandle := activeScreenFileHandle a;
    webcamPlaybackUrl := webcamPlaybackUrl a;
    screenPlaybackUrl := screenPlaybackUrl a;
    activeTextFileHandle := activeTextFileHandle a;
    fileContent := fileContent a; fileList := fileList a;
    isInspecting := isInspecting a; isLoading := isLoading a;
    error := error a; success := success a
  |}.

Definition app_setActiveWebcamFileHandle (v : option FileSystemFileHandle) (a : App) : App :=
  {|
    isSupported := isSupported a; isRecording := isRecording a;
    currentRecordingType := currentRecordingType a;
    mediaRecorderRef := mediaRecorderRef a;
    mediaStreamRef := mediaStreamRef a;
    writableStreamRef := writableStreamRef a;
    currentFileHandleRef := currentFileHandleRef a;
    activeWebcamFileHandle := v;
    activeScreenFileHandle := activeScreenFileHandle a;
    webcamPlaybackUrl := webcamPlaybackUrl a;
    screenPlaybackUrl := screenPlaybackUrl a;
    activeTextFileHandle := activeTextFileHandle a;
    fileContent := fileContent a; fileList := fileList a;
    isInspecting := isInspecting a; isLoading := isLoading a;
    error := error a; success := success a
  |}.

Definition app_setActiveScreenFileHandle (v : option FileSystemFileHandle) (a : App) : App :=
  {|
    isSupported := isSupported a; isRecording := isRecording a;
    currentRecordingType := currentRecordingType a;
    mediaRecorderRef := mediaRecorderRef a;
    mediaStreamRef := mediaStreamRef a;
    writableStreamRef := writableStreamRef a;
    currentFileHandleRef := currentFileHandleRef a;
    activeWebcamFileHandle := activeWebcamFileHandle a;
    activeScreenFileHandle := v; webcamPlaybackUrl := webcamPlaybackUrl a;
    screenPlaybackUrl := screenPlaybackUrl a;
    activeTextFileHandle := activeTextFileHandle a;
    fileContent := fileContent a; fileList := fileList a;
    isInspecting := isInspecting a; isLoading := isLoading a;
    error := error a; success := success a
  |}.

Definition app_setWebcamPlaybackUrl (v : option string) (a : App) : App :=
  {|
    isSupported := isSupported a; isRecording := isRecording a;
    currentRecordingType := currentRecordingType a;
    mediaRecorderRef := mediaRecorderRef a;
    mediaStreamRef := mediaStreamRef a;
    writableStreamRef := writableStreamRef a;
    currentFileHandleRef := currentFileHandleRef a;
    activeWebcamFileHandle := activeWebcamFileHandle a;
    activeScreenFileHandle := activeScreenFileHandle a;
    webcamPlaybackUrl := v; screenPlaybackUrl := screenPlaybackUrl a;
    activeTextFileHandle := activeTextFileHandle a;
    fileContent := fileContent a; fileList := fileList a;
    isInspecting := isInspecting a; isLoading := isLoading a;
    error := error a; success := success a
  |}.

Definition app_setScreenPlaybackUrl (v : option string) (a : App) : App :=
  {|
    isSupported := isSupported a; isRecording := isRecording a;
    currentRecordingType := currentRecordingType a;
    mediaRecorderRef := mediaRecorderRef a;
    mediaStreamRef := mediaStreamRef a;
    writableStreamRef := writableStreamRef a;
    currentFileHandleRef := currentFileHandleRef a;
    activeWebcamFileHandle := activeWebcamFileHandle a;
    activeScreenFileHandle := activeScreenFileHandle a;
    webcamPlaybackUrl := webcamPlaybackUrl a; screenPlaybackUrl := v;
    activeTextFileHandle := activeTextFileHandle a;
    fileContent := fileContent a; fileList := fileList a;
    isInspecting := isInspecting a; isLoading := isLoading a;
    error := error a; success := success a
  |}.

Definition app_setActiveTextFileHandle (v : option FileSystemFileHandle) (a : App) : App :=
  {|
    isSupported := isSupported a; isRecording := isRecording a;
    currentRecordingType := currentRecordingType a;
    mediaRecorderRef := mediaRecorderRef a;
    mediaStreamRef := mediaStreamRef a;
    writableStreamRef := writableStreamRef a;
    currentFileHandleRef := currentFileHandleRef a;
    activeWebcamFileHandle := activeWebcamFileHandle a;
    activeScreenFileHandle := activeScreenFileHandle a;
    webcamPlaybackUrl := webcamPlaybackUrl a;
    screenPlaybackUrl := screenPlaybackUrl a; activeTextFileHandle := v;
    fileContent := fileContent a; fileList := fileList a;
    isInspecting := isInspecting a; isLoading := isLoading a;
    error := error a; success := success a
  |}.

Definition app_setFileContent (v : string) (a : App) : App :=
  {|
    isSupported := isSupported a; isRecording := isRecording a;
    currentRecordingType := currentRecordingType a;
    mediaRecorderRef := mediaRecorderRef a;
    mediaStreamRef := mediaStreamRef a;
    writableStreamRef := writableStreamRef a;
    currentFileHandleRef := currentFileHandleRef a;
    activeWebcamFileHandle := activeWebcamFileHandle a;
    activeScreenFileHandle := activeScreenFileHandle a;
    webcamPlaybackUrl := webcamPlaybackUrl a;
    screenPlaybackUrl := screenPlaybackUrl a;
    activeTextFileHandle := activeTextFileHandle a; fileContent := v;
    fileList := fileList a; isInspecting := isInspecting a;
    isLoading := isLoading a; error := error a; success := success a
  |}.

Definition app_setFileList (v : list string) (a : App) : App :=
  {|
    isSupported := isSupported a; isRecording := isRecording a;
    currentRecordingType := currentRecordingType a;
    mediaRecorderRef := mediaRecorderRef a;
    mediaStreamRef := mediaStreamRef a;
    writableStreamRef := writableStreamRef a;
    currentFileHandleRef := currentFileHandleRef a;
    activeWebcamFileHandle := activeWebcamFileHandle a;
    activeScreenFileHandle := activeScreenFileHandle a;
    webcamPlaybackUrl := webcamPlaybackUrl a;
    screenPlaybackUrl := screenPlaybackUrl a;
    activeTextFileHandle := activeTextFileHandle a;
    fileContent := fileContent a; fileList := v;
    isInspecting := isInspecting a; isLoading := isLoading a;
    error := error a; success := success a
  |}.

Definition app_setIsInspecting (v : bool) (a : App) : App :=
  {|
    isSupported := isSupported a; isRecording := isRecording a;
    currentRecordingType := currentRecordingType a;
    mediaRecorderRef := mediaRecorderRef a;
    mediaStreamRef := mediaStreamRef a;
    writableStreamRef := writableStreamRef a;
    currentFileHandleRef := currentFileHandleRef a;
    activeWebcamFileHandle := activeWebcamFileHandle a;
    activeScreenFileHandle := activeScreenFileHandle a;
    webcamPlaybackUrl := webcamPlaybackUrl a;
    screenPlaybackUrl := screenPlaybackUrl a;
    activeTextFileHandle := activeTextFileHandle a;
    fileContent := fileContent a; fileList := fileList a; isInspecting := v;
    isLoading := isLoading a; error := error a; success := success a
  |}.

Definition app_setIsLoading (v : bool) (a : App) : App :=
  {|
    isSupported := isSupported a; isRecording := isRecording a;
    currentRecordingType := currentRecordingType a;
    mediaRecorderRef := mediaRecorderRef a;
    mediaStreamRef := mediaStreamRef a;
    writableStreamRef := writableStreamRef a;
    currentFileHandleRef := currentFileHandleRef a;
    activeWebcamFileHandle := activeWebcamFileHandle a;
    activeScreenFileHandle := activeScreenFileHandle a;
    webcamPlaybackUrl := webcamPlaybackUrl a;
    screenPlaybackUrl := screenPlaybackUrl a;
    activeTextFileHandle := activeTextFileHandle a;
    fileContent := fileContent a; fileList := fileList a;
    isInspecting := isInspecting a; isLoading := v; error := error a;
    success := success a
  |}.

Definition app_setError (v : string) (a : App) : App :=
  {|
    isSupported := isSupported a; isRecording := isRecording a;
    currentRecordingType := currentRecordingType a;
    mediaRecorderRef := mediaRecorderRef a;
    mediaStreamRef := mediaStreamRef a;
    writableStreamRef := writableStreamRef a;
    currentFileHandleRef := currentFileHandleRef a;
    activeWebcamFileHandle := activeWebcamFileHandle a;
    activeScreenFileHandle := activeScreenFileHandle a;
    webcamPlaybackUrl := webcamPlaybackUrl a;
    screenPlaybackUrl := screenPlaybackUrl a;
    activeTextFileHandle := activeTextFileHandle a;
    fileContent := fileContent a; fileList := fileList a;
    isInspecting := isInspecting a; isLoading := isLoading a; error := v;
    success := success a
  |}.

Definition app_setSuccess (v : string) (a : App) : App :=
  {|
    isSupported := isSupported a; isRecording := isRecording a;
    currentRecordingType := currentRecordingType a;
    mediaRecorderRef := mediaRecorderRef a;
    mediaStreamRef := mediaStreamRef a;
    writableStreamRef := writableStreamRef a;
    currentFileHandleRef := currentFileHandleRef a;
    activeWebcamFileHandle := activeWebcamFileHandle a;
    activeScreenFileHandle := activeScreenFileHandle a;
    webcamPlaybackUrl := webcamPlaybackUrl a;
    screenPlaybackUrl := screenPlaybackUrl a;
    activeTextFileHandle := activeTextFileHandle a;
    fileContent := fileContent a; fileList := fileList a;
    isInspecting := isInspecting a; isLoading := isLoading a;
    error := error a; success := v
  |}.


Definition with_navigator (v : Navigator) (w : World) : World :=
  {|
    navigator := v; storage := storage w; writables := writables w;
    streams := streams w; objectURLs := objectURLs w
  |}.

Definition with_storage (v : gmap string entry) (w : World) : World :=
  {|
    navigator := navigator w; storage := v; writables := writables w;
    streams := streams w; objectURLs := objectURLs w
  |}.

Definition with_writables (v : list FileSystemWritableFileStream) (w : World) : World :=
  {|
    navigator := navigator w; storage := storage w; writables := v;
    streams := streams w; objectURLs := objectURLs w
  |}.

Definition with_streams (v : list bool) (w : World) : World :=
  {|
    navigator := navigator w; storage := storage w; writables := writables w;
    streams := v; objectURLs := objectURLs w
  |}.

Definition with_objectURLs (v : nat) (w : World) : World :=
  {|
    navigator := navigator w; storage := storage w; writables := writables w;
    streams := streams w; objectURLs := v
  |}.

(** ** The monad of handlers *)

(** How a computation ends: normally, by a thrown exception or rejected
    promise (with its [message]), or not at all. *)
Inductive result (A : Type) : Type :=
| Ok (a : A)
| Err (message : string)
| Hang.

Arguments Ok {A} a.
Arguments Err {A} message.
Arguments Hang {A}.

Definition M (A : Type) : Type := Sys → result A * Sys.

#[global] Instance M_ret : MRet M := λ A a s, (Ok a, s).

#[global] Instance M_bind : MBind M := λ A B f m s,
  match m s with
  | (Ok a, s') => f a s'
  | (Err message, s') => (Err message, s')
  | (Hang, s') => (Hang, s')
  end.

Definition throw {A : Type} (message : string) : M A := λ s, (Err message, s).
Definition hang {A : Type} : M A := λ s, (Hang, s).

Definition get_app : M App := λ s, (Ok (app s), s).
Definition get_host : M World := λ s, (Ok (world s), s).
Definition set_app (f : App → App) : M unit :=
  λ s, (Ok tt, mkSys (f (app s)) (world s) (traffic s)).
Definition set_host (f : World → World) : M unit :=
  λ s, (Ok tt, mkSys (app s) (f (world s)) (traffic s)).

(** [try { body } catch (err) { handler(err.message) }]: the state
    changes made by [body] before it threw are kept. *)
Definition try_catch {A : Type} (body : M A) (handler : string → M A) : M A :=
  λ s,
  match body s with
  | (Err message, s') => handler message s'
  | r => r
  end.

(** The same for a [try] block that assigns, part of the way, a local
    variable declared before it, which the [catch] block then reads:
    [opening] runs up to the assignment, [body] from there on, and the
    handler gets the variable ([None] while it was still [null]). *)
Definition try_catch_local {L A : Type}
    (opening : M L) (body : L → M A) (handler : option L → string → M A) : M A :=
  λ s,
  match opening s with
  | (Ok l, s1) =>
      match body l s1 with
      | (Err message, s2) => handler (Some l) message s2
      | r => r
      end
  | (Err message, s1) => handler None message s1
  | (Hang, s1) => (Hang, s1)
  end.

(** [try { body } finally { final }]: [final] runs however [body] ended,
    and the block ends as [body] did unless [final] throws. *)
Definition try_finally {A : Type} (body : M A) (final : M unit) : M A :=
  λ s,
  match body s with
  | (Hang, s') => (Hang, s')
  | (r, s') =>
      match final s' with
      | (Ok _, s'') => (r, s'')
      | (Err message, s'') => (Err message, s'')
      | (Hang, s'') => (Hang, s'')
      end
  end.

(** The state a handler leaves behind.  Nothing awaits the promise of an
    event handler, so how it ended is not observed. *)
Definition run (handler : M unit) (s : Sys) : Sys := snd (handler s).

(** The state setters and the assignments to [ref.current]. *)
Definition setIsSupported v : M unit := set_app (app_setIsSupported v).
Definition setIsRecording v : M unit := set_app (app_setIsRecording v).
Definition setCurrentRecordingType v : M unit := set_app (app_setCurrentRecordingType v).
Definition set_mediaRecorderRef v : M unit := set_app (app_set_mediaRecorderRef v).
Definition set_mediaStreamRef v : M unit := set_app (app_set_mediaStreamRef v).
Definition set_writableStreamRef v : M unit := set_app (app_set_writableStreamRef v).
Definition set_currentFileHandleRef v : M unit := set_app (app_set_currentFileHandleRef v).
Definition setActiveWebcamFileHandle v : M unit := set_app (app_setActiveWebcamFileHandle v).
Definition setActiveScreenFileHandle v : M unit := set_app (app_setActiveScreenFileHandle v).
Definition setWebcamPlaybackUrl v : M unit := set_app (app_setWebcamPlaybackUrl v).
Definition setScreenPlaybackUrl v : M unit := set_app (app_setScreenPlaybackUrl v).
Definition setActiveTextFileHandle v : M unit := set_app (app_setActiveTextFileHandle v).
Definition setFileContent v : M unit := set_app (app_setFileContent v).
Definition setFileList v : M unit := set_app (app_setFileList v).
Definition setIsInspecting v : M unit := set_app (app_setIsInspecting v).
Definition setIsLoading v : M unit := set_app (app_setIsLoading v).
Definition setError v : M unit := set_app (app_setError v).
Definition setSuccess v : M unit := set_app (app_setSuccess v).

(** ** The host interface *)

(** The fault the script holds for the next call, and the traffic once
    the call [c] is made. *)
Definition next_fault (t : Traffic) : option string :=
  match faults t with
  | Some message :: _ => Some message
  | _ => None
  end.

Definition tick (c : HostCall) (t : Traffic) : Traffic :=
  {| faults := tail (faults t); calls := calls t ++ [c] |}.

(** The host lets every call through. *)
Definition quiet (t : Traffic) : Prop := Forall (λ f, f = None) (faults t).

(** A call that returns a promise (or may throw): it is logged, takes
    the head of the fault script, and fails when the script says so. *)
Definition await (c : HostCall) : M unit := λ s,
  let s' := mkSys (app s) (world s) (tick c (traffic s)) in
  match next_fault (traffic s) with
  | Some message => (Err message, s')
  | None => (Ok tt, s')
  end.

(** A call that cannot fail: it is only logged. *)
Definition note (c : HostCall) : M unit := λ s,
  (Ok tt,
   mkSys (app s) (world s)
     {| faults := faults (traffic s); calls := calls (traffic s) ++ [c] |}).

(** The messages of the host's own errors. *)
Definition NotFoundError : string :=
  "A requested file or directory could not be found at the time an operation was processed.".
Definition TypeMismatchError : string :=
  "The path supplied exists, but was not an entry of requested type.".
Definition TypeError : string :=
  "Cannot write to a closed or errored writable stream.".

(** [navigator.storage.persisted()] and [navigator.storage.persist()]. *)
Definition persisted : M bool :=
  await call_persisted;;
  w ← get_host;
  mret (is_persisted (navigator w)).

Definition persist : M bool :=
  await call_persist;;
  w ← get_host;
  let nav := navigator w in
  if grants_persist nav then
    set_host (with_navigator
      (mkNavigator (has_storage nav) (has_getDirectory nav)
         (has_mediaDevices nav) (has_MediaRecorder nav) true true));;
    mret true
  else mret false.

(** [navigator.storage.getDirectory()]: the root is the [storage] field
    of the host, so the handle returned carries nothing. *)
Definition getDirectory : M unit := await call_getDirectory.

(** [root.getFileHandle(fileName, { create })]. *)
Definition getFileHandle (fileName : string) (create : bool) : M FileSystemFileHandle :=
  await (call_getFileHandle fileName create);;
  w ← get_host;
  match storage w !! fileName with
  | Some (a_file _) => mret (mkHandle fileName)
  | Some a_directory => throw TypeMismatchError
  | None =>
      if create then
        set_host (with_storage (<[fileName := a_file []]> (storage w)));;
        mret (mkHandle fileName)
      else throw NotFoundError
  end.

(** [fileHandle.createWritable()]: a new stream on an empty swap file. *)
Definition createWritable (fileHandle : FileSystemFileHandle) : M WritableRef :=
  await (call_createWritable (name fileHandle));;
  w ← get_host;
  match storage w !! name fileHandle with
  | Some (a_file _) =>
      set_host (with_writables
        (writables w ++ [mkWritable (name fileHandle) [] writable_]));;
      mret (length (writables w))
  | _ => throw NotFoundError
  end.

Definition set_state (st : stream_state) (ws : FileSystemWritableFileStream)
    : FileSystemWritableFileStream :=
  mkWritable (target ws) (written ws) st.

(** A call on a writable stream that fails leaves the stream errored. *)
Definition spoil (writable : WritableRef) : M unit :=
  set_host (λ w, with_writables (alter (set_state errored_) writable (writables w)) w).

Definition await_stream (c : HostCall) (writable : WritableRef) : M unit :=
  try_catch (await c) (λ message, spoil writable;; throw message).

(** [writable.write(data)]: appends [data] at the end of the swap file. *)
Definition write (writable : WritableRef) (data : list byte) : M unit :=
  await_stream (call_write writable data) writable;;
  w ← get_host;
  match writables w !! writable with
  | Some ws =>
      match state ws with
      | writable_ =>
          set_host (with_writables
            (<[writable := mkWritable (target ws) (written ws ++ [data]) writable_]>
               (writables w)))
      | _ => throw TypeError
      end
  | None => throw TypeError
  end.

(** [writable.close()]: the swap file becomes the bytes of the entry. *)
Definition close (writable : WritableRef) : M unit :=
  await_stream (call_close writable) writable;;
  w ← get_host;
  match writables w !! writable with
  | Some ws =>
      match state ws with
      | writable_ =>
          set_host (λ w,
            with_storage (<[target ws := a_file (concat (written ws))]> (storage w))
              (with_writables (<[writable := set_state closed_ ws]> (writables w)) w))
      | _ => throw TypeError
      end
  | None => throw TypeError
  end.

(** [writable.abort()]: the swap file is dropped, the entry is not
    touched. *)
Definition abort (writable : WritableRef) : M unit :=
  await (call_abort writable);;
  w ← get_host;
  match writables w !! writable with
  | Some ws =>
      match state ws with
      | writable_ => spoil writable
      | _ => mret tt
      end
  | None => mret tt
  end.

(** [fileHandle.getFile()] gives the bytes the entry has now, and
    [file.text()] decodes them; the decoder [text] is the host's. *)
Definition getFile (fileHandle : FileSystemFileHandle) : M (list byte) :=
  await (call_getFile (name fileHandle));;
  w ← get_host;
  match storage w !! name fileHandle with
  | Some (a_file bytes) => mret bytes
  | _ => throw NotFoundError
  end.

Definition file_text (text : list byte → string) (bytes : list byte) : M string :=
  await call_text;;
  mret (text bytes).

(** [root.values()]: the entries of the root, each with its name. *)
Definition values : M (list (string * entry)) :=
  await call_values;;
  w ← get_host;
  mret (map_to_list (storage w)).

(** [root.removeEntry(fileName)]. *)
Definition removeEntry (fileName : string) : M unit :=
  await (call_removeEntry fileName);;
  w ← get_host;
  match storage w !! fileName with
  | Some _ => set_host (with_storage (delete fileName (storage w)))
  | None => throw NotFoundError
  end.

(** [navigator.mediaDevices.getUserMedia] and [getDisplayMedia]: a new
    live capture stream. *)
Definition new_stream (c : HostCall) : M MediaStream :=
  await c;;
  w ← get_host;
  set_host (with_streams (streams w ++ [true]));;
  mret (length (streams w)).

Definition getUserMedia : M MediaStream := new_stream call_getUserMedia.
Definition getDisplayMedia : M MediaStream := new_stream call_getDisplayMedia.

(** [stream.getTracks().forEach((track) => track.stop())]. *)
Definition stopTracks (s : MediaStream) : M unit :=
  note (call_stopTracks s);;
  set_host (λ w, with_streams (<[s := false]> (streams w)) w).

(** [new MediaRecorder(stream, { mimeType })], which throws when the
    host does not record that type, and [recorder.start(1000)]. *)
Definition newMediaRecorder (type : RecordingType) (s : MediaStream) : M MediaRecorder :=
  await call_newMediaRecorder;;
  mret (mkRecorder type s).

Definition start : M unit := await call_start.

(** [URL.createObjectURL(file)]. *)
Definition createObjectURL : M string :=
  note call_createObjectURL;;
  w ← get_host;
  set_host (with_objectURLs (S (objectURLs w)));;
  mret ("blob:" +:+ pretty (objectURLs w)).

(** ** The component *)

(** The double quote of the messages that quote a file name. *)
Definition dquote : string := String (ascii_of_nat 34) EmptyString.

(** The state of the component when it mounts. *)
Definition App_init : App :=
  {|
    isSupported := false; isRecording := false; currentRecordingType := None;
    mediaRecorderRef := None; mediaStreamRef := None; writableStreamRef := None;
    currentFileHandleRef := None;
    activeWebcamFileHandle := None; activeScreenFileHandle := None;
    webcamPlaybackUrl := None; screenPlaybackUrl := None;
    activeTextFileHandle := None; fileContent := EmptyString;
    fileList := []; isInspecting := false; isLoading := false;
    error := EmptyString; success := EmptyString
  |}.

(** [clearMessages] *)
Definition clearMessages : M unit :=
  setError EmptyString;;
  setSuccess EmptyString.

(** *** File inspector *)

(** The loop [for await (const entry of root.values())] of
    [handleListFiles], on the entries still to come and the array
    [files] built so far. *)
Fixpoint collect_files (entries : list (string * entry)) (files : list string)
    : list string :=
  match entries with
  | [] => files
  | e :: rest =>
      if String.eqb (kind (snd e)) "file"
      then collect_files rest (files ++ [fst e])
      else collect_files rest files
  end.

(** [handleListFiles]: it catches its own failures, so it never throws. *)
Definition handleListFiles : M unit :=
  setIsInspecting true;;
  try_finally
    (try_catch
       (getDirectory;;
        entries ← values;
        let files := collect_files entries [] in
        setFileList files;;
        if 0 <? length files
        then setSuccess ("Found " +:+ pretty (length files) +:+ " file(s).")
        else setSuccess "Filesystem is empty.")
       (λ message, setError ("Could not list files: " +:+ message)))
    (setIsInspecting false).

(** [handleLoadFile(fileName)]: the handle is resolved first, the prefix
    of the name is looked at afterwards. *)
Definition handleLoadFile (fileName : string) : M unit :=
  clearMessages;;
  setIsLoading true;;
  try_finally
    (try_catch
       (getDirectory;;
        fileHandle ← getFileHandle fileName false;
        if String.prefix "text-" fileName then
          setActiveTextFileHandle (Some fileHandle);;
          setFileContent EmptyString;;
          setActiveWebcamFileHandle None;;
          setWebcamPlaybackUrl None;;
          setActiveScreenFileHandle None;;
          setScreenPlaybackUrl None;;
          setSuccess ("Loaded text file: " +:+ fileName)
        else if String.prefix "webcam-" fileName then
          setActiveWebcamFileHandle (Some fileHandle);;
          setWebcamPlaybackUrl None;;
          setActiveTextFileHandle None;;
          setFileContent EmptyString;;
          setActiveScreenFileHandle None;;
          setScreenPlaybackUrl None;;
          setSuccess ("Loaded webcam file: " +:+ fileName)
        else if String.prefix "screen-" fileName then
          setActiveScreenFileHandle (Some fileHandle);;
          setScreenPlaybackUrl None;;
          setActiveTextFileHandle None;;
          setFileContent EmptyString;;
          setActiveWebcamFileHandle None;;
          setWebcamPlaybackUrl None;;
          setSuccess ("Loaded screen file: " +:+ fileName)
        else
          setError ("Unknown file type: " +:+ fileName))
       (λ message, setError ("Could not load file: " +:+ message)))
    (setIsLoading false).

(** [handle?.name === fileName] *)
Definition is_named (handle : option FileSystemFileHandle) (fileName : string) : bool :=
  match handle with
  | Some h => String.eqb (name h) fileName
  | None => false
  end.

(** The test of [handleDeleteFile]: is [fileName] the active entry of
    the category its prefix names? *)
Definition is_active_entry (a : App) (fileName : string) : bool :=
  (String.prefix "text-" fileName
     && is_named (activeTextFileHandle a) fileName)
  || (String.prefix "webcam-" fileName
     && is_named (activeWebcamFileHandle a) fileName)
  || (String.prefix "screen-" fileName
     && is_named (activeScreenFileHandle a) fileName).

(** [handleDeleteFile(fileName)]; the active handles it compares with
    are those of the state [a] it started in. *)
Definition handleDeleteFile (fileName : string) : M unit :=
  a ← get_app;
  clearMessages;;
  setIsLoading true;;
  try_finally
    (try_catch
       (getDirectory;;
        removeEntry fileName;;
        setSuccess ("Deleted file: " +:+ fileName);;
        (if is_active_entry a fileName then
           setActiveTextFileHandle None;;
           setFileContent EmptyString;;
           setActiveWebcamFileHandle None;;
           setWebcamPlaybackUrl None;;
           setActiveScreenFileHandle None;;
           setScreenPlaybackUrl None
         else mret tt);;
        handleListFiles)
       (λ message, setError ("Could not delete file: " +:+ message)))
    (setIsLoading false).

(** *** Start-up *)

(** [checkSupportAndLoad], the effect run once when the component
    mounts.  Neither [persisted()] nor [persist()] is inside a [try]. *)
Definition checkSupportAndLoad : M unit :=
  w ← get_host;
  let nav := navigator w in
  if has_storage nav && has_getDirectory nav && has_mediaDevices nav
     && has_MediaRecorder nav
  then
    isPersisted ← persisted;
    (if negb isPersisted then persist;; mret tt else mret tt);;
    setIsSupported true;;
    handleListFiles
  else setIsSupported false.

(** *** Text files *)

(** [value.subarray(i, j)] *)
Definition subarray (value : list byte) (i j : nat) : list byte :=
  take (j - i) (drop i value).

(** The loop [for (let i = 0; i < value.length; i += CHUNK_SIZE)] from
    index [i] on.  [fuel] bounds the number of rounds; the loop is run
    with [length value] rounds, which is enough when [CHUNK_SIZE] is
    positive (lemma [write_sub_chunks_fuel]). *)
Fixpoint write_sub_chunks (CHUNK_SIZE : nat) (writable : WritableRef)
    (value : list byte) (fuel i : nat) : M unit :=
  if i <? length value then
    match fuel with
    | 0 => hang
    | S fuel' =>
        let subChunk := subarray value i (i + CHUNK_SIZE) in
        write writable subChunk;;
        write_sub_chunks CHUNK_SIZE writable value fuel' (i + CHUNK_SIZE)
    end
  else mret tt.

(** The loop [while (true)] around [reader.read()], on the chunks the
    reader has still to deliver; past the last one, [read] reports
    [done]. *)
Fixpoint read_loop (CHUNK_SIZE : nat) (writable : WritableRef)
    (reader : list (list byte)) : M unit :=
  await call_read;;
  match reader with
  | [] => mret tt
  | value :: reader' =>
      write_sub_chunks CHUNK_SIZE writable value (length value) 0;;
      read_loop CHUNK_SIZE writable reader'
  end.

(** The three calls by which [handleFileSelect] and [startRecording]
    alike create the entry [newFileName] and open it for writing:
    [getDirectory()], [root.getFileHandle(newFileName, { create: true })]
    and [fileHandle.createWritable()]. *)
Definition open_new_file (newFileName : string)
    : M (FileSystemFileHandle * WritableRef) :=
  getDirectory;;
  fileHandle ← getFileHandle newFileName true;
  writable ← createWritable fileHandle;
  mret (fileHandle, writable).

(** [handleFileSelect], for the file of the change event ([None] when
    the selection was cancelled) and the outcome [uuid] of
    [crypto.randomUUID()].  The size of a sub-chunk is a parameter here;
    the source fixes it, see [handleFileSelect]. *)
Definition handleFileSelect_with (CHUNK_SIZE : nat) (selected : option File)
    (uuid : string) : M unit :=
  match selected with
  | None => mret tt
  | Some file =>
      clearMessages;;
      setIsLoading true;;
      setFileContent EmptyString;;
      setActiveTextFileHandle None;;
      let newFileName := "text-" +:+ uuid +:+ ".txt" in
      try_finally
        (try_catch_local
           (open_new_file newFileName)
           (λ '(fileHandle, writable),
            read_loop CHUNK_SIZE writable (stream file);;
            close writable;;
            setActiveTextFileHandle (Some fileHandle);;
            setSuccess ("File " +:+ dquote +:+ newFileName +:+ dquote
                        +:+ " uploaded and loaded successfully!");;
            handleListFiles)
           (λ opened message,
            setError ("Upload failed: " +:+ message);;
            match opened with
            | Some (_, writable) => abort writable
            | None => mret tt
            end))
        (setIsLoading false)
  end.

(** [const CHUNK_SIZE = 5 * 1024], and the handler as the source has it. *)
Definition CHUNK_SIZE : nat := 5 * 1024.

Definition handleFileSelect : option File → string → M unit :=
  handleFileSelect_with CHUNK_SIZE.

(** [handleShowFile]; [text] is the decoder behind [file.text()]. *)
Definition handleShowFile (text : list byte → string) : M unit :=
  a ← get_app;
  match activeTextFileHandle a with
  | None => setError "No text file is loaded."
  | Some activeTextFileHandle =>
      clearMessages;;
      if negb (String.eqb (fileContent a) EmptyString) then
        setFileContent EmptyString
      else
        setIsLoading true;;
        try_finally
          (try_catch
             (file ← getFile activeTextFileHandle;
              content ← file_text text file;
              setFileContent content;;
              setSuccess ("Showing content for " +:+ dquote
                          +:+ name activeTextFileHandle +:+ dquote +:+ "."))
             (λ message, setError ("Could not read file: " +:+ message)))
          (setIsLoading false)
  end.

(** *** Media files *)

(** The handler [recorder.ondataavailable], for the blob [data] of the
    event. *)
Definition ondataavailable (data : list byte) : M unit :=
  a ← get_app;
  match 0 <? length data, writableStreamRef a with
  | true, Some writable =>
      try_catch
        (write writable data)
        (λ message, setError ("Recording error: " +:+ message))
  | _, _ => mret tt
  end.

(** The handler [recorder.onstop]; [type] is the argument of the call
    of [startRecording] that built the recorder. *)
Definition onstop (type : RecordingType) : M unit :=
  a ← get_app;
  match writableStreamRef a with
  | Some writable =>
      try_catch (close writable) (λ _, mret tt);;
      set_writableStreamRef None
  | None => mret tt
  end;;
  a ← get_app;
  match currentFileHandleRef a with
  | Some fileHandle =>
      match type with
      | webcam =>
          setActiveWebcamFileHandle (Some fileHandle);;
          setWebcamPlaybackUrl None
      | screen =>
          setActiveScreenFileHandle (Some fileHandle);;
          setScreenPlaybackUrl None
      end;;
      setSuccess ("Recording " +:+ dquote +:+ name fileHandle +:+ dquote
                  +:+ " saved and loaded!");;
      handleListFiles;;
      set_currentFileHandleRef None
  | None => mret tt
  end;;
  a ← get_app;
  match mediaStreamRef a with
  | Some s => stopTracks s
  | None => mret tt
  end;;
  set_mediaStreamRef None;;
  set_mediaRecorderRef None;;
  setIsRecording false;;
  setCurrentRecordingType None.

(** [startRecording(type)]; [uuid] is the outcome of
    [crypto.randomUUID()].  Each [return] of the source is the end of a
    branch here. *)
Definition startRecording (type : RecordingType) (uuid : string) : M unit :=
  a ← get_app;
  clearMessages;;
  if isRecording a then
    setError "Another recording is already in progress."
  else
    setFileContent EmptyString;;
    setWebcamPlaybackUrl None;;
    setScreenPlaybackUrl None;;
    acquired ←
      try_catch
        (s ← match type with
             | webcam => getUserMedia
             | screen => getDisplayMedia
             end;
         set_mediaStreamRef (Some s);;
         mret (Some s))
        (λ message,
         setError ("Could not start recording: " +:+ message);;
         mret None);
    match acquired with
    | None => mret tt
    | Some s =>
        let fileExtension := "webm" in
        let newFileName :=
          RecordingType_string type +:+ "-" +:+ uuid +:+ "." +:+ fileExtension in
        created ←
          try_catch
            ('(fileHandle, writable) ← open_new_file newFileName;
             set_writableStreamRef (Some writable);;
             set_currentFileHandleRef (Some fileHandle);;
             mret true)
            (λ message,
             setError ("Could not create recording file: " +:+ message);;
             a ← get_app;
             match mediaStreamRef a with
             | Some s' => stopTracks s'
             | None => mret tt
             end;;
             set_mediaStreamRef None;;
             mret false);
        if created : bool then
          setIsRecording true;;
          setCurrentRecordingType (Some type);;
          recorder ← newMediaRecorder type s;
          set_mediaRecorderRef (Some recorder);;
          start
        else mret tt
    end.

(** [recorder.stop()]: the recorder fires [dataavailable] with the data
    gathered since the last slice ([last]), then [stop]. *)
Definition recorder_stop (recorder : MediaRecorder) (last : list byte) : M unit :=
  await call_stop;;
  ondataavailable last;;
  onstop (recorder_type recorder).

(** [stopRecording]; [last] is the data the recorder still holds. *)
Definition stopRecording (last : list byte) : M unit :=
  a ← get_app;
  match mediaRecorderRef a with
  | Some recorder =>
      if isRecording a then recorder_stop recorder last
      else mret tt
  | None => mret tt
  end.

(** The slices of one session as they arrive: one [dataavailable] event
    each, in order. *)
Fixpoint deliver (slices : list (list byte)) : M unit :=
  match slices with
  | [] => mret tt
  | data :: rest => ondataavailable data;; deliver rest
  end.

(** [handlePlayMedia(type)], by which a playback URL comes to be set. *)
Definition handlePlayMedia (type : RecordingType) : M unit :=
  a ← get_app;
  let fileHandle :=
    match type with
    | webcam => activeWebcamFileHandle a
    | screen => activeScreenFileHandle a
    end in
  match fileHandle with
  | None =>
      setError ("No " +:+ RecordingType_string type +:+ " file is loaded.")
  | Some fileHandle =>
      match type with
      | webcam => setWebcamPlaybackUrl None
      | screen => setScreenPlaybackUrl None
      end;;
      try_catch
        (getFile fileHandle;;
         url ← createObjectURL;
         match type with
         | webcam => setWebcamPlaybackUrl (Some url)
         | screen => setScreenPlaybackUrl (Some url)
         end)
        (λ message, setError ("Could not play file: " +:+ message))
  end.

(** ** Running the model *)

Definition World_init (nav : Navigator) : World :=
  {|
    navigator := nav; storage := ∅; writables := []; streams := [];
    objectURLs := 0
  |}.

(** The component as it mounts in the browser [nav], with the host
    faults [script] ahead. *)
Definition Sys_init (nav : Navigator) (script : list (option string)) : Sys :=
  mkSys App_init (World_init nav) (mkTraffic script []).

(** A browser with the three capabilities that grants persistence. *)
Definition a_browser : Navigator := mkNavigator true true true true false true.

(** A blob of [n] bytes. *)
Definition bytes_of (n : nat) : list byte := replicate n x61.

(** ** Vocabulary of the statements *)

(** The next [n] calls go through. *)
Definition answered (n : nat) (t : Traffic) : Prop :=
  Forall (λ f, f = None) (take n (faults t)).

(** What a listing of the root yields: the array [files] that
    [handleListFiles] builds. *)
Definition listing (w : World) : list string :=
  collect_files (map_to_list (storage w)) [].

Definition is_file (e : string * entry) : bool := String.eqb (kind (snd e)) "file".

(** The component state after [handleListFiles] listed [files], and
    after it failed with [message]. *)
Definition listed (files : list string) (a : App) : App :=
  app_setIsInspecting false
    (app_setSuccess
       (if 0 <? length files
        then "Found " +:+ pretty (length files) +:+ " file(s)."
        else "Filesystem is empty.")
       (app_setFileList files (app_setIsInspecting true a))).

Definition not_listed (message : string) (a : App) : App :=
  app_setIsInspecting false
    (app_setError ("Could not list files: " +:+ message)
       (app_setIsInspecting true a)).

(** The three cards (active entry and transient companion of each
    category) are in [a'] as they are in [a]; the three cards are empty. *)
Definition same_cards (a a' : App) : Prop :=
  activeTextFileHandle a' = activeTextFileHandle a ∧
  fileContent a' = fileContent a ∧
  activeWebcamFileHandle a' = activeWebcamFileHandle a ∧
  webcamPlaybackUrl a' = webcamPlaybackUrl a ∧
  activeScreenFileHandle a' = activeScreenFileHandle a ∧
  screenPlaybackUrl a' = screenPlaybackUrl a.

Definition cards_cleared (a : App) : Prop :=
  activeTextFileHandle a = None ∧ fileContent a = EmptyString ∧
  activeWebcamFileHandle a = None ∧ webcamPlaybackUrl a = None ∧
  activeScreenFileHandle a = None ∧ screenPlaybackUrl a = None.

(** The stream [r] is open on the entry [tg] and has accepted the
    writes [ws]. *)
Definition is_open (r : nat) (tg : string) (ws : list (list byte)) (w : World) : Prop :=
  writables w !! r = Some (mkWritable tg ws writable_).

(** Sub-chunks as the upload writes them: none empty, none above the
    bound [cs]. *)
Definition sub_chunks_ok (cs : nat) (ws : list (list byte)) : Prop :=
  Forall (λ c : list byte, 0 < length c ≤ cs) ws.

Definition non_empty (data : list byte) : Prop := 0 < length data.

#[global] Instance non_empty_dec data : Decision (non_empty data).
Proof. unfold non_empty. apply _. Defined.

(** The names the two creating handlers give, and the capture call of
    each recording type. *)
Definition text_name (uuid : string) : string := "text-" +:+ uuid +:+ ".txt".

Definition recording_name (type : RecordingType) (uuid : string) : string :=
  RecordingType_string type +:+ "-" +:+ uuid +:+ "." +:+ "webm".

Definition call_capture (type : RecordingType) : HostCall :=
  match type with
  | webcam => call_getUserMedia
  | screen => call_getDisplayMedia
  end.

(** Sample states: a fresh browser profile in which the component has
    mounted, then one upload, then one webcam recording on top. *)
Definition hello : File := mkFile "hello.txt" [[x68; x69]; [x21]].

Definition mounted : Sys := run checkSupportAndLoad (Sys_init a_browser []).
Definition uploaded : Sys := run (handleFileSelect (Some hello) "u1") mounted.
Definition shown : Sys := run (handleShowFile String.string_of_list_byte) uploaded.
Definition recorded : Sys :=
  run (stopRecording [x03])
    (run (deliver [[x01]; []; [x02]]) (run (startRecording webcam "u2") uploaded)).

(** The same state with another fault script ahead. *)
Definition with_script (script : list (option string)) (s : Sys) : Sys :=
  mkSys (app s) (world s) (mkTraffic script (calls (traffic s))).

(** A root that holds a file named [unknown-xyz], next to the recording
    and the upload. *)
Definition with_stray : Sys :=
  mkSys (app recorded)
    (with_storage (<["unknown-xyz" := a_file []]> (storage (world recorded)))
       (world recorded))
    (mkTraffic [] []).

(** A browser that does not grant persistence, with the component not
    yet mounted. *)
Definition strict_browser : Navigator := mkNavigator true true true true false false.

(** ** Downloads *)

(** The part of the document the download helper touches: the anchors
    that are children of [document.body], the anchors clicked so far
    (each click on an anchor with a [download] attribute starts a
    transfer of [href] under that name) and the object URLs revoked. *)
Record HTMLAnchorElement : Type := mkAnchor {
  href : string;
  download : string
}.

Record Document : Type := mkDocument {
  body : list HTMLAnchorElement;
  clicked : list HTMLAnchorElement;
  revoked : list string
}.

(** The download handlers also change the document: their monad threads
    it next to the state of [M], and every computation of [M] runs in it
    without touching the document. *)
Definition D (A : Type) : Type := Document * Sys → result A * (Document * Sys).

#[global] Instance D_ret : MRet D := λ A a ds, (Ok a, ds).

#[global] Instance D_bind : MBind D := λ A B f m ds,
  match m ds with
  | (Ok a, ds') => f a ds'
  | (Err message, ds') => (Err message, ds')
  | (Hang, ds') => (Hang, ds')
  end.

Definition lift {A : Type} (m : M A) : D A := λ ds,
  (fst (m (snd ds)), (fst ds, snd (m (snd ds)))).

Definition get_document : D Document := λ ds, (Ok (fst ds), ds).

Definition set_document (f : Document → Document) : D unit :=
  λ ds, (Ok tt, (f (fst ds), snd ds)).

Definition try_catch_D {A : Type} (body : D A) (handler : string → D A) : D A :=
  λ ds,
  match body ds with
  | (Err message, ds') => handler message ds'
  | r => r
  end.

Definition runD (handler : D unit) (ds : Document * Sys) : Document * Sys :=
  snd (handler ds).

(** [downloadFileFromHandle(fileHandle)].  The file that [getFile]
    gives has the name of its entry, so [file.name] is the name of the
    handle.  The anchor is appended as the last child of the body, and
    [removeChild] takes that child away. *)
Definition downloadFileFromHandle (fileHandle : FileSystemFileHandle) : D unit :=
  lift (getFile fileHandle);;
  url ← lift createObjectURL;
  let a := mkAnchor url (name fileHandle) in
  doc ← get_document;
  let position := length (body doc) in
  set_document (λ doc, mkDocument (body doc ++ [a]) (clicked doc) (revoked doc));;
  set_document (λ doc, mkDocument (body doc) (clicked doc ++ [a]) (revoked doc));;
  set_document (λ doc, mkDocument (delete position (body doc)) (clicked doc) (revoked doc));;
  set_document (λ doc, mkDocument (body doc) (clicked doc) (revoked doc ++ [url])).

Definition handleDownloadTextFile : D unit :=
  a ← lift get_app;
  match activeTextFileHandle a with
  | None => lift (setError "No file to download.")
  | Some activeTextFileHandle =>
      lift clearMessages;;
      try_catch_D
        (downloadFileFromHandle activeTextFileHandle;;
         lift (setSuccess ("File " +:+ dquote +:+ name activeTextFileHandle +:+ dquote
                           +:+ " download initiated.")))
        (λ message, lift (setError ("Download failed: " +:+ message)))
  end.

(** [handleDownloadMedia(type)]; unlike the text one it does not clear
    the messages first. *)
Definition handleDownloadMedia (type : RecordingType) : D unit :=
  a ← lift get_app;
  let fileHandle :=
    match type with
    | webcam => activeWebcamFileHandle a
    | screen => activeScreenFileHandle a
    end in
  match fileHandle with
  | None =>
      lift (setError ("No " +:+ RecordingType_string type +:+ " file to download."))
  | Some fileHandle =>
      try_catch_D
        (downloadFileFromHandle fileHandle;;
         lift (setSuccess ("File " +:+ dquote +:+ name fileHandle +:+ dquote
                           +:+ " download initiated.")))
        (λ message, lift (setError ("Download failed: " +:+ message)))
  end.

(** ** The page *)

(** The controls that [App] renders (with [TextFileCard] and the two
    [MediaFileCard]s), each with the handler bound to it. *)
Inductive Control : Type :=
| RecordButton (type : RecordingType)
| StopButton
| FileInput
| RefreshButton
| LoadButton (fileName : string)
| DeleteButton (fileName : string)
| ShowButton
| DownloadTextButton
| PlayButton (type : RecordingType)
| DownloadMediaButton (type : RecordingType).

Definition is_null {A : Type} (ref : option A) : bool :=
  match ref with
  | Some _ => false
  | None => true
  end.

Definition card_handle (type : RecordingType) (a : App) : option FileSystemFileHandle :=
  match type with
  | webcam => activeWebcamFileHandle a
  | screen => activeScreenFileHandle a
  end.

(** Is the control on the page?  The page is the unsupported notice
    unless [isSupported]; the inspector has one [Load] and one [Delete]
    button per name of [fileList]. *)
Definition rendered (c : Control) (a : App) : bool :=
  isSupported a
  && match c with
     | LoadButton fileName | DeleteButton fileName => bool_decide (fileName ∈ fileList a)
     | _ => true
     end.

(** The [disabled] attribute of each control. *)
Definition disabled (c : Control) (a : App) : bool :=
  match c with
  | RecordButton _ => isRecording a || isLoading a
  | StopButton => negb (isRecording a)
  | FileInput => isLoading a || isRecording a
  | RefreshButton => isInspecting a || isLoading a || isRecording a
  | LoadButton _ | DeleteButton _ => isLoading a || isRecording a
  | ShowButton | DownloadTextButton =>
      is_null (activeTextFileHandle a) || isRecording a || isLoading a
  | PlayButton type | DownloadMediaButton type =>
      is_null (card_handle type a) || isRecording a
  end.

Definition usable (c : Control) (a : App) : Prop :=
  rendered c a = true ∧ disabled c a = false.

(** The label of the show button of [TextFileCard]. *)
Definition show_label (a : App) : string :=
  if negb (String.eqb (fileContent a) EmptyString) then "Hide" else "Show".

(** What the host hands to a handler: the outcome of
    [crypto.randomUUID()], the file of the change event, and the data the
    recorder still holds when it is stopped. *)
Record Input : Type := mkInput {
  uuid : string;
  selected : option File;
  last : list byte
}.

(** Using a control runs its handler; [text] is the decoder behind
    [file.text()]. *)
Definition click (text : list byte → string) (c : Control) (i : Input) : D unit :=
  match c with
  | RecordButton type => lift (startRecording type (uuid i))
  | StopButton => lift (stopRecording (last i))
  | FileInput => lift (handleFileSelect (selected i) (uuid i))
  | RefreshButton => lift handleListFiles
  | LoadButton fileName => lift (handleLoadFile fileName)
  | DeleteButton fileName => lift (handleDeleteFile fileName)
  | ShowButton => lift (handleShowFile text)
  | DownloadTextButton => handleDownloadTextFile
  | PlayButton type => lift (handlePlayMedia type)
  | DownloadMediaButton type => handleDownloadMedia type
  end.

(** One step of the page: the user uses a control that is on the page
    and not disabled; the recorder of the session delivers a slice; the
    capture ends by itself (the user stops sharing), upon which the
    recorder delivers what it holds and fires [stop]; or the host changes
    its mind about the calls to come.  Handlers run one at a time, each
    to its end. *)
Inductive step (text : list byte → string)
    : Document * Sys → Document * Sys → Prop :=
| step_click c i ds :
    usable c (app (snd ds)) →
    step text ds (runD (click text c i) ds)
| step_dataavailable data ds :
    mediaRecorderRef (app (snd ds)) ≠ None →
    step text ds (runD (lift (ondataavailable data)) ds)
| step_ended recorder last ds :
    mediaRecorderRef (app (snd ds)) = Some recorder →
    step text ds
      (runD (lift (ondataavailable last;; onstop (recorder_type recorder))) ds)
| step_host script ds :
    step text ds (fst ds, with_script script (snd ds)).

(** The component as it mounts in the browser [nav] on the root
    [root], which may hold the entries of earlier visits. *)
Definition Sys_mount (nav : Navigator) (root : gmap string entry)
    (script : list (option string)) : Sys :=
  mkSys App_init (with_storage root (World_init nav)) (mkTraffic script []).

(** The states the page can be in: the component mounts in some
    browser, on some root, and steps from there.  Nothing but the
    component changes the root. *)
Inductive reachable (text : list byte → string) : Document * Sys → Prop :=
| reach_mount nav root script :
    reachable text
      (mkDocument [] [] [], run checkSupportAndLoad (Sys_mount nav root script))
| reach_step ds ds' :
    reachable text ds → step text ds ds' → reachable text ds'.

(** ** Vocabulary of the invariants *)

Definition names_file (w : World) (fileName : string) : Prop :=
  ∃ bytes, storage w !! fileName = Some (a_file bytes).

(** The files of [w] are files of [w']. *)
Definition keeps_files (w w' : World) : Prop :=
  ∀ fileName, names_file w fileName → names_file w' fileName.

(** A card is sound when the entry it holds carries the prefix of the
    category and is a file of the root. *)
Definition card_ok (p : string) (w : World) (handle : option FileSystemFileHandle) : Prop :=
  ∀ h, handle = Some h → String.prefix p (name h) = true ∧ names_file w (name h).

(** The fields of a recording session are as in [a]. *)
Definition same_session (a a' : App) : Prop :=
  isRecording a' = isRecording a ∧
  currentRecordingType a' = currentRecordingType a ∧
  mediaRecorderRef a' = mediaRecorderRef a ∧
  mediaStreamRef a' = mediaStreamRef a ∧
  writableStreamRef a' = writableStreamRef a ∧
  currentFileHandleRef a' = currentFileHandleRef a.

Definition no_session (a : App) : Prop :=
  currentRecordingType a = None ∧ mediaRecorderRef a = None ∧
  mediaStreamRef a = None ∧ writableStreamRef a = None ∧
  currentFileHandleRef a = None.

(** While [isRecording] holds the session is whole, but for the recorder
    which may be missing; otherwise there is none. *)
Definition session_ok (a : App) (w : World) : Prop :=
  if isRecording a then
    ∃ type uuid r sid,
      currentRecordingType a = Some type ∧
      currentFileHandleRef a = Some (mkHandle (recording_name type uuid)) ∧
      names_file w (recording_name type uuid) ∧
      writableStreamRef a = Some r ∧
      mediaStreamRef a = Some sid ∧
      (mediaRecorderRef a = None ∨ mediaRecorderRef a = Some (mkRecorder type sid))
  else no_session a.

(** The only capture stream that may be live is the one the component
    holds. *)
Definition live_only (w : World) (held : option nat) : Prop :=
  ∀ sid, streams w !! sid = Some true → held = Some sid.

Record consistent (s : Sys) : Prop := mkConsistent {
  not_busy : isLoading (app s) = false ∧ isInspecting (app s) = false;
  text_card : card_ok "text-" (world s) (activeTextFileHandle (app s));
  webcam_card : card_ok "webcam-" (world s) (activeWebcamFileHandle (app s));
  screen_card : card_ok "screen-" (world s) (activeScreenFileHandle (app s));
  text_shown : fileContent (app s) ≠ EmptyString → activeTextFileHandle (app s) ≠ None;
  webcam_played : webcamPlaybackUrl (app s) ≠ None → activeWebcamFileHandle (app s) ≠ None;
  screen_played : screenPlaybackUrl (app s) ≠ None → activeScreenFileHandle (app s) ≠ None;
  session : session_ok (app s) (world s);
  capture : live_only (world s) (mediaStreamRef (app s))
}.

(** The playback URL of a media card, the other media card, and the
    capture streams once the held one has been stopped. *)
Definition card_url (type : RecordingType) (a : App) : option string :=
  match type with
  | webcam => webcamPlaybackUrl a
  | screen => screenPlaybackUrl a
  end.

Definition other (type : RecordingType) : RecordingType :=
  match type with
  | webcam => screen
  | screen => webcam
  end.

Definition released (held : option nat) (l : list bool) : list bool :=
  match held with
  | Some sid => <[sid := false]> l
  | None => l
  end.

(** The stream [r] has been left errored by a failed call. *)
Definition is_errored (r : nat) (w : World) : Prop :=
  ∃ ws, writables w !! r = Some ws ∧ state ws = errored_.

(** The URL that [createObjectURL] hands out next. *)
Definition blob_url (w : World) : string := "blob:" +:+ pretty (objectURLs w).

(** The page after the media recorder could not be built: a start
    request on a host that refuses the fifth call, the constructor of
    [MediaRecorder]. *)
Definition no_recorder : Document * Sys :=
  (mkDocument [] [] [],
   run (startRecording webcam "u2")
     (with_script [None; None; None; None; Some "NotSupportedError"] mounted)).


(** The capabilities [checkSupportAndLoad] asks for. *)
Definition capable (nav : Navigator) : bool :=
  has_storage nav && has_getDirectory nav && has_mediaDevices nav
  && has_MediaRecorder nav.

(** A browser without [navigator.mediaDevices]. *)
Definition no_camera : Navigator := mkNavigator true true false true false true.

(** No capture stream is live. *)
Definition all_stopped (w : World) : Prop :=
  ∀ sid, streams w !! sid ≠ Some true.

(** Sample pages: the component mounted on an empty root, then one
    upload, then a webcam session that gets one slice and is stopped. *)
Definition utf8 : list byte → string := String.string_of_list_byte.

Definition page_mounted : Document * Sys :=
  (mkDocument [] [] [], run checkSupportAndLoad (Sys_mount a_browser ∅ [])).

Definition page_uploaded : Document * Sys :=
  runD (click utf8 FileInput (mkInput "u1" (Some hello) [])) page_mounted.

Definition page_recording : Document * Sys :=
  runD (click utf8 (RecordButton webcam) (mkInput "u2" None [])) page_uploaded.

Definition page_recorded : Document * Sys :=
  runD (click utf8 StopButton (mkInput "u3" None [x03]))
    (runD (lift (ondataavailable [x01])) page_recording).

(** A session in which the host refuses the first write, and one in
    which it refuses every call after [stop()]. *)
Definition write_refused : Sys :=
  with_script [Some "QuotaExceededError"] (snd page_recording).

Definition host_gone : Sys :=
  with_script [None; Some "InvalidStateError"; Some "InvalidStateError";
               Some "InvalidStateError"; Some "InvalidStateError"]
    (snd page_recording).

(** A root with one file and one directory. *)
Definition with_folder : Sys :=
  mkSys (app mounted)
    (with_storage (<["docs" := a_directory]> (<["text-u1.txt" := a_file [x68]]> ∅))
       (world mounted))
    (mkTraffic [] []).

(** The page after a play request that the host refused. *)
Definition page_play_refused : Document * Sys :=
  runD (click utf8 (PlayButton webcam) (mkInput "u4" None []))
    (fst page_recorded, with_script [Some "NotReadableError"] (snd page_recorded)).
(** * Properties *)

(** ** Proof tools *)

Arguments next_fault : simpl never.
Arguments tick : simpl never.
Arguments String.prefix : simpl never.
Arguments pretty : simpl never.

Ltac unfold_M :=
  unfold mbind, mret, M_bind, M_ret, throw, hang, get_app, get_host, set_app,
    set_host, try_catch, try_catch_local, try_finally in *.

Ltac unfold_setters :=
  unfold clearMessages, setIsSupported, setIsRecording, setCurrentRecordingType,
    set_mediaRecorderRef, set_mediaStreamRef, set_writableStreamRef,
    set_currentFileHandleRef, setActiveWebcamFileHandle,
    setActiveScreenFileHandle, setWebcamPlaybackUrl, setScreenPlaybackUrl,
    setActiveTextFileHandle, setFileContent, setFileList, setIsInspecting,
    setIsLoading, setError, setSuccess in *.

(** Case analysis on the fault of the call the goal is stuck on. *)
Ltac fault_case :=
  match goal with
  | |- context [match next_fault ?t with _ => _ end] =>
      destruct (next_fault t) eqn:?; simpl in *
  end.

(** ** The fault script *)

Lemma quiet_next t : quiet t → next_fault t = None.
Proof.
  unfold quiet, next_fault. destruct (faults t) as [|[m|] fs]; try done.
  intros H. inversion H. done.
Qed.

Lemma quiet_tick c t : quiet t → quiet (tick c t).
Proof.
  unfold quiet, tick. simpl. destruct (faults t); simpl; [done|].
  intros H. by inversion H.
Qed.

Lemma calls_tick c t : calls (tick c t) = calls t ++ [c].
Proof. reflexivity. Qed.

Lemma answered_S n c t :
  answered (S n) t → next_fault t = None ∧ answered n (tick c t).
Proof.
  unfold answered, next_fault, tick. simpl. destruct (faults t) as [|[m|] fs]; simpl.
  - intros _. split; [done|]. by rewrite take_nil.
  - intros H. inversion H. done.
  - intros H. inversion H. done.
Qed.

Lemma quiet_answered n t : quiet t → answered n t.
Proof. unfold quiet, answered. intros H. by apply Forall_take. Qed.

Create HintDb host.
#[local] Hint Resolve quiet_tick quiet_answered quiet_next : host.

(** ** Category prefixes *)

(** A name carries at most one of the three prefixes. *)
Lemma prefix_webcam_text f :
  String.prefix "webcam-" f = true → String.prefix "text-" f = false.
Proof.
  destruct f as [|c f]; unfold String.prefix; [done|]. repeat case_match; congruence.
Qed.

Lemma prefix_screen_text f :
  String.prefix "screen-" f = true → String.prefix "text-" f = false.
Proof.
  destruct f as [|c f]; unfold String.prefix; [done|]. repeat case_match; congruence.
Qed.

Lemma prefix_screen_webcam f :
  String.prefix "screen-" f = true → String.prefix "webcam-" f = false.
Proof.
  destruct f as [|c f]; unfold String.prefix; [done|]. repeat case_match; congruence.
Qed.

Lemma prefix_append p s : String.prefix p (p +:+ s) = true.
Proof.
  induction p as [|c p IH]; unfold String.prefix; simpl; [by destruct s|].
  destruct (ascii_dec c c); [apply IH|done].
Qed.

Lemma append_not_empty (p s : string) : p ≠ EmptyString → p +:+ s ≠ EmptyString.
Proof. destruct p; [done|]. simpl. discriminate. Qed.

(** ** Listing *)

Lemma collect_files_spec entries files :
  collect_files entries files
    = files ++ map fst (filter (λ e, is_file e = true) entries).
Proof.
  revert files. induction entries as [|e es IH]; intros files; simpl.
  - by rewrite app_nil_r.
  - change (String.eqb (kind e.2) "file") with (is_file e).
    rewrite filter_cons. case_decide as Hd.
    + rewrite Hd, IH. simpl. by rewrite <- app_assoc.
    + apply not_true_is_false in Hd. rewrite Hd. apply IH.
Qed.

(** A listing holds exactly the names of the entries of kind file. *)
Lemma elem_of_listing w fileName :
  fileName ∈ listing w ↔ ∃ bytes, storage w !! fileName = Some (a_file bytes).
Proof.
  unfold listing. rewrite collect_files_spec. simpl. rewrite list_elem_of_fmap. split.
  - intros ([n e] & -> & Hin). apply list_elem_of_filter in Hin as [Hf Hin].
    apply elem_of_map_to_list in Hin. simpl. destruct e; [eauto|done].
  - intros [bytes H]. exists (fileName, a_file bytes). split; [done|].
    apply list_elem_of_filter. split; [done|]. by apply elem_of_map_to_list.
Qed.

(** [handleListFiles] always ends normally and leaves the host state
    alone; it lists, or reports why it could not. *)
Lemma handleListFiles_spec s :
  ∃ a' t', handleListFiles s = (Ok tt, mkSys a' (world s) t') ∧
    (a' = listed (listing (world s)) (app s) ∨ ∃ m, a' = not_listed m (app s)) ∧
    (quiet (traffic s) →
       a' = listed (listing (world s)) (app s) ∧ quiet t' ∧
       calls t' = calls (traffic s) ++ [call_getDirectory; call_values]).
Proof.
  unfold handleListFiles, getDirectory, values, await. unfold_setters. unfold_M. simpl.
  fault_case.
  { eexists _, _. split; [reflexivity|]. split; [right; eauto|].
    intros Hq. apply quiet_next in Hq. congruence. }
  fault_case.
  { eexists _, _. split; [reflexivity|]. split; [right; eauto|].
    intros Hq. apply (quiet_tick call_getDirectory), quiet_next in Hq. congruence. }
  fold (listing (world s)).
  destruct (0 <? length (listing (world s))) eqn:E; simpl.
  all: eexists _, _; (split; [reflexivity|]); unfold listed; rewrite E.
  all: split; [by left|]; intros Hq; split; [done|]; split; [auto with host|].
  all: rewrite ?calls_tick, <- ?app_assoc; done.
Qed.

(** ** Loading by name *)

(** The two ways [handleLoadFile] ends: the lookup failed, or it found a
    file and dispatched on the prefix of the name. *)
Lemma handleLoadFile_cases fileName s :
  let a0 := app_setIsLoading true
              (app_setSuccess EmptyString (app_setError EmptyString (app s))) in
  ∃ a' t',
    handleLoadFile fileName s = (Ok tt, mkSys (app_setIsLoading false a') (world s) t') ∧
    ((∃ m, a' = app_setError ("Could not load file: " +:+ m) a0 ∧
           (quiet (traffic s) →
              m = match storage (world s) !! fileName with
                  | Some a_directory => TypeMismatchError
                  | _ => NotFoundError
                  end ∧
              ¬ ∃ bytes, storage (world s) !! fileName = Some (a_file bytes)))
     ∨ ((∃ bytes, storage (world s) !! fileName = Some (a_file bytes)) ∧
        a' = if String.prefix "text-" fileName then
               app_setSuccess ("Loaded text file: " +:+ fileName)
                 (app_setScreenPlaybackUrl None (app_setActiveScreenFileHandle None
                   (app_setWebcamPlaybackUrl None (app_setActiveWebcamFileHandle None
                     (app_setFileContent EmptyString
                       (app_setActiveTextFileHandle (Some (mkHandle fileName)) a0))))))
             else if String.prefix "webcam-" fileName then
               app_setSuccess ("Loaded webcam file: " +:+ fileName)
                 (app_setScreenPlaybackUrl None (app_setActiveScreenFileHandle None
                   (app_setFileContent EmptyString (app_setActiveTextFileHandle None
                     (app_setWebcamPlaybackUrl None
                       (app_setActiveWebcamFileHandle (Some (mkHandle fileName)) a0))))))
             else if String.prefix "screen-" fileName then
               app_setSuccess ("Loaded screen file: " +:+ fileName)
                 (app_setWebcamPlaybackUrl None (app_setActiveWebcamFileHandle None
                   (app_setFileContent EmptyString (app_setActiveTextFileHandle None
                     (app_setScreenPlaybackUrl None
                       (app_setActiveScreenFileHandle (Some (mkHandle fileName)) a0))))))
             else app_setError ("Unknown file type: " +:+ fileName) a0)).
Proof.
  unfold handleLoadFile, getDirectory, getFileHandle, await. unfold_setters. unfold_M. simpl.
  fault_case.
  { eexists _, _. split; [reflexivity|]. left. eexists. split; [reflexivity|].
    intros Hq. apply quiet_next in Hq. congruence. }
  fault_case.
  { eexists _, _. split; [reflexivity|]. left. eexists. split; [reflexivity|].
    intros Hq. apply (quiet_tick call_getDirectory), quiet_next in Hq. congruence. }
  destruct (storage (world s) !! fileName) as [[bytes|]|] eqn:E; simpl.
  - destruct (String.prefix "text-" fileName); simpl;
      [|destruct (String.prefix "webcam-" fileName); simpl;
        [|destruct (String.prefix "screen-" fileName); simpl]].
    all: eexists _, _; (split; [reflexivity|]); right; split; [eauto|reflexivity].
  - eexists _, _. split; [reflexivity|]. left. eexists. split; [reflexivity|].
    intros _. split; [done|]. intros [? ?]; done.
  - eexists _, _. split; [reflexivity|]. left. eexists. split; [reflexivity|].
    intros _. split; [done|]. intros [? ?]; done.
Qed.

(** A load of a stored file with a known prefix succeeds when the host
    lets the calls through. *)
Lemma load_succeeds fileName bytes s :
  storage (world s) !! fileName = Some (a_file bytes) →
  quiet (traffic s) →
  String.prefix "text-" fileName = true ∨ String.prefix "webcam-" fileName = true
   ∨ String.prefix "screen-" fileName = true →
  error (app (run (handleLoadFile fileName) s)) = EmptyString.
Proof.
  intros Hs Hq Hp. unfold run.
  destruct (handleLoadFile_cases fileName s)
    as (a' & t' & -> & [(m & -> & Hm)|[Hres ->]]); simpl.
  { destruct (Hm Hq) as [_ []]. eauto. }
  destruct (String.prefix "text-" fileName); [done|].
  destruct (String.prefix "webcam-" fileName); [done|].
  destruct (String.prefix "screen-" fileName); [done|].
  by destruct Hp as [|[|]].
Qed.

(** C5.  A load that succeeds (the handler leaves no error message) was
    for a stored file whose name has one of the three prefixes; it makes
    the handle of that name the active entry of the category of the
    prefix, clears that category's companion (the displayed text, or the
    playback URL), and clears the active entry and the companion of the
    other two categories.  The host state is not touched. *)
Theorem load_sets_one_category fileName s :
  let s' := run (handleLoadFile fileName) s in
  error (app s') = EmptyString →
  (∃ bytes, storage (world s) !! fileName = Some (a_file bytes)) ∧
  world s' = world s ∧
  (String.prefix "text-" fileName = true ∨ String.prefix "webcam-" fileName = true
   ∨ String.prefix "screen-" fileName = true) ∧
  (String.prefix "text-" fileName = true →
     activeTextFileHandle (app s') = Some (mkHandle fileName) ∧
     fileContent (app s') = EmptyString ∧
     activeWebcamFileHandle (app s') = None ∧ webcamPlaybackUrl (app s') = None ∧
     activeScreenFileHandle (app s') = None ∧ screenPlaybackUrl (app s') = None) ∧
  (String.prefix "webcam-" fileName = true →
     activeWebcamFileHandle (app s') = Some (mkHandle fileName) ∧
     webcamPlaybackUrl (app s') = None ∧
     activeTextFileHandle (app s') = None ∧ fileContent (app s') = EmptyString ∧
     activeScreenFileHandle (app s') = None ∧ screenPlaybackUrl (app s') = None) ∧
  (String.prefix "screen-" fileName = true →
     activeScreenFileHandle (app s') = Some (mkHandle fileName) ∧
     screenPlaybackUrl (app s') = None ∧
     activeTextFileHandle (app s') = None ∧ fileContent (app s') = EmptyString ∧
     activeWebcamFileHandle (app s') = None ∧ webcamPlaybackUrl (app s') = None).
Proof.
  intros s'. subst s'. unfold run.
  destruct (handleLoadFile_cases fileName s)
    as (a' & t' & -> & [(m & -> & _)|[Hres ->]]); simpl.
  { intros H. by apply append_not_empty in H. }
  destruct (String.prefix "text-" fileName) eqn:Ht; simpl;
    [|destruct (String.prefix "webcam-" fileName) eqn:Hw; simpl;
      [|destruct (String.prefix "screen-" fileName) eqn:Hs; simpl]].
  4: { intros H. by apply append_not_empty in H. }
  all: intros _; repeat split; try done; eauto.
  all: exfalso.
  all: try match goal with
       | H : String.prefix "screen-" _ = true |- _ =>
           pose proof (prefix_screen_webcam _ H); pose proof (prefix_screen_text _ H)
       end.
  all: try match goal with
       | H : String.prefix "webcam-" _ = true |- _ => pose proof (prefix_webcam_text _ H)
       end.
  all: congruence.
Qed.

(** Loading the recording while the uploaded text is the active text
    entry: the webcam card takes the recording and the text card is
    emptied. *)
Lemma load_sets_one_category_witness :
  let s' := run (handleLoadFile "webcam-u2.webm") recorded in
  error (app s') = EmptyString ∧
  activeTextFileHandle (app recorded) = Some (mkHandle "text-u1.txt") ∧
  activeWebcamFileHandle (app s') = Some (mkHandle "webcam-u2.webm") ∧
  activeTextFileHandle (app s') = None ∧
  activeScreenFileHandle (app s') = None.
Proof.
  assert (error (app (run (handleLoadFile "webcam-u2.webm") recorded)) = EmptyString)
    as He by (vm_compute; reflexivity).
  destruct (load_sets_one_category "webcam-u2.webm" recorded He)
    as (_ & _ & _ & _ & Hw & _).
  destruct Hw as (H1 & _ & H2 & _ & H3 & _); [vm_compute; reflexivity|].
  cbv zeta. split; [exact He|]. split; [vm_compute; reflexivity|].
  split; [exact H1|]. split; [exact H2|exact H3].
Defined.

(** C7, as the code has it.  [handleLoadFile] resolves the name before
    it looks at the prefix.  So a name with none of the three prefixes is
    reported as an unknown file type only when it resolves to a stored
    file; a name that does not resolve is reported as not found, whatever
    its prefix.  In both cases no card changes. *)
Theorem load_unknown_or_missing fileName s :
  let s' := run (handleLoadFile fileName) s in
  (String.prefix "text-" fileName = false →
   String.prefix "webcam-" fileName = false →
   String.prefix "screen-" fileName = false →
     same_cards (app s) (app s') ∧
     (quiet (traffic s) →
      ∀ bytes, storage (world s) !! fileName = Some (a_file bytes) →
        error (app s') = "Unknown file type: " +:+ fileName)) ∧
  (storage (world s) !! fileName = None →
     same_cards (app s) (app s') ∧
     (∃ message, error (app s') = "Could not load file: " +:+ message) ∧
     (quiet (traffic s) → error (app s') = "Could not load file: " +:+ NotFoundError)).
Proof.
  intros s'. subst s'. unfold run.
  destruct (handleLoadFile_cases fileName s)
    as (a' & t' & -> & [(m & -> & Hm)|[Hres ->]]); simpl.
  - split.
    + intros _ _ _. split; [by repeat split|].
      intros Hq bytes Hb. destruct (Hm Hq) as [_ []]. eauto.
    + intros Hn. split; [by repeat split|]. split; [eauto|].
      intros Hq. destruct (Hm Hq) as [-> _]. by rewrite Hn.
  - split.
    + intros -> -> ->. simpl. split; [by repeat split|]. done.
    + intros Hn. destruct Hres as [? ?]. congruence.
Qed.

Lemma load_unknown_or_missing_witness :
  error (app (run (handleLoadFile "unknown-xyz") with_stray))
    = "Unknown file type: unknown-xyz" ∧
  error (app (run (handleLoadFile "text-nowhere.txt") recorded))
    = "Could not load file: " +:+ NotFoundError ∧
  same_cards (app recorded) (app (run (handleLoadFile "text-nowhere.txt") recorded)).
Proof.
  destruct (load_unknown_or_missing "unknown-xyz" with_stray) as [H1 _].
  destruct H1 as [_ H1]; [reflexivity|reflexivity|reflexivity|].
  destruct (load_unknown_or_missing "text-nowhere.txt" recorded) as [_ H2].
  destruct H2 as (Hc & _ & H2); [vm_compute; reflexivity|].
  split; [|split; [|exact Hc]].
  - apply (H1 ltac:(vm_compute; constructor) []). vm_compute. reflexivity.
  - apply H2. vm_compute. constructor.
Defined.

(** C7 as stated fails: on a root without an entry [unknown-xyz], the
    load of that name, which has none of the three prefixes, is reported
    as not found and not as an unknown file type. *)
Lemma load_unknown_xyz_is_not_found :
  let s' := run (handleLoadFile "unknown-xyz") mounted in
  String.prefix "text-" "unknown-xyz" = false ∧
  String.prefix "webcam-" "unknown-xyz" = false ∧
  String.prefix "screen-" "unknown-xyz" = false ∧
  error (app s') = "Could not load file: " +:+ NotFoundError ∧
  error (app s') ≠ "Unknown file type: unknown-xyz".
Proof. vm_compute. repeat split; discriminate. Qed.

(** ** Deleting by name *)

(** C6, as the code has it.  When a delete succeeds (the handler sets
    its success message, which it does only once [removeEntry] has
    resolved), the entry is gone from the root, so no later listing holds
    the name, and the refreshed list of the component, when the refresh
    went through, is that listing.  If the name was the active entry of
    its category, the handler empties all three cards, not only the card
    of that category; otherwise it leaves the three cards as they
    were. *)
Theorem delete_clears_all_cards fileName s :
  let s' := run (handleDeleteFile fileName) s in
  success (app s') ≠ EmptyString →
  storage (world s') = delete fileName (storage (world s)) ∧
  (fileName ∉ listing (world s')) ∧
  (error (app s') = EmptyString → fileList (app s') = listing (world s')) ∧
  (is_active_entry (app s) fileName = true → cards_cleared (app s')) ∧
  (is_active_entry (app s) fileName = false → same_cards (app s) (app s')).
Proof.
  unfold run, handleDeleteFile, getDirectory, removeEntry, await.
  unfold_setters. unfold_M. simpl.
  fault_case; [done|].
  fault_case; [done|].
  destruct (storage (world s) !! fileName) as [e|] eqn:E; simpl; [|done].
  destruct (is_active_entry (app s) fileName) eqn:Hact; simpl.
  all: match goal with |- context [handleListFiles ?s0] =>
         destruct (handleListFiles_spec s0) as (a' & t' & -> & Ha & _) end.
  all: simpl in *; intros _.
  all: split; [done|]; split;
    [rewrite elem_of_listing; simpl; intros [? ?]; by rewrite lookup_delete_eq in *|].
  all: destruct Ha as [->|[m ->]]; simpl.
  all: split; [first [done | intros H; by apply append_not_empty in H]|].
  all: split; intros; first [done | by repeat split].
Qed.

Lemma delete_clears_all_cards_witness :
  let s' := run (handleDeleteFile "webcam-u2.webm") recorded in
  success (app s') ≠ EmptyString ∧
  is_active_entry (app recorded) "webcam-u2.webm" = true ∧
  ("webcam-u2.webm" ∉ listing (world s')) ∧
  fileList (app s') = listing (world s') ∧
  cards_cleared (app s').
Proof.
  assert (success (app (run (handleDeleteFile "webcam-u2.webm") recorded)) ≠ EmptyString)
    as Hs by (vm_compute; discriminate).
  destruct (delete_clears_all_cards "webcam-u2.webm" recorded Hs)
    as (_ & Hl & Hf & Hc & _).
  cbv zeta. split; [exact Hs|]. split; [vm_compute; reflexivity|]. split; [exact Hl|].
  split; [apply Hf; vm_compute; reflexivity|apply Hc; vm_compute; reflexivity].
Defined.

(** C6 as stated fails: with the upload active in the text card and the
    recording active in the webcam card, deleting the active text entry
    also empties the webcam card, which the claim says stays as it is. *)
Lemma delete_text_clears_webcam_card :
  let s' := run (handleDeleteFile "text-u1.txt") recorded in
  success (app s') ≠ EmptyString ∧
  activeTextFileHandle (app recorded) = Some (mkHandle "text-u1.txt") ∧
  activeWebcamFileHandle (app recorded) = Some (mkHandle "webcam-u2.webm") ∧
  activeWebcamFileHandle (app s') = None ∧
  activeWebcamFileHandle (app s') ≠ activeWebcamFileHandle (app recorded).
Proof. vm_compute. repeat split; discriminate. Qed.

(** ** Start-up *)

(** X18.  With the capabilities present, storage not yet persistent and
    the grant refused ([persist()] resolves to false), the component
    still marks itself supported and goes on to list the root, which it
    does not change: the only error it can then show is the listing's
    own, and on a host that lets the calls through it shows none (the
    error message is as it was, which at mount is the empty one) and the
    list it shows holds exactly the files of the root. *)
Theorem persist_denied_is_not_fatal s :
  let nav := navigator (world s) in
  has_storage nav = true → has_getDirectory nav = true →
  has_mediaDevices nav = true → has_MediaRecorder nav = true →
  is_persisted nav = false → grants_persist nav = false →
  answered 2 (traffic s) →
  let s' := run checkSupportAndLoad s in
  isSupported (app s') = true ∧
  world s' = world s ∧
  (error (app s') = error (app s)
   ∨ ∃ message, error (app s') = "Could not list files: " +:+ message) ∧
  (quiet (traffic s) →
     error (app s') = error (app s) ∧
     (∀ fileName, fileName ∈ fileList (app s') ↔ names_file (world s) fileName) ∧
     calls (traffic s')
       = calls (traffic s)
         ++ [call_persisted; call_persist; call_getDirectory; call_values]).
Proof.
  intros nav H1 H2 H3 H4 Hp Hg Ha. subst nav.
  unfold run, checkSupportAndLoad, persisted, persist, await.
  unfold_setters. unfold_M. simpl.
  rewrite H1, H2, H3, H4. simpl.
  apply (answered_S 1 call_persisted) in Ha as [-> Ha].
  apply (answered_S 0 call_persist) in Ha as [Ha _].
  simpl. rewrite Hp. simpl. rewrite Ha. simpl. rewrite Hg. simpl.
  match goal with |- context [handleListFiles ?s0] =>
    destruct (handleListFiles_spec s0) as (a' & t' & -> & Hl & Hq) end.
  simpl in *. split; [by destruct Hl as [->|[m ->]]|]. split; [done|]. split.
  - destruct Hl as [->|[m ->]]; simpl; eauto.
  - intros Hq0. destruct Hq as (-> & _ & ->); [auto with host|].
    simpl. split; [done|]. split; [intros fileName; apply elem_of_listing|].
    rewrite ?calls_tick, <- ?app_assoc. done.
Qed.

Lemma persist_denied_is_not_fatal_witness :
  let s' := run checkSupportAndLoad (Sys_init strict_browser []) in
  isSupported (app s') = true ∧
  error (app s') = EmptyString ∧
  (∀ fileName, fileName ∉ fileList (app s')) ∧
  calls (traffic s') = [call_persisted; call_persist; call_getDirectory; call_values].
Proof.
  destruct (persist_denied_is_not_fatal (Sys_init strict_browser []))
    as (Hs & _ & _ & Hq); try reflexivity.
  { vm_compute. constructor. }
  destruct Hq as (He & Hf & Hc); [vm_compute; constructor|].
  cbv zeta. split; [exact Hs|]. split; [exact He|]. split; [|exact Hc].
  intros fileName Hin. apply Hf in Hin as [bytes Hb].
  simpl in Hb. by rewrite lookup_empty in Hb.
Defined.

(** C8.  The claim fails on the code when the grant request is rejected
    rather than answered: [persist()] is awaited outside any [try], so
    with the capabilities present and storage not yet persistent a
    rejection ends the probe there.  The handler is rejected with the
    message of the host, the component and the root are left as they
    were, so the component is not marked supported and no error is set,
    and the root is never listed: [persist()] is the last call made. *)
Theorem persist_rejected_is_fatal message s :
  capable (navigator (world s)) = true →
  is_persisted (navigator (world s)) = false →
  next_fault (traffic s) = None →
  next_fault (tick call_persisted (traffic s)) = Some message →
  let s' := run checkSupportAndLoad s in
  fst (checkSupportAndLoad s) = Err message ∧
  app s' = app s ∧ world s' = world s ∧
  calls (traffic s') = calls (traffic s) ++ [call_persisted; call_persist].
Proof.
  intros Hcap Hp Ha Hb s'. subst s'. unfold capable in Hcap.
  unfold run, checkSupportAndLoad, persisted, persist, await.
  unfold_setters. unfold_M. simpl.
  rewrite Hcap. simpl. rewrite Ha. simpl. rewrite Hp. simpl. rewrite Hb. simpl.
  repeat (split; [done|]). by rewrite ?calls_tick, <- ?app_assoc.
Qed.

(** A browser with every capability, on an empty root: [persisted()]
    answers no and [persist()] is rejected.  The page stays the notice
    for unsupported browsers. *)
Lemma persist_rejected_is_fatal_witness :
  let s := Sys_init a_browser [None; Some "TypeError"] in
  let s' := run checkSupportAndLoad s in
  capable a_browser = true ∧
  fst (checkSupportAndLoad s) = Err "TypeError" ∧
  isSupported (app s') = false ∧
  fileList (app s') = [] ∧
  calls (traffic s') = [call_persisted; call_persist] ∧
  ∀ c, ¬ usable c (app s').
Proof.
  cbv zeta.
  destruct (persist_rejected_is_fatal "TypeError"
              (Sys_init a_browser [None; Some "TypeError"]))
    as (H1 & H2 & _ & H4); try (vm_compute; reflexivity).
  split; [vm_compute; reflexivity|]. split; [exact H1|].
  rewrite H2, H4. repeat (split; [reflexivity|]).
  intros c [Hr _]. unfold rendered in Hr. simpl in Hr. done.
Defined.

(** ** Writable streams *)

Lemma await_stream_spec c r s :
  await_stream c r s =
    match next_fault (traffic s) with
    | Some m =>
        (Err m,
         mkSys (app s)
           (with_writables (alter (set_state errored_) r (writables (world s)))
              (world s))
           (tick c (traffic s)))
    | None => (Ok tt, mkSys (app s) (world s) (tick c (traffic s)))
    end.
Proof.
  unfold await_stream, spoil, await. unfold_M. simpl. by destruct (next_fault (traffic s)).
Qed.

(** Whatever the state of the stream, [write] is one call, ends, and
    does not touch the component state. *)
Lemma write_frame r data s :
  ∃ res w' t', write r data s = (res, mkSys (app s) w' t') ∧ res ≠ Hang ∧
    calls t' = calls (traffic s) ++ [call_write r data].
Proof.
  unfold write. unfold mbind at 1. unfold M_bind at 1. rewrite await_stream_spec.
  destruct (next_fault (traffic s)); [by eexists _, _, _|].
  unfold_M. simpl. destruct (writables (world s) !! r) as [ws|]; simpl; [|by eexists _, _, _].
  destruct (state ws); simpl; by eexists _, _, _.
Qed.

Lemma write_open r data tg ws s :
  is_open r tg ws (world s) →
  ∃ res w' t', write r data s = (res, mkSys (app s) w' t') ∧
    res ≠ Hang ∧
    calls t' = calls (traffic s) ++ [call_write r data] ∧
    (res = Ok tt → is_open r tg (ws ++ [data]) w') ∧
    (quiet (traffic s) → res = Ok tt ∧ quiet t').
Proof.
  unfold is_open. intros Ho. unfold write. unfold mbind at 1. unfold M_bind at 1.
  rewrite await_stream_spec.
  destruct (next_fault (traffic s)) eqn:Ef.
  { eexists _, _, _. split; [reflexivity|]. split; [done|]. split; [done|]. split; [done|].
    intros Hq. apply quiet_next in Hq. congruence. }
  unfold_M. simpl. rewrite Ho. simpl.
  eexists _, _, _. split; [reflexivity|]. split; [done|]. split; [done|]. split.
  - intros _. simpl. apply list_lookup_insert_eq. by eapply lookup_lt_Some.
  - intros Hq. split; [done|]. auto with host.
Qed.

Lemma close_open r tg ws s :
  is_open r tg ws (world s) →
  ∃ res w' t', close r s = (res, mkSys (app s) w' t') ∧
    res ≠ Hang ∧
    (res = Ok tt →
       storage w' = <[tg := a_file (concat ws)]> (storage (world s)) ∧
       writables w' !! r = Some (mkWritable tg ws closed_)) ∧
    (quiet (traffic s) → res = Ok tt ∧ quiet t').
Proof.
  unfold is_open. intros Ho. unfold close. unfold mbind at 1. unfold M_bind at 1.
  rewrite await_stream_spec.
  destruct (next_fault (traffic s)) eqn:Ef.
  { eexists _, _, _. split; [reflexivity|]. split; [done|]. split; [done|].
    intros Hq. apply quiet_next in Hq. congruence. }
  unfold_M. simpl. rewrite Ho. simpl.
  eexists _, _, _. split; [reflexivity|]. split; [done|]. split.
  - intros _. simpl. split; [done|]. apply list_lookup_insert_eq. by eapply lookup_lt_Some.
  - intros Hq. split; [done|]. auto with host.
Qed.

Lemma abort_spec r s :
  ∃ res w' t', abort r s = (res, mkSys (app s) w' t') ∧ res ≠ Hang.
Proof.
  unfold abort, spoil, await. unfold_M. simpl.
  destruct (next_fault (traffic s)); simpl; [by eexists _, _, _|].
  destruct (writables (world s) !! r) as [ws|]; simpl; [|by eexists _, _, _].
  destruct (state ws); simpl; by eexists _, _, _.
Qed.

(** The three opening calls: when they go through, the handle is the
    one of the name and the stream is a new one, open and empty. *)
Lemma open_new_file_spec n s :
  let r := length (writables (world s)) in
  ∃ res w' t', open_new_file n s = (res, mkSys (app s) w' t') ∧
    res ≠ Hang ∧
    (∀ x, res = Ok x →
       x = (mkHandle n, r) ∧ is_open r n [] w' ∧ streams w' = streams (world s)) ∧
    (quiet (traffic s) → storage (world s) !! n ≠ Some a_directory →
       res = Ok (mkHandle n, r) ∧ quiet t' ∧
       calls t' = calls (traffic s)
                  ++ [call_getDirectory; call_getFileHandle n true;
                      call_createWritable n]).
Proof.
  intros r. subst r.
  unfold open_new_file, getDirectory, getFileHandle, createWritable, await, is_open.
  unfold_M. simpl.
  destruct (next_fault (traffic s)) eqn:E1; simpl.
  { eexists _, _, _. split; [reflexivity|]. split; [done|]. split; [done|].
    intros Hq. apply quiet_next in Hq. congruence. }
  destruct (next_fault (tick call_getDirectory (traffic s))) eqn:E2; simpl.
  { eexists _, _, _. split; [reflexivity|]. split; [done|]. split; [done|].
    intros Hq. apply (quiet_tick call_getDirectory), quiet_next in Hq. congruence. }
  destruct (next_fault (tick (call_getFileHandle n true)
                          (tick call_getDirectory (traffic s)))) eqn:E3.
  { destruct (storage (world s) !! n) as [[bytes|]|] eqn:E; simpl; rewrite ?E3; simpl.
    all: eexists _, _, _; (split; [reflexivity|]); (split; [done|]); (split; [done|]).
    all: intros Hq; apply (quiet_tick call_getDirectory),
           (quiet_tick (call_getFileHandle n true)), quiet_next in Hq; congruence. }
  destruct (storage (world s) !! n) as [[bytes|]|] eqn:E; simpl; rewrite ?E3; simpl.
  - rewrite E. simpl. eexists _, _, _. split; [reflexivity|]. split; [done|]. split.
    + intros x [= <-]. split; [done|]. split; [|done]. simpl. by apply list_lookup_middle.
    + intros Hq _. split; [done|]. split; [auto with host|].
      rewrite ?calls_tick, <- ?app_assoc. done.
  - eexists _, _, _. split; [reflexivity|]. split; [done|]. split; [done|]. done.
  - rewrite lookup_insert_eq. simpl. eexists _, _, _. split; [reflexivity|]. split; [done|].
    split.
    + intros x [= <-]. split; [done|]. split; [|done]. simpl. by apply list_lookup_middle.
    + intros Hq _. split; [done|]. split; [auto with host|].
      rewrite ?calls_tick, <- ?app_assoc. done.
Qed.

(** ** The chunked write of the upload *)

Lemma subarray_drop value i cs :
  subarray value i (i + cs) ++ drop (i + cs) value = drop i value.
Proof.
  unfold subarray. replace (i + cs - i) with cs by lia.
  rewrite <- drop_drop. apply take_drop.
Qed.

Lemma length_subarray value i cs :
  length (subarray value i (i + cs)) = min cs (length value - i).
Proof.
  unfold subarray. replace (i + cs - i) with cs by lia.
  by rewrite length_take, length_drop.
Qed.

Section Chunking.

(** Any positive size of sub-chunk, on a stream [r] opened on [tg]. *)
Variable cs : nat.
Hypothesis cs_positive : 0 < cs.
Variables (r : nat) (tg : string).

(** The inner loop ends when it has [length value] rounds to spend;
    when it ends normally it has appended to the stream, in sub-chunks
    within the bound, the bytes of [value] from [i] on. *)
Lemma write_sub_chunks_fuel value fuel : ∀ i ws s,
  length value ≤ i + fuel * cs →
  is_open r tg ws (world s) →
  ∃ res w' t', write_sub_chunks cs r value fuel i s = (res, mkSys (app s) w' t') ∧
    res ≠ Hang ∧
    (res = Ok tt →
       ∃ ws', is_open r tg (ws ++ ws') w' ∧ concat ws' = drop i value ∧
              sub_chunks_ok cs ws') ∧
    (quiet (traffic s) → res = Ok tt ∧ quiet t').
Proof using cs_positive.
  induction fuel as [|fuel IH]; intros i ws s Hfuel Ho.
  - simpl in *. destruct (Nat.ltb_spec i (length value)); [lia|].
    destruct s as [a w t]. eexists _, _, _. split; [reflexivity|]. split; [done|].
    split; [|done].
    intros _. exists []. rewrite app_nil_r. split; [done|]. split; [|constructor].
    simpl. symmetry. by apply drop_ge.
  - simpl. destruct (Nat.ltb_spec i (length value)) as [Hlt|Hge].
    + unfold mbind, M_bind.
      destruct (write_open r (subarray value i (i + cs)) tg ws s Ho)
        as (res & w1 & t1 & -> & Hh & _ & Hok & Hq).
      destruct res as [[]|m|]; [|by eexists _, _, _|done].
      specialize (Hok eq_refl).
      destruct (IH (i + cs) (ws ++ [subarray value i (i + cs)]) (mkSys (app s) w1 t1))
        as (res & w2 & t2 & -> & Hh2 & Hok2 & Hq2); [simpl in *; lia|done|].
      simpl in *. eexists _, _, _. split; [reflexivity|]. split; [done|]. split.
      * intros Hr. destruct (Hok2 Hr) as (ws' & Ho' & Hc & Hf).
        exists (subarray value i (i + cs) :: ws'). rewrite <- app_assoc in Ho'.
        split; [done|]. split; [simpl; rewrite Hc; apply subarray_drop|].
        constructor; [|done]. rewrite length_subarray. lia.
      * intros Hq0. destruct (Hq Hq0) as [_ Hq1]. auto.
    + destruct s as [a w t]. eexists _, _, _. split; [reflexivity|]. split; [done|].
      split; [|done].
      intros _. exists []. rewrite app_nil_r. split; [done|]. split; [|constructor].
      simpl. symmetry. by apply drop_ge.
Qed.

(** The outer loop: the same for all the chunks of the reader. *)
Lemma read_loop_spec reader : ∀ ws s,
  is_open r tg ws (world s) →
  ∃ res w' t', read_loop cs r reader s = (res, mkSys (app s) w' t') ∧
    res ≠ Hang ∧
    (res = Ok tt →
       ∃ ws', is_open r tg (ws ++ ws') w' ∧ concat ws' = concat reader ∧
              sub_chunks_ok cs ws') ∧
    (quiet (traffic s) → res = Ok tt ∧ quiet t').
Proof using cs_positive.
  induction reader as [|value reader IH]; intros ws s Ho.
  - simpl. unfold await. unfold_M. simpl.
    destruct (next_fault (traffic s)) eqn:Ef; simpl.
    { eexists _, _, _. split; [reflexivity|]. split; [done|]. split; [done|].
      intros Hq. apply quiet_next in Hq. congruence. }
    eexists _, _, _. split; [reflexivity|]. split; [done|]. split.
    + intros _. exists []. rewrite app_nil_r. split; [done|]. split; [done|constructor].
    + intros Hq. split; [done|]. auto with host.
  - simpl. unfold await. unfold mbind, M_bind. simpl.
    destruct (next_fault (traffic s)) eqn:Ef; simpl.
    { eexists _, _, _. split; [reflexivity|]. split; [done|]. split; [done|].
      intros Hq. apply quiet_next in Hq. congruence. }
    destruct (write_sub_chunks_fuel value (length value) 0 ws
                (mkSys (app s) (world s) (tick call_read (traffic s))))
      as (res & w1 & t1 & -> & Hh & Hok & Hq); [nia|done|].
    destruct res as [[]|m|]; [| |done].
    2: { eexists _, _, _. split; [reflexivity|]. split; [done|]. split; [done|].
         intros Hq0. apply (quiet_tick call_read) in Hq0. by destruct (Hq Hq0). }
    destruct (Hok eq_refl) as (ws1 & Ho1 & Hc1 & Hf1).
    destruct (IH (ws ++ ws1) (mkSys (app s) w1 t1) Ho1)
      as (res & w2 & t2 & E2 & Hh2 & Hok2 & Hq2).
    simpl in *. rewrite E2.
    eexists _, _, _. split; [reflexivity|]. split; [done|]. split.
    + intros Hr. destruct (Hok2 Hr) as (ws2 & Ho2 & Hc2 & Hf2).
      exists (ws1 ++ ws2). rewrite app_assoc. split; [done|]. split.
      * by rewrite concat_app, Hc1, Hc2.
      * by apply Forall_app.
    + intros Hq0. apply Hq2. apply Hq. auto with host.
Qed.

End Chunking.

(** ** Text-file ingestion *)

(** How [handleFileSelect] ends for a selected file, for any positive
    size of sub-chunk: it never hangs, it leaves no text displayed, and
    either it failed inside the try block (the text card is empty and the
    error message starts with the words of the catch block) or the whole
    file is stored under the new name, written through one stream in
    sub-chunks within the bound, and is the active text entry. *)
Lemma upload_spec cs file uuid s :
  0 < cs →
  let n := text_name uuid in
  ∃ res a' w' t', handleFileSelect_with cs (Some file) uuid s = (res, mkSys a' w' t') ∧
    res ≠ Hang ∧
    fileContent a' = EmptyString ∧
    ((activeTextFileHandle a' = None ∧
      String.prefix "Upload failed: " (error a') = true)
     ∨ (activeTextFileHandle a' = Some (mkHandle n) ∧
        String.prefix "Upload failed: " (error a') = false ∧
        storage w' !! n = Some (a_file (content file)) ∧
        ∃ ws, writables w' !! length (writables (world s))
                = Some (mkWritable n ws closed_) ∧
              concat ws = content file ∧ sub_chunks_ok cs ws)) ∧
    (quiet (traffic s) → storage (world s) !! n ≠ Some a_directory →
       res = Ok tt ∧ quiet t' ∧ activeTextFileHandle a' = Some (mkHandle n) ∧
       error a' = EmptyString).
Proof.
  intros Hcs n. unfold handleFileSelect_with. fold (text_name uuid). fold n.
  unfold_setters. unfold_M. simpl.
  match goal with |- context [open_new_file n ?s0] =>
    destruct (open_new_file_spec n s0) as (res & w1 & t1 & -> & Hh & Hok & Hq) end.
  simpl in *.
  destruct res as [[fh r]|m|]; simpl; [| |done].
  2: { eexists _, _, _, _. split; [reflexivity|]. split; [done|]. split; [done|]. split.
       - left. split; [done|]. apply prefix_append.
       - intros Hq0 Hd. by destruct (Hq Hq0 Hd). }
  destruct (Hok _ eq_refl) as ([= -> ->] & Ho & _). clear Hok.
  match goal with |- context [read_loop cs ?r ?rd ?s0] =>
    destruct (read_loop_spec cs Hcs r n rd [] s0 Ho)
      as (res & w2 & t2 & -> & Hh2 & Hok2 & Hq2) end.
  simpl in *.
  destruct res as [[]|m|]; simpl; [| |done].
  2: { match goal with |- context [abort ?r ?s0] =>
         destruct (abort_spec r s0) as (res & w3 & t3 & -> & Hh3) end.
       simpl. destruct res as [[]|m'|]; simpl; [| |done].
       all: eexists _, _, _, _; (split; [reflexivity|]); (split; [done|]); (split; [done|]).
       all: split; [left; split; [done|apply prefix_append]|].
       all: intros Hq0 Hd; destruct (Hq Hq0 Hd) as (_ & Hq1 & _); by destruct (Hq2 Hq1). }
  destruct (Hok2 eq_refl) as (ws & Ho2 & Hc & Hf). clear Hok2. simpl in Ho2.
  match goal with |- context [close ?r ?s0] =>
    destruct (close_open r n ws s0 Ho2) as (res & w3 & t3 & -> & Hh3 & Hok3 & Hq3) end.
  simpl in *.
  destruct res as [[]|m|]; simpl; [| |done].
  2: { match goal with |- context [abort ?r ?s0] =>
         destruct (abort_spec r s0) as (res & w4 & t4 & -> & Hh4) end.
       simpl. destruct res as [[]|m'|]; simpl; [| |done].
       all: eexists _, _, _, _; (split; [reflexivity|]); (split; [done|]); (split; [done|]).
       all: split; [left; split; [done|apply prefix_append]|].
       all: intros Hq0 Hd; destruct (Hq Hq0 Hd) as (_ & Hq1 & _);
            destruct (Hq2 Hq1) as (_ & Hq2'); by destruct (Hq3 Hq2'). }
  destruct (Hok3 eq_refl) as (Hst & Hwr). clear Hok3.
  match goal with |- context [handleListFiles ?s0] =>
    destruct (handleListFiles_spec s0) as (a' & t4 & -> & Ha & Hq4) end.
  simpl in *.
  eexists _, _, _, _. split; [reflexivity|]. split; [done|].
  assert (storage w3 !! n = Some (a_file (content file))) as Hn.
  { rewrite Hst, lookup_insert_eq. unfold content. by rewrite Hc. }
  split; [by destruct Ha as [->|[m ->]]|]. split.
  - right. destruct Ha as [->|[m ->]]; simpl; (split; [done|]); (split; [done|]);
      (split; [done|]); exists ws; by rewrite Hc.
  - intros Hq0 Hd. destruct (Hq Hq0 Hd) as (_ & Hq1 & _).
    destruct (Hq2 Hq1) as (_ & Hq2'). destruct (Hq3 Hq2') as (_ & Hq3').
    destruct (Hq4 Hq3') as (-> & Hq4' & _). done.
Qed.

(** C1.  An ingestion succeeded when it made the new entry the active
    text entry (the handler clears that reference first and sets it only
    after the stream was closed).  Then the entry stored under the new
    name holds exactly the bytes of the file, so its length is the size
    of the file; the sub-chunks written to its stream, in order, are each
    at most 5 KiB long and their concatenation is the content of the
    file.  The stored bytes are the same for any positive size of
    sub-chunk.  And on a host that lets every call through (the name not
    being that of a directory) the ingestion does succeed. *)
Theorem ingestion_stores_the_bytes file uuid s :
  let n := text_name uuid in
  (let s' := run (handleFileSelect (Some file) uuid) s in
   activeTextFileHandle (app s') = Some (mkHandle n) →
   ∃ bytes ws,
     storage (world s') !! n = Some (a_file bytes) ∧
     bytes = content file ∧ length bytes = size file ∧
     writables (world s') !! length (writables (world s))
       = Some (mkWritable n ws closed_) ∧
     concat ws = content file ∧
     Forall (λ subChunk : list byte, length subChunk ≤ 5 * 1024) ws) ∧
  (∀ cs, 0 < cs →
     let s' := run (handleFileSelect_with cs (Some file) uuid) s in
     activeTextFileHandle (app s') = Some (mkHandle n) →
     storage (world s') !! n = Some (a_file (content file))) ∧
  (∀ cs, 0 < cs →
     quiet (traffic s) → storage (world s) !! n ≠ Some a_directory →
     fst (handleFileSelect_with cs (Some file) uuid s) = Ok tt ∧
     activeTextFileHandle (app (run (handleFileSelect_with cs (Some file) uuid) s))
       = Some (mkHandle n)).
Proof.
  intros n. split; [|split].
  - intros s'. subst s'. unfold run, handleFileSelect.
    destruct (upload_spec CHUNK_SIZE file uuid s)
      as (res & a' & w' & t' & -> & _ & _ & H & _).
    { unfold CHUNK_SIZE. lia. }
    simpl. intros Ha. destruct H as [[Hn _]|(_ & _ & Hst & ws & Hw & Hc & Hf)]; [congruence|].
    exists (content file), ws. repeat split; try done.
    eapply Forall_impl; [exact Hf|]. simpl. intros c Hlen. unfold CHUNK_SIZE in Hlen. lia.
  - intros cs Hcs s'. subst s'. unfold run.
    destruct (upload_spec cs file uuid s Hcs) as (res & a' & w' & t' & -> & _ & _ & H & _).
    simpl. intros Ha. destruct H as [[Hn _]|(_ & _ & Hst & _)]; [congruence|done].
  - intros cs Hcs Hq Hd. unfold run.
    destruct (upload_spec cs file uuid s Hcs) as (res & a' & w' & t' & -> & _ & _ & _ & H).
    simpl. by destruct (H Hq Hd) as (-> & _ & -> & _).
Qed.

(** The file [hello] (two chunks, three bytes), ingested with the
    sub-chunks of the source and with sub-chunks of two bytes. *)
Lemma ingestion_stores_the_bytes_witness :
  activeTextFileHandle (app uploaded) = Some (mkHandle "text-u1.txt") ∧
  storage (world uploaded) !! "text-u1.txt" = Some (a_file [x68; x69; x21]) ∧
  storage (world (run (handleFileSelect_with 2 (Some hello) "u1") mounted))
    !! "text-u1.txt" = Some (a_file [x68; x69; x21]).
Proof.
  destruct (ingestion_stores_the_bytes hello "u1" mounted) as (H1 & H2 & _).
  assert (activeTextFileHandle (app (run (handleFileSelect (Some hello) "u1") mounted))
            = Some (mkHandle (text_name "u1"))) as Ha by (vm_compute; reflexivity).
  assert (activeTextFileHandle
            (app (run (handleFileSelect_with 2 (Some hello) "u1") mounted))
            = Some (mkHandle (text_name "u1"))) as Ha2 by (vm_compute; reflexivity).
  destruct (H1 Ha) as (bytes & ws & Hst & -> & _).
  split; [exact Ha|]. split; [exact Hst|]. exact (H2 2 ltac:(lia) Ha2).
Defined.

(** Twelve KiB in one chunk go to the stream as 5, 5 and 2 KiB. *)
Example upload_12_KiB :
  let s' := run (handleFileSelect (Some (mkFile "big.txt" [bytes_of (12 * 1024)])) "u3")
              mounted in
  (λ ws, map length (written ws)) <$> writables (world s')
    = [[5 * 1024; 5 * 1024; 2 * 1024]] ∧
  fileList (app s') = ["text-u3.txt"].
Proof. vm_compute. done. Qed.

(** With sub-chunks of size zero the inner loop does not advance. *)
Example chunk_size_zero_hangs :
  fst (handleFileSelect_with 0 (Some hello) "u1" mounted) = Hang.
Proof. reflexivity. Qed.



(** ** Showing the active text entry *)

Lemma show_displays text h bytes s :
  activeTextFileHandle (app s) = Some h →
  fileContent (app s) = EmptyString →
  storage (world s) !! name h = Some (a_file bytes) →
  answered 2 (traffic s) →
  fileContent (app (run (handleShowFile text) s)) = text bytes.
Proof.
  intros Ha Hc Hs Hq. unfold run, handleShowFile, getFile, file_text, await.
  unfold_setters. unfold_M. simpl. rewrite Ha, Hc. simpl.
  apply (answered_S 1 (call_getFile (name h))) in Hq as [-> Hq].
  apply (answered_S 0 call_text) in Hq as [Hq _].
  simpl. rewrite Hs. simpl. rewrite Hq. done.
Qed.

Lemma show_hides text h s :
  activeTextFileHandle (app s) = Some h →
  fileContent (app s) ≠ EmptyString →
  fileContent (app (run (handleShowFile text) s)) = EmptyString ∧
  world (run (handleShowFile text) s) = world s ∧
  traffic (run (handleShowFile text) s) = traffic s.
Proof.
  intros Ha Hc. unfold run, handleShowFile. unfold_setters. unfold_M. simpl. rewrite Ha.
  apply String.eqb_neq in Hc. rewrite Hc. done.
Qed.

(** C9, as the code has it.  The show action is a toggle.  With a text
    entry active and no text displayed, it displays the stored bytes of
    that entry as the host decodes them ([text] is the decoder of
    [file.text()]), provided the two reads go through; with text already
    displayed, it hides it and reads nothing.  Right after an ingestion
    nothing is displayed, so the show action that follows displays the
    content of the uploaded file. *)
Theorem show_displays_the_stored_text (text : list byte → string) :
  (∀ h bytes s,
     activeTextFileHandle (app s) = Some h →
     fileContent (app s) = EmptyString →
     storage (world s) !! name h = Some (a_file bytes) →
     answered 2 (traffic s) →
     fileContent (app (run (handleShowFile text) s)) = text bytes) ∧
  (∀ h s,
     activeTextFileHandle (app s) = Some h →
     fileContent (app s) ≠ EmptyString →
     fileContent (app (run (handleShowFile text) s)) = EmptyString) ∧
  (∀ file uuid s,
     quiet (traffic s) →
     storage (world s) !! text_name uuid ≠ Some a_directory →
     fileContent
       (app (run (handleShowFile text) (run (handleFileSelect (Some file) uuid) s)))
       = text (content file)).
Proof.
  split; [|split].
  - intros. by eapply show_displays.
  - intros h s Ha Hc. by eapply show_hides.
  - intros file uuid s Hq Hd. unfold run at 2, handleFileSelect.
    destruct (upload_spec CHUNK_SIZE file uuid s)
      as (res & a' & w' & t' & -> & _ & Hc & H & Hq').
    { unfold CHUNK_SIZE. lia. }
    destruct (Hq' Hq Hd) as (_ & Hqt & Ha & _). simpl.
    destruct H as [[Hn _]|(_ & _ & Hst & _)]; [congruence|].
    eapply show_displays; simpl; try done. auto with host.
Qed.

Lemma show_displays_the_stored_text_witness :
  fileContent (app uploaded) = EmptyString ∧
  fileContent (app shown) = "hi!" ∧
  fileContent (app (run (handleShowFile String.string_of_list_byte) shown)) = EmptyString.
Proof.
  destruct (show_displays_the_stored_text String.string_of_list_byte) as (_ & H2 & H3).
  split; [vm_compute; reflexivity|]. split.
  - apply (H3 hello "u1" mounted); [vm_compute; constructor|vm_compute; discriminate].
  - apply (H2 (mkHandle "text-u1.txt") shown); [vm_compute; reflexivity|].
    vm_compute. discriminate.
Defined.

(** C9 as stated fails: with the uploaded entry active and its text on
    display, the show action does not display the stored text, it empties
    the display. *)
Lemma show_again_hides_the_text :
  let s' := run (handleShowFile String.string_of_list_byte) shown in
  activeTextFileHandle (app shown) = Some (mkHandle "text-u1.txt") ∧
  storage (world shown) !! "text-u1.txt" = Some (a_file [x68; x69; x21]) ∧
  String.string_of_list_byte [x68; x69; x21] = "hi!" ∧
  fileContent (app s') = EmptyString ∧
  fileContent (app s') ≠ String.string_of_list_byte [x68; x69; x21].
Proof. vm_compute. repeat split; discriminate. Qed.

(** ** Recording *)

(** One [dataavailable] event: at most one call, a [write] of the slice
    when the slice is not empty; the handler never throws and keeps the
    reference to the stream. *)
Lemma ondataavailable_spec data r s :
  writableStreamRef (app s) = Some r →
  ∃ a' w' t', ondataavailable data s = (Ok tt, mkSys a' w' t') ∧
    writableStreamRef a' = Some r ∧
    calls t' = calls (traffic s) ++ map (call_write r) (filter non_empty [data]) ∧
    (quiet (traffic s) → ∀ tg ws, is_open r tg ws (world s) →
       a' = app s ∧ quiet t' ∧ is_open r tg (ws ++ filter non_empty [data]) w').
Proof.
  intros Hr. unfold ondataavailable. unfold_setters. unfold_M. simpl. rewrite Hr.
  rewrite filter_cons, filter_nil.
  destruct (Nat.ltb_spec 0 (length data)) as [Hlt|Hge].
  - rewrite decide_True by done.
    destruct (write_frame r data s) as (res & w' & t' & E & Hh & Hc).
    rewrite E. destruct res as [[]|m|]; simpl; [| |done].
    + eexists _, _, _. split; [reflexivity|]. split; [done|]. split; [done|].
      intros Hq tg ws Ho.
      destruct (write_open r data tg ws s Ho) as (res & w2 & t2 & E2 & _ & _ & Hok & Hq2).
      rewrite E in E2. injection E2 as <- <- <-. destruct (Hq2 Hq) as [_ Hq3]. auto.
    + eexists _, _, _. split; [reflexivity|]. split; [done|]. split; [done|].
      intros Hq tg ws Ho.
      destruct (write_open r data tg ws s Ho) as (res & w2 & t2 & E2 & _ & _ & Hok & Hq2).
      rewrite E in E2. injection E2 as <- <- <-. by destruct (Hq2 Hq).
  - rewrite decide_False by (unfold non_empty; lia).
    destruct s as [a w t]. simpl in *. eexists _, _, _. split; [reflexivity|]. split; [done|].
    rewrite !app_nil_r. split; [done|]. intros. by rewrite app_nil_r.
Qed.

Lemma deliver_spec slices : ∀ r s,
  writableStreamRef (app s) = Some r →
  ∃ a' w' t', deliver slices s = (Ok tt, mkSys a' w' t') ∧
    writableStreamRef a' = Some r ∧
    calls t' = calls (traffic s) ++ map (call_write r) (filter non_empty slices) ∧
    (quiet (traffic s) → ∀ tg ws, is_open r tg ws (world s) →
       a' = app s ∧ quiet t' ∧ is_open r tg (ws ++ filter non_empty slices) w').
Proof.
  induction slices as [|data slices IH]; intros r s Hr.
  - destruct s as [a w t]. simpl in *. eexists _, _, _. split; [reflexivity|]. split; [done|].
    rewrite filter_nil. simpl. rewrite !app_nil_r. split; [done|]. intros.
    by rewrite app_nil_r.
  - simpl. unfold mbind, M_bind.
    destruct (ondataavailable_spec data r s Hr) as (a1 & w1 & t1 & -> & Hr1 & Hc1 & Hq1).
    destruct (IH r (mkSys a1 w1 t1) Hr1) as (a2 & w2 & t2 & -> & Hr2 & Hc2 & Hq2).
    simpl in *. eexists _, _, _. split; [reflexivity|]. split; [done|].
    change (data :: slices) with ([data] ++ slices). rewrite filter_app. split.
    + by rewrite Hc2, Hc1, <- app_assoc, <- map_app.
    + intros Hq tg ws Ho. destruct (Hq1 Hq tg ws Ho) as (-> & Hq' & Ho').
      destruct (Hq2 Hq' _ _ Ho') as (-> & Hq'' & Ho'').
      split; [done|]. split; [done|]. by rewrite <- app_assoc in Ho''.
Qed.

(** On a host that lets every call through, a start request made while
    no recording is active opens the session. *)
Lemma startRecording_quiet type uuid s :
  isRecording (app s) = false →
  quiet (traffic s) →
  storage (world s) !! recording_name type uuid ≠ Some a_directory →
  let r := length (writables (world s)) in
  let sid := length (streams (world s)) in
  ∃ a' w' t', startRecording type uuid s = (Ok tt, mkSys a' w' t') ∧
    quiet t' ∧ is_open r (recording_name type uuid) [] w' ∧
    isRecording a' = true ∧ currentRecordingType a' = Some type ∧
    mediaRecorderRef a' = Some (mkRecorder type sid) ∧
    mediaStreamRef a' = Some sid ∧
    writableStreamRef a' = Some r ∧
    currentFileHandleRef a' = Some (mkHandle (recording_name type uuid)) ∧
    calls t' = calls (traffic s)
      ++ [call_capture type; call_getDirectory;
          call_getFileHandle (recording_name type uuid) true;
          call_createWritable (recording_name type uuid);
          call_newMediaRecorder; call_start].
Proof.
  intros Hrec Hq Hd r sid. subst r sid.
  unfold startRecording. fold (recording_name type uuid).
  unfold getUserMedia, getDisplayMedia, new_stream, newMediaRecorder, start, await.
  unfold_setters. unfold_M. simpl. rewrite Hrec. simpl.
  assert (∀ c, quiet (tick c (traffic s))) as Hq1 by auto with host.
  destruct type; simpl; rewrite (quiet_next _ Hq); simpl.
  all: match goal with |- context [open_new_file ?n ?s0] =>
         destruct (open_new_file_spec n s0) as (res & w1 & t1 & -> & _ & Hok & Hqo) end.
  all: simpl in *; destruct (Hqo (Hq1 _) Hd) as (-> & Hq2 & Hc2).
  all: destruct (Hok _ eq_refl) as (_ & Ho & _); simpl.
  all: rewrite (quiet_next _ Hq2); simpl.
  all: rewrite (quiet_next _ (quiet_tick call_newMediaRecorder _ Hq2)); simpl.
  all: eexists _, _, _; (split; [reflexivity|]); simpl.
  all: split; [auto with host|].
  all: repeat (split; [done|]).
  all: rewrite ?calls_tick, Hc2, ?calls_tick, <- ?app_assoc; done.
Qed.

(** On such a host, stopping an open session writes the last slice if it
    is not empty, closes the stream, which stores what was written, and
    promotes the entry. *)
Lemma stopRecording_quiet last recorder r fileHandle tg ws s :
  mediaRecorderRef (app s) = Some recorder →
  isRecording (app s) = true →
  writableStreamRef (app s) = Some r →
  currentFileHandleRef (app s) = Some fileHandle →
  is_open r tg ws (world s) →
  quiet (traffic s) →
  let s' := run (stopRecording last) s in
  storage (world s') !! tg = Some (a_file (concat (ws ++ filter non_empty [last]))) ∧
  isRecording (app s') = false ∧
  writableStreamRef (app s') = None ∧
  match recorder_type recorder with
  | webcam => activeWebcamFileHandle (app s') = Some fileHandle
  | screen => activeScreenFileHandle (app s') = Some fileHandle
  end.
Proof.
  intros Hrec Hir Hr Hfh Ho Hq. unfold run, stopRecording, recorder_stop, await.
  unfold mbind, M_bind, get_app. rewrite Hrec, Hir. rewrite (quiet_next _ Hq).
  match goal with |- context [ondataavailable last ?s0] =>
    destruct (ondataavailable_spec last r s0 Hr) as (a1 & w1 & t1 & -> & Hr1 & _ & Hq1) end.
  destruct (Hq1 (quiet_tick call_stop _ Hq) tg _ Ho) as (-> & Hqt1 & Ho1). simpl in Hr1.
  unfold onstop. unfold_setters. unfold_M. simpl. rewrite Hr.
  match goal with |- context [close r ?s0] =>
    destruct (close_open r tg _ s0 Ho1) as (res & w2 & t2 & -> & _ & Hok & Hq2) end.
  destruct (Hq2 Hqt1) as [-> Hqt2]. destruct (Hok eq_refl) as [Hst _]. simpl.
  rewrite Hfh.
  destruct (recorder_type recorder); simpl.
  all: match goal with |- context [handleListFiles ?s0] =>
         destruct (handleListFiles_spec s0) as (a3 & t3 & -> & Ha3 & _) end.
  all: simpl; destruct Ha3 as [->|[m ->]]; simpl.
  all: destruct (mediaStreamRef (app s)); simpl.
  all: rewrite Hst, lookup_insert_eq; done.
Qed.

Lemma length_concat_sum (l : list (list byte)) :
  length (concat l) = sum_list_with length l.
Proof. induction l as [|x l IH]; simpl; [done|]. by rewrite length_app, IH. Qed.

Lemma sum_filter_non_empty (l : list (list byte)) :
  sum_list_with length (filter non_empty l) = sum_list_with length l.
Proof.
  induction l as [|x l IH]; [done|]. rewrite filter_cons. case_decide as Hx; simpl.
  - by rewrite IH.
  - unfold non_empty in Hx. rewrite IH. lia.
Qed.

(** C2.  While a session holds the stream [r], delivering slices makes
    exactly one [write] call on [r] per non-empty slice, in arrival
    order, and no other call: an empty slice triggers no call.  And for a
    whole session on a host that lets every call through (start, the
    slices, then stop, which brings the last slice), the entry stored
    under the name of the recording holds the non-empty slices one after
    the other, so its size is the sum of their sizes, which is the sum of
    the sizes of all the slices. *)
Theorem recording_writes_the_non_empty_slices :
  (∀ slices r s,
     writableStreamRef (app s) = Some r →
     calls (traffic (run (deliver slices) s))
       = calls (traffic s) ++ map (call_write r) (filter non_empty slices)) ∧
  (∀ type uuid slices last s,
     isRecording (app s) = false →
     quiet (traffic s) →
     storage (world s) !! recording_name type uuid ≠ Some a_directory →
     let s' := run (stopRecording last)
                 (run (deliver slices) (run (startRecording type uuid) s)) in
     ∃ bytes,
       storage (world s') !! recording_name type uuid = Some (a_file bytes) ∧
       bytes = concat (filter non_empty (slices ++ [last])) ∧
       length bytes = sum_list_with length (filter non_empty (slices ++ [last])) ∧
       length bytes = sum_list_with length (slices ++ [last])).
Proof.
  split.
  - intros slices r s Hr. unfold run.
    destruct (deliver_spec slices r s Hr) as (a' & w' & t' & -> & _ & Hc & _). exact Hc.
  - intros type uuid slices last s Hrec Hq Hd s'. subst s'. unfold run at 3.
    destruct (startRecording_quiet type uuid s Hrec Hq Hd)
      as (a1 & w1 & t1 & -> & Hq1 & Ho1 & Hir & _ & Hmr & _ & Hwr & Hfh & _).
    unfold run at 2. simpl.
    destruct (deliver_spec slices _ (mkSys a1 w1 t1) Hwr)
      as (a2 & w2 & t2 & -> & _ & _ & Hq2).
    destruct (Hq2 Hq1 _ _ Ho1) as (-> & Hqt2 & Ho2). simpl in *.
    destruct (stopRecording_quiet last _ _ _ _ _ (mkSys a1 w2 t2) Hmr Hir Hwr Hfh Ho2 Hqt2)
      as (Hst & _).
    eexists. split; [exact Hst|]. rewrite filter_app.
    split; [done|]. rewrite length_concat_sum, <- filter_app.
    split; [done|]. apply sum_filter_non_empty.
Qed.

(** The scenario of the specification: slices of 1000, 0 and 2000 bytes,
    then stop, give an entry of 3000 bytes and two write calls. *)
Lemma recording_writes_the_non_empty_slices_witness :
  let slices := [bytes_of 1000; bytes_of 0; bytes_of 2000] in
  let started := run (startRecording webcam "u2") uploaded in
  let s' := run (stopRecording []) (run (deliver slices) started) in
  (∃ bytes, storage (world s') !! "webcam-u2.webm" = Some (a_file bytes) ∧
            length bytes = 3000) ∧
  calls (traffic (run (deliver slices) started))
    = calls (traffic started)
      ++ [call_write 1 (bytes_of 1000); call_write 1 (bytes_of 2000)].
Proof.
  destruct recording_writes_the_non_empty_slices as [H1 H2].
  cbv zeta. split.
  - destruct (H2 webcam "u2" [bytes_of 1000; bytes_of 0; bytes_of 2000] [] uploaded)
      as (bytes & Hst & _ & _ & Hlen);
      [vm_compute; reflexivity|vm_compute; constructor|vm_compute; discriminate|].
    exists bytes. split; [exact Hst|]. rewrite Hlen. vm_compute. reflexivity.
  - rewrite (H1 _ 1); [|vm_compute; reflexivity]. vm_compute. reflexivity.
Defined.

(** C3.  A start request made while a recording is active only sets the
    error message: the host is not called (so no entry, no stream and no
    writable is created), the references of the session (its write
    target, its capture stream, its file handle, its recorder) and its
    category are as before, and the rest of the component state too, the
    two messages apart. *)
Theorem startRecording_rejected_while_recording type uuid s :
  isRecording (app s) = true →
  let s' := run (startRecording type uuid) s in
  error (app s') = "Another recording is already in progress." ∧
  world s' = world s ∧ traffic s' = traffic s ∧
  isRecording (app s') = true ∧
  currentRecordingType (app s') = currentRecordingType (app s) ∧
  mediaRecorderRef (app s') = mediaRecorderRef (app s) ∧
  mediaStreamRef (app s') = mediaStreamRef (app s) ∧
  writableStreamRef (app s') = writableStreamRef (app s) ∧
  currentFileHandleRef (app s') = currentFileHandleRef (app s) ∧
  app s' = app_setError "Another recording is already in progress."
             (app_setSuccess EmptyString (app_setError EmptyString (app s))).
Proof.
  intros H. unfold run, startRecording. unfold_setters. unfold_M. simpl.
  rewrite H. simpl. by repeat split.
Qed.

Lemma startRecording_rejected_while_recording_witness :
  let s := run (startRecording webcam "u2") uploaded in
  let s' := run (startRecording screen "u3") s in
  isRecording (app s) = true ∧
  error (app s') = "Another recording is already in progress." ∧
  world s' = world s ∧
  currentRecordingType (app s') = Some webcam.
Proof.
  assert (isRecording (app (run (startRecording webcam "u2") uploaded)) = true)
    as Hr by (vm_compute; reflexivity).
  destruct (startRecording_rejected_while_recording screen "u3"
              (run (startRecording webcam "u2") uploaded) Hr)
    as (He & Hw & _ & _ & Hc & _).
  cbv zeta. split; [exact Hr|]. split; [exact He|]. split; [exact Hw|].
  rewrite Hc. vm_compute. reflexivity.
Defined.

(** C4, as the code has it.  When the capture request of a start
    request is refused, the error is shown, the host state is as before
    (no entry, no stream, no writable; the refused request is the only
    call), no session state is set, and the active entries and the list
    are as before.  The displayed text and the two playback URLs are not
    kept: the handler clears them before it asks for the stream. *)
Theorem startRecording_acquisition_failure type uuid message s :
  isRecording (app s) = false →
  next_fault (traffic s) = Some message →
  let s' := run (startRecording type uuid) s in
  error (app s') = "Could not start recording: " +:+ message ∧
  world s' = world s ∧
  calls (traffic s') = calls (traffic s) ++ [call_capture type] ∧
  isRecording (app s') = false ∧
  currentRecordingType (app s') = currentRecordingType (app s) ∧
  mediaRecorderRef (app s') = mediaRecorderRef (app s) ∧
  mediaStreamRef (app s') = mediaStreamRef (app s) ∧
  writableStreamRef (app s') = writableStreamRef (app s) ∧
  currentFileHandleRef (app s') = currentFileHandleRef (app s) ∧
  activeTextFileHandle (app s') = activeTextFileHandle (app s) ∧
  activeWebcamFileHandle (app s') = activeWebcamFileHandle (app s) ∧
  activeScreenFileHandle (app s') = activeScreenFileHandle (app s) ∧
  fileList (app s') = fileList (app s) ∧
  fileContent (app s') = EmptyString ∧
  webcamPlaybackUrl (app s') = None ∧
  screenPlaybackUrl (app s') = None.
Proof.
  intros Hr Hf. unfold run, startRecording, getUserMedia, getDisplayMedia, new_stream, await.
  unfold_setters. unfold_M. simpl. rewrite Hr. simpl.
  destruct type; simpl; rewrite Hf; simpl; by repeat split.
Qed.

Lemma startRecording_acquisition_failure_witness :
  let s := with_script [Some "Permission denied"] shown in
  let s' := run (startRecording webcam "u2") s in
  error (app s') = "Could not start recording: Permission denied" ∧
  world s' = world s ∧
  activeTextFileHandle (app s') = Some (mkHandle "text-u1.txt") ∧
  fileContent (app s') = EmptyString.
Proof.
  destruct (startRecording_acquisition_failure webcam "u2" "Permission denied"
              (with_script [Some "Permission denied"] shown))
    as (He & Hw & _ & _ & _ & _ & _ & _ & _ & Ha & _ & _ & _ & Hc & _);
    [vm_compute; reflexivity|vm_compute; reflexivity|].
  cbv zeta. split; [exact He|]. split; [exact Hw|]. split; [|exact Hc].
  rewrite Ha. vm_compute. reflexivity.
Defined.

(** C4 as stated fails: the uploaded text is on display when the
    camera is refused, and the failed start request has cleared it. *)
Lemma acquisition_failure_clears_the_text :
  let s := with_script [Some "Permission denied"] shown in
  let s' := run (startRecording webcam "u2") s in
  isRecording (app s) = false ∧
  error (app s') = "Could not start recording: Permission denied" ∧
  fileContent (app s) = "hi!" ∧
  fileContent (app s') = EmptyString ∧
  fileContent (app s') ≠ fileContent (app s).
Proof. vm_compute. repeat split; discriminate. Qed.

(** * Further properties *)

(** ** What the host calls leave alone *)

Lemma keeps_files_refl w : keeps_files w w.
Proof. by intros f. Qed.

Lemma keeps_files_trans w1 w2 w3 :
  keeps_files w1 w2 → keeps_files w2 w3 → keeps_files w1 w3.
Proof. intros H1 H2 f Hf. auto. Qed.

Lemma keeps_files_storage w w' : storage w' = storage w → keeps_files w w'.
Proof. intros E f. unfold names_file. by rewrite E. Qed.

Lemma keeps_files_insert w w' fileName bytes :
  storage w' = <[fileName := a_file bytes]> (storage w) → keeps_files w w'.
Proof.
  intros E f [b Hb]. unfold names_file. rewrite E.
  destruct (decide (fileName = f)) as [->|Hne].
  - rewrite lookup_insert_eq. eauto.
  - rewrite lookup_insert_ne by done. eauto.
Qed.

(** A [write] changes the table of writable streams only. *)
Lemma write_root r data s :
  app (snd (write r data s)) = app s ∧
  storage (world (snd (write r data s))) = storage (world s) ∧
  streams (world (snd (write r data s))) = streams (world s).
Proof.
  unfold write. unfold_M. rewrite !await_stream_spec.
  destruct (next_fault (traffic s)); simpl; [by repeat split|].
  unfold_M. simpl. destruct (writables (world s) !! r) as [ws|]; simpl; [|by repeat split].
  destruct (state ws); by repeat split.
Qed.

(** A [close] stores a file, or nothing. *)
Lemma close_root r s :
  app (snd (close r s)) = app s ∧
  keeps_files (world s) (world (snd (close r s))) ∧
  streams (world (snd (close r s))) = streams (world s) ∧
  fst (close r s) ≠ Hang.
Proof.
  unfold close. unfold_M. rewrite !await_stream_spec.
  destruct (next_fault (traffic s)); simpl.
  { repeat split; try done. by apply keeps_files_storage. }
  destruct (writables (world s) !! r) as [ws|]; simpl.
  2: { repeat split; try done. by apply keeps_files_storage. }
  destruct (state ws); simpl; repeat split; try done.
  - by eapply keeps_files_insert.
  - by apply keeps_files_storage.
  - by apply keeps_files_storage.
Qed.

Lemma close_refused r message s :
  fst (close r s) = Err message →
  storage (world (snd (close r s))) = storage (world s).
Proof.
  unfold close. unfold_M. rewrite !await_stream_spec.
  destruct (next_fault (traffic s)); simpl; [done|].
  destruct (writables (world s) !! r) as [ws|]; simpl; [|done].
  by destruct (state ws).
Qed.

Lemma abort_root r s :
  app (snd (abort r s)) = app s ∧
  storage (world (snd (abort r s))) = storage (world s) ∧
  streams (world (snd (abort r s))) = streams (world s).
Proof.
  unfold abort, spoil, await. unfold_M. simpl.
  destruct (next_fault (traffic s)); simpl; [by repeat split|].
  destruct (writables (world s) !! r) as [ws|]; simpl; [|by repeat split].
  destruct (state ws); by repeat split.
Qed.

(** The opening calls add at most an empty file under the name; when
    they go through, the name is that of a file. *)
Lemma open_new_file_root n s :
  app (snd (open_new_file n s)) = app s ∧
  (storage (world (snd (open_new_file n s))) = storage (world s)
   ∨ (storage (world s) !! n = None ∧
      storage (world (snd (open_new_file n s))) = <[n := a_file []]> (storage (world s)))) ∧
  streams (world (snd (open_new_file n s))) = streams (world s) ∧
  (∀ x, fst (open_new_file n s) = Ok x → names_file (world (snd (open_new_file n s))) n).
Proof.
  unfold open_new_file, getDirectory, getFileHandle, createWritable, await, names_file.
  unfold_M. simpl.
  destruct (next_fault (traffic s)) eqn:E1; simpl; [by repeat split; auto|].
  destruct (next_fault (tick call_getDirectory (traffic s))) eqn:E2; simpl;
    [by repeat split; auto|].
  destruct (storage (world s) !! n) as [[bytes|]|] eqn:E; simpl.
  - fault_case; rewrite ?E; simpl; repeat split; eauto; done.
  - repeat split; auto. done.
  - fault_case; rewrite ?lookup_insert_eq; simpl.
    all: repeat split; auto; try done.
    intros _ _. rewrite lookup_insert_eq. eauto.
Qed.

Lemma open_new_file_keeps n s :
  keeps_files (world s) (world (snd (open_new_file n s))).
Proof.
  destruct (open_new_file_root n s) as (_ & [E|[_ E]] & _).
  - by apply keeps_files_storage.
  - by eapply keeps_files_insert.
Qed.

Lemma write_sub_chunks_root cs r value fuel : ∀ i s,
  app (snd (write_sub_chunks cs r value fuel i s)) = app s ∧
  storage (world (snd (write_sub_chunks cs r value fuel i s))) = storage (world s) ∧
  streams (world (snd (write_sub_chunks cs r value fuel i s))) = streams (world s).
Proof.
  induction fuel as [|fuel IH]; intros i s; simpl.
  - destruct (i <? length value); by repeat split.
  - destruct (i <? length value); [|by repeat split]. unfold mbind, M_bind.
    destruct (write_root r (subarray value i (i + cs)) s) as (Ha & Hs & Ht).
    destruct (write r (subarray value i (i + cs)) s) as [[[]|m|] s1]; simpl in *; try (by repeat split).
    destruct (IH (i + cs) s1) as (Ha2 & Hs2 & Ht2).
    by rewrite Ha2, Hs2, Ht2.
Qed.

Lemma read_loop_root cs r reader : ∀ s,
  app (snd (read_loop cs r reader s)) = app s ∧
  storage (world (snd (read_loop cs r reader s))) = storage (world s) ∧
  streams (world (snd (read_loop cs r reader s))) = streams (world s).
Proof.
  induction reader as [|value reader IH]; intros s; simpl.
  - unfold await. unfold_M. simpl. destruct (next_fault (traffic s)); by repeat split.
  - unfold await. unfold mbind, M_bind. simpl.
    destruct (next_fault (traffic s)); simpl; [by repeat split|].
    match goal with |- context [write_sub_chunks cs r value ?f ?i ?s0] =>
      destruct (write_sub_chunks_root cs r value f i s0) as (Ha & Hs & Ht);
      destruct (write_sub_chunks cs r value f i s0) as [[[]|m|] s1] end; simpl in *; try (by repeat split).
    destruct (IH s1) as (Ha2 & Hs2 & Ht2). by rewrite Ha2, Hs2, Ht2.
Qed.

(** ** The end of a session *)

Lemma handleListFiles_frame s :
  ∃ a' t', handleListFiles s = (Ok tt, mkSys a' (world s) t') ∧
    same_session (app s) a' ∧ same_cards (app s) a' ∧
    isLoading a' = isLoading (app s) ∧ isInspecting a' = false ∧
    isSupported a' = isSupported (app s) ∧
    (error a' = error (app s) ∧ success a' ≠ EmptyString ∧ fileList a' = listing (world s)
     ∨ (∃ m, error a' = "Could not list files: " +:+ m) ∧
       success a' = success (app s) ∧ fileList a' = fileList (app s)).
Proof.
  destruct (handleListFiles_spec s) as (a' & t' & E & [->|[m ->]] & _).
  - eexists _, _. split; [exact E|]. repeat split. left. simpl. split; [done|]. split; [|done].
    destruct (0 <? length (listing (world s))); [|done]. by apply append_not_empty.
  - eexists _, _. split; [exact E|]. repeat split. right. simpl. eauto.
Qed.

(** [onstop] never throws.  Whatever the host does, it ends the
    session: the flag and the five references are reset, the tracks of
    the held stream are stopped, and the entry of the session, when there
    is one, becomes the active entry of the card of [type], without a
    playback URL; the text card and the other media card are not touched,
    and no file of the root is lost. *)
Lemma onstop_spec type s :
  let s' := run (onstop type) s in
  fst (onstop type s) = Ok tt ∧
  isRecording (app s') = false ∧ no_session (app s') ∧
  keeps_files (world s) (world s') ∧
  streams (world s') = released (mediaStreamRef (app s)) (streams (world s)) ∧
  activeTextFileHandle (app s') = activeTextFileHandle (app s) ∧
  fileContent (app s') = fileContent (app s) ∧
  card_handle (other type) (app s') = card_handle (other type) (app s) ∧
  card_url (other type) (app s') = card_url (other type) (app s) ∧
  isLoading (app s') = isLoading (app s) ∧
  isSupported (app s') = isSupported (app s) ∧
  match currentFileHandleRef (app s) with
  | Some fileHandle =>
      card_handle type (app s') = Some fileHandle ∧ card_url type (app s') = None ∧
      isInspecting (app s') = false
  | None =>
      card_handle type (app s') = card_handle type (app s) ∧
      card_url type (app s') = card_url type (app s) ∧
      isInspecting (app s') = isInspecting (app s) ∧
      fileList (app s') = fileList (app s)
  end.
Proof.
  intros s'. subst s'. unfold run, onstop. unfold_setters. unfold_M. simpl.
  destruct (writableStreamRef (app s)) as [r|] eqn:Hw; simpl.
  1: destruct (close_root r s) as (Ha & Hk & Hst & Hh);
     destruct (close r s) as [[[]|m|] [a1 w1 t1]]; simpl in *; [| |done]; subst a1.
  3: pose proof (keeps_files_refl (world s)) as Hk;
     pose proof (eq_refl (streams (world s))) as Hst.
  all: destruct (currentFileHandleRef (app s)) as [fh|] eqn:Hfh; simpl.
  all: try (destruct type; simpl;
            match goal with |- context [handleListFiles ?s0] =>
              destruct (handleListFiles_frame s0)
                as (a3 & t3 & -> & Hss & Hsc & Hl & Hi & Hsup & _) end;
            unfold same_session, same_cards in Hss, Hsc; simpl in *;
            destruct Hss as (S1 & S2 & S3 & S4 & S5 & S6);
            destruct Hsc as (C1 & C2 & C3 & C4 & C5 & C6);
            rewrite S4).
  all: destruct (mediaStreamRef (app s)) as [sid|]; simpl.
  all: unfold no_session; simpl.
  all: rewrite ?C1, ?C2, ?C3, ?C4, ?C5, ?C6, ?Hl, ?Hsup, ?Hst, ?S5.
  all: try (destruct type; simpl).
  all: repeat split; try done; congruence.
Qed.

(** ** The start of a session *)

Lemma insert_last {A : Type} (l : list A) (x y : A) :
  <[length l := y]> (l ++ [x]) = l ++ [y].
Proof. rewrite insert_app_r_alt by lia. by rewrite Nat.sub_diag. Qed.

Lemma keeps_files_change w1 w2 w1' w2' :
  storage w1' = storage w1 → storage w2' = storage w2 →
  keeps_files w1 w2 → keeps_files w1' w2'.
Proof. unfold keeps_files, names_file. intros -> ->. done. Qed.

(** The ways a start request ends when no recording is active: the
    capture is refused; or the entry cannot be created and the stream
    just acquired is stopped; or the session is set up, with its recorder
    unless the constructor threw. *)
Lemma startRecording_cases type uuid s :
  isRecording (app s) = false →
  let n := recording_name type uuid in
  let r := length (writables (world s)) in
  let sid := length (streams (world s)) in
  ∃ res a' w' t', startRecording type uuid s = (res, mkSys a' w' t') ∧
    res ≠ Hang ∧
    activeTextFileHandle a' = activeTextFileHandle (app s) ∧
    activeWebcamFileHandle a' = activeWebcamFileHandle (app s) ∧
    activeScreenFileHandle a' = activeScreenFileHandle (app s) ∧
    fileContent a' = EmptyString ∧
    webcamPlaybackUrl a' = None ∧ screenPlaybackUrl a' = None ∧
    isLoading a' = isLoading (app s) ∧ isInspecting a' = isInspecting (app s) ∧
    isSupported a' = isSupported (app s) ∧ fileList a' = fileList (app s) ∧
    keeps_files (world s) w' ∧
    ((isRecording a' = false ∧
      currentRecordingType a' = currentRecordingType (app s) ∧
      mediaRecorderRef a' = mediaRecorderRef (app s) ∧
      writableStreamRef a' = writableStreamRef (app s) ∧
      currentFileHandleRef a' = currentFileHandleRef (app s) ∧
      ((∃ m, next_fault (traffic s) = Some m ∧
             error a' = "Could not start recording: " +:+ m) ∧
         mediaStreamRef a' = mediaStreamRef (app s) ∧ w' = world s
       ∨ (∃ m, error a' = "Could not create recording file: " +:+ m) ∧
         next_fault (traffic s) = None ∧
         mediaStreamRef a' = None ∧ streams w' = streams (world s) ++ [false]))
     ∨ (isRecording a' = true ∧
        currentRecordingType a' = Some type ∧
        writableStreamRef a' = Some r ∧
        currentFileHandleRef a' = Some (mkHandle n) ∧
        mediaStreamRef a' = Some sid ∧
        streams w' = streams (world s) ++ [true] ∧
        names_file w' n ∧ is_open r n [] w' ∧
        error a' = EmptyString ∧
        (mediaRecorderRef a' = Some (mkRecorder type sid)
         ∨ mediaRecorderRef a' = mediaRecorderRef (app s) ∧ ∃ m, res = Err m))).
Proof.
  intros Hrec n r sid. subst n r sid.
  unfold startRecording. fold (recording_name type uuid).
  unfold getUserMedia, getDisplayMedia, new_stream, newMediaRecorder, start, await.
  unfold_setters. unfold_M. simpl. rewrite Hrec. simpl.
  destruct type; simpl.
  all: destruct (next_fault (traffic s)) as [m0|] eqn:E0; simpl.
  1,3: eexists _, _, _, _; (split; [reflexivity|]); simpl;
       repeat (split; [first [done | apply keeps_files_refl]|]);
       left; repeat (split; [done|]); left; split; [eauto|done].
  all: match goal with |- context [open_new_file ?n ?s0] =>
         destruct (open_new_file_spec n s0) as (res & w1 & t1 & E & Hh & Hok & _);
         pose proof (open_new_file_root n s0) as (_ & _ & Rt & Rn);
         pose proof (open_new_file_keeps n s0) as Rk;
         rewrite E in *; clear E end.
  all: simpl in *.
  all: destruct res as [[fh wr]|m|]; simpl; [| |done].
  all: try (destruct (Hok _ eq_refl) as ([= -> ->] & Ho & _);
            specialize (Rn _ eq_refl)).
  (* the entry could not be created *)
  2,4: eexists _, _, _, _; (split; [reflexivity|]); simpl.
  2,3: repeat (split; [first [done | refine (keeps_files_change _ _ _ _ _ _ Rk); reflexivity]|]).
  2,3: left; repeat (split; [done|]); right; split; [eauto|]; split; [done|]; split; [done|];
       by rewrite Rt, insert_last.
  (* the session is set up *)
  all: fault_case; [|fault_case].
  all: eexists _, _, _, _; (split; [reflexivity|]); simpl.
  all: repeat (split; [first [done | refine (keeps_files_change _ _ _ _ _ _ Rk); reflexivity]|]).
  all: right; repeat (split; [done|]); eauto.
Qed.

(** ** Slices and failed writes *)

(** A [dataavailable] event changes the error message at most, and on
    the host side the table of writable streams only. *)
Lemma ondataavailable_frame data s :
  ∃ a' w' t', ondataavailable data s = (Ok tt, mkSys a' w' t') ∧
    (a' = app s ∨ ∃ m, a' = app_setError ("Recording error: " +:+ m) (app s)) ∧
    storage w' = storage (world s) ∧ streams w' = streams (world s).
Proof.
  unfold ondataavailable. unfold_setters. unfold_M. simpl.
  destruct (0 <? length data), (writableStreamRef (app s)) as [r|].
  2,3,4: destruct s; eexists _, _, _; (split; [reflexivity|]); auto.
  destruct (write_root r data s) as (Ha & Hs & Ht).
  destruct (write_frame r data s) as (res & w' & t' & E & Hh & _).
  rewrite E in *. simpl in *. destruct res as [[]|m|]; simpl; [| |done].
  - eexists _, _, _. split; [reflexivity|]. auto.
  - eexists _, _, _. split; [reflexivity|]. simpl. eauto.
Qed.

Lemma deliver_frame slices : ∀ s,
  ∃ a' w' t', deliver slices s = (Ok tt, mkSys a' w' t') ∧
    same_session (app s) a' ∧ same_cards (app s) a' ∧
    storage w' = storage (world s) ∧ streams w' = streams (world s).
Proof.
  induction slices as [|data slices IH]; intros s; simpl.
  - destruct s. eexists _, _, _. split; [reflexivity|]. by repeat split.
  - unfold mbind, M_bind.
    destruct (ondataavailable_frame data s) as (a1 & w1 & t1 & -> & Ha & Hs & Ht).
    destruct (IH (mkSys a1 w1 t1)) as (a2 & w2 & t2 & -> & Hss & Hsc & Hs2 & Ht2).
    simpl in *. eexists _, _, _. split; [reflexivity|].
    rewrite Hs2, Ht2, Hs, Ht.
    unfold same_session, same_cards in *.
    destruct Ha as [->|[m ->]]; simpl in *; done.
Qed.

(** A writable stream that a failed call has left errored stays so:
    every later [write] or [close] on it is refused and stores nothing. *)
Lemma write_errored r data s :
  is_errored r (world s) →
  is_errored r (world (snd (write r data s))) ∧ ∃ m, fst (write r data s) = Err m.
Proof.
  unfold is_errored. intros (ws & Hl & Hst). unfold write. unfold_M.
  rewrite !await_stream_spec. destruct (next_fault (traffic s)); simpl.
  - split; [|eauto]. exists (set_state errored_ ws). split; [|done].
    by rewrite list_lookup_alter_eq, Hl.
  - rewrite Hl. simpl. rewrite Hst. simpl. split; eauto.
Qed.

Lemma write_fault_errors r data message ws s :
  writables (world s) !! r = Some ws →
  next_fault (traffic s) = Some message →
  is_errored r (world (snd (write r data s))) ∧ fst (write r data s) = Err message.
Proof.
  unfold is_errored. intros Hl Hf. unfold write. unfold_M.
  rewrite !await_stream_spec, Hf. simpl. split; [|done].
  exists (set_state errored_ ws). split; [|done]. by rewrite list_lookup_alter_eq, Hl.
Qed.

Lemma close_errored r s :
  is_errored r (world s) →
  storage (world (snd (close r s))) = storage (world s) ∧
  is_errored r (world (snd (close r s))) ∧ ∃ m, fst (close r s) = Err m.
Proof.
  unfold is_errored. intros (ws & Hl & Hst). unfold close. unfold_M.
  rewrite !await_stream_spec. destruct (next_fault (traffic s)); simpl.
  - split; [done|]. split; [|eauto]. exists (set_state errored_ ws). split; [|done].
    by rewrite list_lookup_alter_eq, Hl.
  - rewrite Hl. simpl. rewrite Hst. simpl. split; [done|]. split; eauto.
Qed.

Lemma ondataavailable_errored data r s :
  writableStreamRef (app s) = Some r →
  is_errored r (world s) →
  is_errored r (world (snd (ondataavailable data s))).
Proof.
  intros Hr He. unfold ondataavailable. unfold_setters. unfold_M. simpl. rewrite Hr.
  destruct (0 <? length data); [|done].
  destruct (write_errored r data s He) as (He' & m & Hm).
  destruct (write r data s) as [res s1]. simpl in *. subst res. done.
Qed.

Lemma deliver_errored slices r : ∀ s,
  writableStreamRef (app s) = Some r →
  is_errored r (world s) →
  is_errored r (world (snd (deliver slices s))).
Proof.
  induction slices as [|data slices IH]; intros s Hr He; simpl; [done|].
  unfold mbind, M_bind.
  pose proof (ondataavailable_errored data r s Hr He) as He1.
  destruct (ondataavailable_frame data s) as (a1 & w1 & t1 & E & Ha & _).
  rewrite E in *. simpl in *. apply IH; [|done].
  simpl. by destruct Ha as [->|[m ->]].
Qed.

Lemma onstop_errored type r s :
  writableStreamRef (app s) = Some r →
  is_errored r (world s) →
  storage (world (run (onstop type) s)) = storage (world s).
Proof.
  intros Hr He. unfold run, onstop. unfold_setters. unfold_M. simpl. rewrite Hr.
  destruct (close_errored r s He) as (Hs & _ & m & Hm).
  destruct (close_root r s) as (Ha & _).
  destruct (close r s) as [res [a1 w1 t1]]. simpl in *. subst res a1. simpl.
  destruct (currentFileHandleRef (app s)) as [fh|]; simpl.
  1: destruct type; simpl;
     match goal with |- context [handleListFiles ?s0] =>
       destruct (handleListFiles_frame s0) as (a3 & t3 & -> & Hss & _) end;
     unfold same_session in Hss; simpl in *;
     destruct Hss as (_ & _ & _ & -> & _).
  all: by destruct (mediaStreamRef (app s)).
Qed.

(** X8. A failed write does not end the session, but it costs the whole
    recording: the error is shown and the session goes on as before, yet
    whatever slices follow and whatever the host does from then on,
    stopping leaves the root as it was when the write failed, and when
    the session ends its entry is promoted all the same. *)
Theorem failed_write_loses_the_recording
    data slices last script recorder fileHandle r ws message s :
  isRecording (app s) = true →
  mediaRecorderRef (app s) = Some recorder →
  writableStreamRef (app s) = Some r →
  currentFileHandleRef (app s) = Some fileHandle →
  writables (world s) !! r = Some ws →
  non_empty data →
  next_fault (traffic s) = Some message →
  let s1 := run (ondataavailable data) s in
  let s2 := run (stopRecording last) (run (deliver slices) (with_script script s1)) in
  error (app s1) = "Recording error: " +:+ message ∧
  same_session (app s) (app s1) ∧
  storage (world s2) = storage (world s) ∧
  (isRecording (app s2) = false →
   card_handle (recorder_type recorder) (app s2) = Some fileHandle).
Proof.
  intros Hir Hrec Hr Hfh Hl Hne Hf s1 s2.
  assert (app s1 = app_setError ("Recording error: " +:+ message) (app s)
          ∧ storage (world s1) = storage (world s) ∧ is_errored r (world s1))
    as (Ha1 & Hs1 & He1).
  { subst s1. unfold run, ondataavailable. unfold_setters. unfold_M. simpl. rewrite Hr.
    unfold non_empty in Hne. destruct (Nat.ltb_spec 0 (length data)); [|lia].
    destruct (write_fault_errors r data message ws s Hl Hf) as (He & Hm).
    destruct (write_root r data s) as (Ha & Hs & _).
    destruct (write r data s) as [res [a1 w1 t1]]. simpl in *. by subst res a1. }
  clearbody s1. subst s2.
  split; [by rewrite Ha1|]. split; [by rewrite Ha1|].
  set (s1' := with_script script s1).
  assert (writableStreamRef (app s1') = Some r) as Hr1 by (simpl; by rewrite Ha1).
  assert (is_errored r (world s1')) as He1' by done.
  pose proof (deliver_errored slices r s1' Hr1 He1') as He2.
  destruct (deliver_frame slices s1') as (a2 & w2 & t2 & E2 & Hss & _ & Hs2 & _).
  unfold run. rewrite E2 in *. simpl in *. rewrite Ha1 in Hss.
  unfold same_session in Hss. simpl in Hss.
  destruct Hss as (S1 & _ & S3 & _ & S5 & S6).
  unfold stopRecording, recorder_stop, await. unfold mbind, M_bind, get_app. simpl.
  rewrite S3, Hrec, S1, Hir.
  fault_case.
  { split; [by rewrite Hs2, Hs1|]. rewrite S1, Hir. done. }
  set (s3 := mkSys a2 w2 (tick call_stop t2)).
  assert (writableStreamRef (app s3) = Some r) as Hr3 by (simpl; by rewrite S5).
  pose proof (ondataavailable_errored last r s3 Hr3 He2) as He4.
  destruct (ondataavailable_frame last s3) as (a4 & w4 & t4 & E4 & Ha4 & Hs4 & _).
  rewrite E4 in *. simpl in *.
  assert (writableStreamRef a4 = Some r ∧ currentFileHandleRef a4 = Some fileHandle)
    as [Hr4 Hfh4].
  { destruct Ha4 as [->|[m ->]]; simpl; by rewrite S5, S6. }
  pose proof (onstop_errored (recorder_type recorder) r (mkSys a4 w4 t4) Hr4 He4) as Hs5.
  pose proof (onstop_spec (recorder_type recorder) (mkSys a4 w4 t4)) as Hon.
  unfold run in *. simpl in *. rewrite Hfh4 in Hon.
  destruct Hon as (_ & _ & _ & _ & _ & _ & _ & _ & _ & _ & _ & Hc & _).
  split; [by rewrite Hs5, Hs4, Hs2, Hs1|]. done.
Qed.

(** ** What an ingestion leaves alone *)

(** Whatever the host does, [handleFileSelect] ends with the busy flag
    down, does not touch the session nor the media cards, loses no file
    of the root and stops no stream.  When it fails it stores none of the
    bytes: the root is as before, or has the new name as an empty file,
    and the list of the inspector is not refreshed. *)
Lemma upload_frame cs file uuid s :
  0 < cs →
  let n := text_name uuid in
  ∃ res a' w' t', handleFileSelect_with cs (Some file) uuid s = (res, mkSys a' w' t') ∧
    same_session (app s) a' ∧
    activeWebcamFileHandle a' = activeWebcamFileHandle (app s) ∧
    activeScreenFileHandle a' = activeScreenFileHandle (app s) ∧
    webcamPlaybackUrl a' = webcamPlaybackUrl (app s) ∧
    screenPlaybackUrl a' = screenPlaybackUrl (app s) ∧
    isSupported a' = isSupported (app s) ∧
    isLoading a' = false ∧
    (isInspecting a' = isInspecting (app s) ∨ isInspecting a' = false) ∧
    fileContent a' = EmptyString ∧
    streams w' = streams (world s) ∧
    keeps_files (world s) w' ∧
    ((activeTextFileHandle a' = None ∧
      String.prefix "Upload failed: " (error a') = true ∧
      fileList a' = fileList (app s) ∧
      (storage w' = storage (world s)
       ∨ storage (world s) !! n = None ∧
         storage w' = <[n := a_file []]> (storage (world s))))
     ∨ (activeTextFileHandle a' = Some (mkHandle n) ∧ names_file w' n)).
Proof.
  intros Hcs n. unfold handleFileSelect_with. fold (text_name uuid). fold n.
  unfold_setters. unfold_M. simpl.
  match goal with |- context [open_new_file n ?s0] =>
    destruct (open_new_file_spec n s0) as (res & w1 & t1 & E & Hh & Hok & _);
    pose proof (open_new_file_root n s0) as (_ & Rs & Rt & Rn);
    pose proof (open_new_file_keeps n s0) as Rk;
    rewrite E in *; clear E end.
  simpl in *.
  destruct res as [[fh r]|m|]; simpl; [| |done].
  2: { eexists _, _, _, _. split; [reflexivity|]. simpl.
       repeat (split; [first [done | by left]|]).
       left. repeat (split; [first [done | apply prefix_append]|]). done. }
  destruct (Hok _ eq_refl) as ([= -> ->] & Ho & _). clear Hok.
  specialize (Rn _ eq_refl).
  match goal with |- context [read_loop cs ?r ?rd ?s0] =>
    destruct (read_loop_spec cs Hcs r n rd [] s0 Ho) as (res2 & w2 & t2 & E & Hh2 & Hok2 & _);
    pose proof (read_loop_root cs r rd s0) as (_ & Ls & Lt);
    rewrite E in *; clear E end.
  simpl in *.
  assert (∀ rr ss, ∃ res a' w' t',
            abort rr ss = (res, mkSys a' w' t') ∧ res ≠ Hang ∧ a' = app ss ∧
            storage w' = storage (world ss) ∧ streams w' = streams (world ss)) as Habort.
  { intros rr ss. destruct (abort_spec rr ss) as (resa & w' & t' & E & Hh').
    pose proof (abort_root rr ss) as (_ & As & At). rewrite E in *. simpl in *.
    by eexists _, _, _, _. }
  destruct res2 as [[]|m|]; simpl; [| |done].
  2: { match goal with |- context [abort ?r ?s0] =>
         destruct (Habort r s0) as (res3 & a3 & w3 & t3 & -> & Hh3 & -> & As & At) end.
       simpl in *. destruct res3 as [[]|m'|]; simpl; [| |done].
       all: eexists _, _, _, _; (split; [reflexivity|]); simpl.
       all: repeat (split; [first [done | by left | congruence
                                  | refine (keeps_files_change _ _ _ _ _ _ Rk); congruence]|]).
       all: left; repeat (split; [first [done | apply prefix_append]|]).
       all: rewrite As, Ls; done. }
  destruct (Hok2 eq_refl) as (ws & Ho2 & _). clear Hok2. simpl in Ho2.
  match goal with |- context [close ?r ?s0] =>
    pose proof (close_root r s0) as (Ca & Ck & Ct & Ch);
    pose proof (λ m, close_refused r m s0) as Cr;
    destruct (close r s0) as [res3 [a3 w3 t3]] end.
  simpl in *. subst a3.
  destruct res3 as [[]|m|]; simpl; [| |done].
  2: { specialize (Cr m eq_refl). simpl in Cr.
       match goal with |- context [abort ?r ?s0] =>
         destruct (Habort r s0) as (res4 & a4 & w4 & t4 & -> & Hh4 & -> & As & At) end.
       simpl in *. destruct res4 as [[]|m'|]; simpl; [| |done].
       all: eexists _, _, _, _; (split; [reflexivity|]); simpl.
       all: repeat (split; [first [done | by left | congruence
                                  | refine (keeps_files_change _ _ _ _ _ _ Rk); congruence]|]).
       all: left; repeat (split; [first [done | apply prefix_append]|]).
       all: rewrite As, Cr, Ls; done. }
  match goal with |- context [handleListFiles ?s0] =>
    destruct (handleListFiles_frame s0)
      as (a5 & t5 & -> & Hss & Hsc & Hl & Hi & Hsup & _) end.
  unfold same_session, same_cards in *. simpl in *.
  destruct Hss as (S1 & S2 & S3 & S4 & S5 & S6).
  destruct Hsc as (C1 & C2 & C3 & C4 & C5 & C6).
  eexists _, _, _, _. split; [reflexivity|]. simpl.
  assert (keeps_files (world s) w3) as Hk3.
  { eapply keeps_files_trans; [|exact Ck]. simpl.
    refine (keeps_files_change _ _ _ _ _ _ Rk); congruence. }
  repeat (split; [first [done | by right | congruence]|]).
  right. split; [done|]. apply Ck. simpl. unfold names_file in *. by rewrite Ls.
Qed.

(** ** The inspector and the cards *)

(** The two ways [handleDeleteFile] ends.  It never throws and ends
    with the busy flag down; when the entry could not be removed nothing
    but the messages changes. *)
Lemma handleDeleteFile_cases fileName s :
  ∃ a' w' t', handleDeleteFile fileName s = (Ok tt, mkSys a' w' t') ∧
    same_session (app s) a' ∧ isSupported a' = isSupported (app s) ∧
    isLoading a' = false ∧
    (isInspecting a' = isInspecting (app s) ∨ isInspecting a' = false) ∧
    streams w' = streams (world s) ∧
    ((w' = world s ∧ same_cards (app s) a' ∧ fileList a' = fileList (app s) ∧
      success a' = EmptyString ∧
      ∃ m, error a' = "Could not delete file: " +:+ m)
     ∨ (storage w' = delete fileName (storage (world s)) ∧
        is_Some (storage (world s) !! fileName) ∧
        success a' ≠ EmptyString ∧
        if is_active_entry (app s) fileName
        then cards_cleared a' else same_cards (app s) a')).
Proof.
  unfold handleDeleteFile, getDirectory, removeEntry, await.
  unfold_setters. unfold_M. simpl.
  fault_case.
  { eexists _, _, _. split; [reflexivity|]. simpl.
    repeat (split; [first [done | by left]|]). left. repeat split; eauto. }
  fault_case.
  { eexists _, _, _. split; [reflexivity|]. simpl.
    repeat (split; [first [done | by left]|]). left. repeat split; eauto. }
  destruct (storage (world s) !! fileName) as [e|] eqn:E; simpl.
  2: { eexists _, _, _. split; [reflexivity|]. simpl.
       repeat (split; [first [done | by left]|]). left. repeat split; eauto. }
  destruct (is_active_entry (app s) fileName) eqn:Hact; simpl.
  all: match goal with |- context [handleListFiles ?s0] =>
         destruct (handleListFiles_frame s0)
           as (a' & t' & -> & Hss & Hsc & Hl & Hi & Hsup & Hm) end.
  all: unfold same_session, same_cards, cards_cleared in *; simpl in *.
  all: destruct Hss as (S1 & S2 & S3 & S4 & S5 & S6).
  all: destruct Hsc as (C1 & C2 & C3 & C4 & C5 & C6).
  all: eexists _, _, _; (split; [reflexivity|]); simpl.
  all: repeat (split; [first [done | by right]|]).
  all: right; split; [done|]; split; [done|]; split; [|done].
  all: destruct Hm as [(_ & Hs & _)|(_ & -> & _)]; [done|simpl].
  all: by apply append_not_empty.
Qed.

(** The show action reads and never writes: it touches the displayed
    text, the messages and the busy flag only, and it displays text only
    for an active entry. *)
Lemma handleShowFile_frame text s :
  ∃ a' t', handleShowFile text s = (Ok tt, mkSys a' (world s) t') ∧
    same_session (app s) a' ∧ isSupported a' = isSupported (app s) ∧
    fileList a' = fileList (app s) ∧
    activeTextFileHandle a' = activeTextFileHandle (app s) ∧
    activeWebcamFileHandle a' = activeWebcamFileHandle (app s) ∧
    activeScreenFileHandle a' = activeScreenFileHandle (app s) ∧
    webcamPlaybackUrl a' = webcamPlaybackUrl (app s) ∧
    screenPlaybackUrl a' = screenPlaybackUrl (app s) ∧
    (isLoading a' = isLoading (app s) ∨ isLoading a' = false) ∧
    isInspecting a' = isInspecting (app s) ∧
    (fileContent a' = fileContent (app s) ∨ activeTextFileHandle (app s) ≠ None).
Proof.
  unfold handleShowFile, getFile, file_text, await. unfold_setters. unfold_M. simpl.
  destruct (activeTextFileHandle (app s)) as [h|] eqn:Ha; simpl.
  2: { eexists _, _. split; [reflexivity|]. simpl.
       repeat (split; [first [done | by left]|]). by left. }
  destruct (String.eqb (fileContent (app s)) EmptyString); simpl.
  2: { eexists _, _. split; [reflexivity|]. simpl.
       repeat (split; [first [done | by left]|]). by right. }
  fault_case.
  { eexists _, _. split; [reflexivity|]. simpl.
    repeat (split; [first [done | by right]|]). by right. }
  destruct (storage (world s) !! name h) as [[bytes|]|]; simpl.
  2,3: eexists _, _; (split; [reflexivity|]); simpl;
       repeat (split; [first [done | by right]|]); by right.
  fault_case.
  all: eexists _, _; (split; [reflexivity|]); simpl.
  all: repeat (split; [first [done | by right]|]); by right.
Qed.

(** The play action.  Without an active entry in the card it only sets
    an error.  With one, it drops the playback URL of that card, and sets
    a new one, not handed out before, when the entry can be read;
    otherwise the card is left without a URL.  The other cards, the
    session and the root are not touched. *)
Lemma handlePlayMedia_cases type s :
  ∃ a' w' t', handlePlayMedia type s = (Ok tt, mkSys a' w' t') ∧
    same_session (app s) a' ∧ isSupported a' = isSupported (app s) ∧
    fileList a' = fileList (app s) ∧
    activeTextFileHandle a' = activeTextFileHandle (app s) ∧
    activeWebcamFileHandle a' = activeWebcamFileHandle (app s) ∧
    activeScreenFileHandle a' = activeScreenFileHandle (app s) ∧
    fileContent a' = fileContent (app s) ∧
    card_url (other type) a' = card_url (other type) (app s) ∧
    isLoading a' = isLoading (app s) ∧ isInspecting a' = isInspecting (app s) ∧
    storage w' = storage (world s) ∧ streams w' = streams (world s) ∧
    match card_handle type (app s) with
    | None =>
        w' = world s ∧ t' = traffic s ∧
        a' = app_setError ("No " +:+ RecordingType_string type +:+ " file is loaded.")
               (app s)
    | Some h =>
        (card_url type a' = Some ("blob:" +:+ pretty (objectURLs (world s))) ∧
         objectURLs w' = S (objectURLs (world s)) ∧
         error a' = error (app s) ∧
         next_fault (traffic s) = None ∧ names_file (world s) (name h))
        ∨ (card_url type a' = None ∧ w' = world s ∧
           (∃ m, error a' = "Could not play file: " +:+ m) ∧
           (next_fault (traffic s) = None → ¬ names_file (world s) (name h)))
    end.
Proof.
  unfold handlePlayMedia, getFile, createObjectURL, note, await, names_file.
  unfold_setters. unfold_M. simpl.
  destruct type; simpl.
  - destruct (activeWebcamFileHandle (app s)) as [h|] eqn:Ha; simpl.
    2: { destruct s. eexists _, _, _. split; [reflexivity|]. simpl in *.
         unfold same_session. rewrite ?Ha. by repeat split. }
    fault_case.
    { eexists _, _, _. split; [reflexivity|]. simpl. unfold same_session. simpl.
      rewrite ?Ha. repeat (split; [done|]). right. repeat split; eauto. done. }
    destruct (storage (world s) !! name h) as [[bytes|]|] eqn:E; simpl.
    all: eexists _, _, _; (split; [reflexivity|]); simpl; unfold same_session; simpl.
    all: rewrite ?Ha; repeat (split; [done|]).
    + left. repeat split; eauto.
    + right. repeat split; eauto. intros _ [? ?]; done.
    + right. repeat split; eauto. intros _ [? ?]; done.
  - destruct (activeScreenFileHandle (app s)) as [h|] eqn:Ha; simpl.
    2: { destruct s. eexists _, _, _. split; [reflexivity|]. simpl in *.
         unfold same_session. rewrite ?Ha. by repeat split. }
    fault_case.
    { eexists _, _, _. split; [reflexivity|]. simpl. unfold same_session. simpl.
      rewrite ?Ha. repeat (split; [done|]). right. repeat split; eauto. done. }
    destruct (storage (world s) !! name h) as [[bytes|]|] eqn:E; simpl.
    all: eexists _, _, _; (split; [reflexivity|]); simpl; unfold same_session; simpl.
    all: rewrite ?Ha; repeat (split; [done|]).
    + left. repeat split; eauto.
    + right. repeat split; eauto. intros _ [? ?]; done.
    + right. repeat split; eauto. intros _ [? ?]; done.
Qed.

(** ** The download helper *)

Ltac unfold_D :=
  unfold mbind, mret, D_bind, D_ret, lift, get_document, set_document, try_catch_D in *.

(** A download reads the entry, and when that works it hands out one
    object URL, clicks one anchor that carries this URL and the name of
    the entry, takes the anchor out of the body again and revokes the
    same URL.  When the entry cannot be read the document is not
    touched. *)
Lemma downloadFileFromHandle_spec fileHandle doc s :
  (next_fault (traffic s) = None ∧ names_file (world s) (name fileHandle) ∧
   ∃ t', downloadFileFromHandle fileHandle (doc, s)
         = (Ok tt,
            (mkDocument (body doc)
               (clicked doc ++ [mkAnchor (blob_url (world s)) (name fileHandle)])
               (revoked doc ++ [blob_url (world s)]),
             mkSys (app s) (with_objectURLs (S (objectURLs (world s))) (world s)) t')))
  ∨ ((next_fault (traffic s) = None → ¬ names_file (world s) (name fileHandle)) ∧
     ∃ m t', downloadFileFromHandle fileHandle (doc, s)
             = (Err m, (doc, mkSys (app s) (world s) t'))).
Proof.
  unfold downloadFileFromHandle, getFile, createObjectURL, note, await, names_file, blob_url.
  unfold_D. unfold_M. simpl.
  destruct (next_fault (traffic s)) eqn:Ef; simpl; [right; split; [done|eauto]|].
  destruct (storage (world s) !! name fileHandle) as [[bytes|]|] eqn:E; simpl;
    [|right; split; [by intros _ [? ?]|eauto]|right; split; [by intros _ [? ?]|eauto]].
  left. split; [done|]. split; [eauto|]. eexists.
  rewrite (delete_middle (body doc) []), app_nil_r. destruct doc; reflexivity.
Qed.

(** [handleDownloadTextFile]: it never throws, leaves the cards, the
    session, the root and the body of the document as they were, and
    reports how the download went. *)
Lemma handleDownloadTextFile_cases doc s :
  ∃ doc' a' w' t', handleDownloadTextFile (doc, s) = (Ok tt, (doc', mkSys a' w' t')) ∧
    same_session (app s) a' ∧ same_cards (app s) a' ∧
    isSupported a' = isSupported (app s) ∧ fileList a' = fileList (app s) ∧
    isLoading a' = isLoading (app s) ∧ isInspecting a' = isInspecting (app s) ∧
    storage w' = storage (world s) ∧ streams w' = streams (world s) ∧
    body doc' = body doc ∧
    match activeTextFileHandle (app s) with
    | None =>
        doc' = doc ∧ w' = world s ∧ t' = traffic s ∧
        a' = app_setError "No file to download." (app s)
    | Some h =>
        (clicked doc' = clicked doc ++ [mkAnchor (blob_url (world s)) (name h)] ∧
         revoked doc' = revoked doc ++ [blob_url (world s)] ∧
         objectURLs w' = S (objectURLs (world s)) ∧
         error a' = EmptyString ∧ success a' ≠ EmptyString ∧
         names_file (world s) (name h))
        ∨ (doc' = doc ∧ w' = world s ∧ success a' = EmptyString ∧
           (∃ m, error a' = "Download failed: " +:+ m) ∧
           (next_fault (traffic s) = None → ¬ names_file (world s) (name h)))
    end.
Proof.
  unfold handleDownloadTextFile. unfold_D. unfold get_app. simpl.
  destruct (activeTextFileHandle (app s)) as [h|] eqn:Ha.
  2: { unfold setError, set_app. simpl. destruct s. eexists _, _, _, _.
       split; [reflexivity|]. simpl. unfold same_session, same_cards. by repeat split. }
  unfold clearMessages. unfold_setters. unfold_M. simpl.
  match goal with |- context [downloadFileFromHandle h (doc, ?s0)] =>
    destruct (downloadFileFromHandle_spec h doc s0) as [(Hf & Hn & t' & ->)|(Hno & m & t' & ->)] end.
  - unfold setSuccess, set_app. simpl. eexists _, _, _, _.
    split; [reflexivity|]. simpl. unfold same_session, same_cards. simpl.
    repeat (split; [done|]). left. repeat (split; [done|]). exact Hn.
  - unfold setError, set_app. simpl. eexists _, _, _, _.
    split; [reflexivity|]. simpl. unfold same_session, same_cards. simpl.
    repeat (split; [done|]). right. repeat (split; [done|]). split; [eauto|done].
Qed.

(** [handleDownloadMedia] does the same for a media card, but it keeps
    the messages it finds: after a download that worked, an error shown
    before is still shown, next to the success message. *)
Lemma handleDownloadMedia_cases type doc s :
  ∃ doc' a' w' t', handleDownloadMedia type (doc, s) = (Ok tt, (doc', mkSys a' w' t')) ∧
    same_session (app s) a' ∧ same_cards (app s) a' ∧
    isSupported a' = isSupported (app s) ∧ fileList a' = fileList (app s) ∧
    isLoading a' = isLoading (app s) ∧ isInspecting a' = isInspecting (app s) ∧
    storage w' = storage (world s) ∧ streams w' = streams (world s) ∧
    body doc' = body doc ∧
    match card_handle type (app s) with
    | None =>
        doc' = doc ∧ w' = world s ∧ t' = traffic s ∧
        a' = app_setError ("No " +:+ RecordingType_string type +:+ " file to download.")
               (app s)
    | Some h =>
        (clicked doc' = clicked doc ++ [mkAnchor (blob_url (world s)) (name h)] ∧
         revoked doc' = revoked doc ++ [blob_url (world s)] ∧
         objectURLs w' = S (objectURLs (world s)) ∧
         error a' = error (app s) ∧ success a' ≠ EmptyString ∧
         names_file (world s) (name h))
        ∨ (doc' = doc ∧ w' = world s ∧ success a' = success (app s) ∧
           (∃ m, error a' = "Download failed: " +:+ m) ∧
           (next_fault (traffic s) = None → ¬ names_file (world s) (name h)))
    end.
Proof.
  unfold handleDownloadMedia. unfold_D. unfold get_app. simpl.
  replace (match type with
           | webcam => activeWebcamFileHandle (app s)
           | screen => activeScreenFileHandle (app s)
           end) with (card_handle type (app s)) by by destruct type.
  destruct (card_handle type (app s)) as [h|] eqn:Ha.
  2: { unfold setError, set_app. simpl. destruct s. eexists _, _, _, _.
       split; [reflexivity|]. simpl. unfold same_session, same_cards. by repeat split. }
  destruct (downloadFileFromHandle_spec h doc s) as [(Hf & Hn & t' & ->)|(Hno & m & t' & ->)].
  - unfold setSuccess, set_app. simpl. eexists _, _, _, _.
    split; [reflexivity|]. simpl. unfold same_session, same_cards. simpl.
    repeat (split; [done|]). left. repeat (split; [done|]). exact Hn.
  - unfold setError, set_app. simpl. eexists _, _, _, _.
    split; [reflexivity|]. simpl. unfold same_session, same_cards. simpl.
    repeat (split; [done|]). right. repeat (split; [done|]). split; [eauto|done].
Qed.

(** ** The invariant of the page *)

Lemma card_ok_None p w : card_ok p w None.
Proof. by intros h. Qed.

Lemma card_ok_Some p w fileName :
  String.prefix p fileName = true → names_file w fileName →
  card_ok p w (Some (mkHandle fileName)).
Proof. intros Hp Hn h [= <-]. done. Qed.

Lemma card_ok_keeps p w w' handle :
  keeps_files w w' → card_ok p w handle → card_ok p w' handle.
Proof. intros Hk Hc h Hh. destruct (Hc h Hh). split; [done|]. by apply Hk. Qed.

Lemma session_ok_keeps a a' w w' :
  same_session a a' → keeps_files w w' → session_ok a w → session_ok a' w'.
Proof.
  unfold same_session, session_ok, no_session.
  intros (-> & -> & -> & -> & -> & ->) Hk.
  destruct (isRecording a); [|done].
  intros (type & uuid & r & sid & H1 & H2 & H3 & H4). exists type, uuid, r, sid.
  split; [done|]. split; [done|]. split; [by apply Hk|done].
Qed.

Lemma prefix_recording_name type uuid :
  String.prefix (RecordingType_string type +:+ "-") (recording_name type uuid) = true.
Proof.
  destruct type.
  - exact (prefix_append "webcam-" (uuid +:+ "." +:+ "webm")).
  - exact (prefix_append "screen-" (uuid +:+ "." +:+ "webm")).
Qed.

Lemma released_not_live w held sid :
  live_only w held → released held (streams w) !! sid ≠ Some true.
Proof.
  unfold live_only, released. intros Hl Hs. destruct held as [j|].
  - destruct (decide (j = sid)) as [->|Hne].
    + apply list_lookup_insert_Some in Hs. destruct Hs as [(_ & ? & _)|(? & _)]; done.
    + rewrite list_lookup_insert_ne in Hs by done. apply Hl in Hs. congruence.
  - by apply Hl in Hs.
Qed.

(** A handler that leaves the session and the cards alone, ends with
    the busy flags down, loses no file and touches no capture stream
    keeps the invariant. *)
Lemma consistent_keep s a' w' t' :
  consistent s →
  same_session (app s) a' → same_cards (app s) a' →
  isLoading a' = false → isInspecting a' = false →
  keeps_files (world s) w' → streams w' = streams (world s) →
  consistent (mkSys a' w' t').
Proof.
  intros [Hb Ht Hw Hs Hts Hwp Hsp Hse Hc] Hss Hsc Hl Hi Hk Hst.
  pose proof Hss as (S1 & S2 & S3 & S4 & S5 & S6).
  destruct Hsc as (C1 & C2 & C3 & C4 & C5 & C6).
  split; simpl; rewrite ?C1, ?C2, ?C3, ?C4, ?C5, ?C6, ?S4; try done.
  1-3: by eapply card_ok_keeps.
  - by eapply session_ok_keeps.
  - unfold live_only. by rewrite Hst.
Qed.

Lemma same_session_refl a : same_session a a.
Proof. by repeat split. Qed.

Lemma same_cards_refl a : same_cards a a.
Proof. by repeat split. Qed.

Lemma handleListFiles_consistent s :
  consistent s → consistent (run handleListFiles s).
Proof.
  intros Hc. unfold run.
  destruct (handleListFiles_frame s) as (a' & t' & -> & Hss & Hsc & Hl & Hi & _).
  simpl. eapply consistent_keep; try done.
  - rewrite Hl. apply Hc.
  - apply keeps_files_refl.
Qed.

Lemma ondataavailable_consistent data s :
  consistent s → consistent (run (ondataavailable data) s).
Proof.
  intros Hc. unfold run. pose proof (not_busy _ Hc) as [Hb1 Hb2].
  destruct (ondataavailable_frame data s) as (a' & w' & t' & -> & Ha & Hs & Ht).
  simpl. apply (consistent_keep s); try done.
  1-4: by destruct Ha as [->|[m ->]].
  by apply keeps_files_storage.
Qed.

Lemma with_script_consistent script s :
  consistent s → consistent (with_script script s).
Proof.
  intros Hc. unfold with_script. pose proof (not_busy _ Hc) as [Hb1 Hb2].
  apply (consistent_keep s); try done. apply keeps_files_refl.
Qed.

Lemma handleDownloadTextFile_consistent doc s :
  consistent s → consistent (snd (runD handleDownloadTextFile (doc, s))).
Proof.
  intros Hc. unfold runD.
  destruct (handleDownloadTextFile_cases doc s)
    as (doc' & a' & w' & t' & -> & Hss & Hsc & _ & _ & Hl & Hi & Hs & Ht & _).
  simpl. eapply consistent_keep; try done.
  - rewrite Hl. apply Hc.
  - rewrite Hi. apply Hc.
  - by apply keeps_files_storage.
Qed.

Lemma handleDownloadMedia_consistent type doc s :
  consistent s → consistent (snd (runD (handleDownloadMedia type) (doc, s))).
Proof.
  intros Hc. unfold runD.
  destruct (handleDownloadMedia_cases type doc s)
    as (doc' & a' & w' & t' & -> & Hss & Hsc & _ & _ & Hl & Hi & Hs & Ht & _).
  simpl. eapply consistent_keep; try done.
  - rewrite Hl. apply Hc.
  - rewrite Hi. apply Hc.
  - by apply keeps_files_storage.
Qed.

Lemma handleShowFile_consistent text s :
  consistent s → consistent (run (handleShowFile text) s).
Proof.
  intros [[Hb1 Hb2] Ht Hw Hs Hts Hwp Hsp Hse Hc]. unfold run.
  destruct (handleShowFile_frame text s)
    as (a' & t' & -> & Hss & _ & _ & C1 & C3 & C5 & C4 & C6 & Hl & Hi & Hf).
  pose proof Hss as (S1 & S2 & S3 & S4 & S5 & S6).
  split; simpl; rewrite ?C1, ?C3, ?C4, ?C5, ?C6, ?S4; try done.
  - split; [|congruence]. destruct Hl; congruence.
  - destruct Hf as [->|]; done.
  - eapply session_ok_keeps; [done|apply keeps_files_refl|done].
Qed.

Lemma handlePlayMedia_consistent type s :
  consistent s → consistent (run (handlePlayMedia type) s).
Proof.
  intros [[Hb1 Hb2] Ht Hw Hs Hts Hwp Hsp Hse Hc]. unfold run.
  destruct (handlePlayMedia_cases type s)
    as (a' & w' & t' & -> & Hss & _ & _ & C1 & C3 & C5 & C2 & Ho & Hl & Hi & Hst & Hsm & Hm).
  pose proof Hss as (S1 & S2 & S3 & S4 & S5 & S6).
  assert (keeps_files (world s) w') as Hk by by apply keeps_files_storage.
  assert (card_url type a' ≠ None → card_handle type (app s) ≠ None) as Hu.
  { destruct (card_handle type (app s)) as [h|] eqn:Eh; [done|].
    destruct Hm as (_ & _ & ->). intros Hn.
    destruct type; simpl in *; [apply Hwp in Hn|apply Hsp in Hn]; congruence. }
  split; simpl; rewrite ?C1, ?C2, ?C3, ?C5, ?S4; try done.
  - split; congruence.
  - by eapply card_ok_keeps.
  - by eapply card_ok_keeps.
  - by eapply card_ok_keeps.
  - destruct type; simpl in *; [done|by rewrite Ho].
  - destruct type; simpl in *; [by rewrite Ho|done].
  - by eapply session_ok_keeps.
  - unfold live_only. by rewrite Hsm.
Qed.

Lemma handleLoadFile_consistent fileName s :
  consistent s → consistent (run (handleLoadFile fileName) s).
Proof.
  intros [[Hb1 Hb2] Ht Hw Hs Hts Hwp Hsp Hse Hc]. unfold run.
  destruct (handleLoadFile_cases fileName s) as (a' & t' & -> & [(m & -> & _)|(Hn & ->)]).
  - by split.
  - destruct (String.prefix "text-" fileName) eqn:E1;
      [|destruct (String.prefix "webcam-" fileName) eqn:E2;
        [|destruct (String.prefix "screen-" fileName) eqn:E3]].
    all: split; simpl; try done; try apply card_ok_None; by apply card_ok_Some.
Qed.

Lemma is_active_entry_other p handle fileName h :
  (String.prefix p fileName && is_named handle fileName) = false →
  handle = Some h → String.prefix p (name h) = true → name h ≠ fileName.
Proof.
  intros Hf -> Hp <-. rewrite Hp in Hf. simpl in Hf.
  by rewrite String.eqb_refl in Hf.
Qed.

Lemma card_ok_delete p w w' handle fileName :
  storage w' = delete fileName (storage w) →
  (String.prefix p fileName && is_named handle fileName) = false →
  card_ok p w handle → card_ok p w' handle.
Proof.
  intros Hs Hf Hc h Hh. destruct (Hc h Hh) as [Hp [bytes Hn]]. split; [done|].
  exists bytes. rewrite Hs, lookup_delete_ne; [done|].
  intros E. by apply (is_active_entry_other p handle fileName h).
Qed.

Lemma handleDeleteFile_consistent fileName s :
  consistent s → isRecording (app s) = false →
  consistent (run (handleDeleteFile fileName) s).
Proof.
  intros Hc Hr. unfold run.
  destruct (handleDeleteFile_cases fileName s)
    as (a' & w' & t' & -> & Hss & _ & Hl & Hi & Hst & Hcase).
  simpl. pose proof (not_busy _ Hc) as [Hb1 Hb2].
  assert (isInspecting a' = false) as Hi' by (destruct Hi; congruence).
  destruct Hcase as [(-> & Hsc & _)|(Hs & _ & _ & Hcards)].
  { apply (consistent_keep s); try done. apply keeps_files_refl. }
  destruct Hc as [_ Ht Hw Hsc Hts Hwp Hsp Hse Hcap].
  pose proof Hss as (S1 & S2 & S3 & S4 & S5 & S6).
  assert (session_ok a' w') as Hse'.
  { unfold session_ok in *. rewrite S1, Hr. rewrite Hr in Hse.
    unfold no_session in *. by rewrite S2, S3, S4, S5, S6. }
  assert (live_only w' (mediaStreamRef a')) as Hcap'.
  { unfold live_only. by rewrite Hst, S4. }
  destruct (is_active_entry (app s) fileName) eqn:Ea.
  - destruct Hcards as (C1 & C2 & C3 & C4 & C5 & C6).
    split; simpl; rewrite ?C1, ?C2, ?C3, ?C4, ?C5, ?C6; try done; apply card_ok_None.
  - destruct Hcards as (C1 & C2 & C3 & C4 & C5 & C6).
    unfold is_active_entry in Ea.
    apply orb_false_elim in Ea as [Ea E3]. apply orb_false_elim in Ea as [E1 E2].
    split; simpl; rewrite ?C1, ?C2, ?C3, ?C4, ?C5, ?C6; try done.
    all: by eapply card_ok_delete.
Qed.

Lemma CHUNK_SIZE_positive : 0 < CHUNK_SIZE.
Proof. unfold CHUNK_SIZE. lia. Qed.

Lemma handleFileSelect_consistent selected uuid s :
  consistent s → consistent (run (handleFileSelect selected uuid) s).
Proof.
  intros Hc. unfold run, handleFileSelect. destruct selected as [file|]; [|done].
  destruct (upload_frame CHUNK_SIZE file uuid s CHUNK_SIZE_positive)
    as (res & a' & w' & t' & -> & Hss & C3 & C5 & C4 & C6 & _ & Hl & Hi & C2 & Hst & Hk & Hcase).
  simpl. destruct Hc as [[Hb1 Hb2] Ht Hw Hsc Hts Hwp Hsp Hse Hcap].
  pose proof Hss as (S1 & S2 & S3 & S4 & S5 & S6).
  split; simpl; rewrite ?C2, ?C3, ?C4, ?C5, ?C6, ?S4; try done.
  - split; [done|]. destruct Hi; congruence.
  - destruct Hcase as [(-> & _)|(-> & Hn)]; [apply card_ok_None|].
    apply card_ok_Some; [apply prefix_append|done].
  - by eapply card_ok_keeps.
  - by eapply card_ok_keeps.
  - by eapply session_ok_keeps.
  - unfold live_only. by rewrite Hst.
Qed.

Lemma startRecording_consistent type uuid s :
  consistent s → isRecording (app s) = false →
  consistent (run (startRecording type uuid) s).
Proof.
  intros [[Hb1 Hb2] Ht Hw Hsc Hts Hwp Hsp Hse Hcap] Hr. unfold run.
  destruct (startRecording_cases type uuid s Hr)
    as (res & a' & w' & t' & -> & _ & C1 & C3 & C5 & C2 & C4 & C6 & Hl & Hi & _ & _ & Hk
        & Hcase).
  simpl. unfold session_ok in Hse. rewrite Hr in Hse.
  destruct Hse as (N1 & N2 & N3 & N4 & N5).
  assert (∀ sid, streams (world s) !! sid ≠ Some true) as Hdead.
  { intros sid Hs. apply Hcap in Hs. congruence. }
  split; simpl; rewrite ?C1, ?C2, ?C3, ?C4, ?C5, ?C6; try done.
  - split; congruence.
  - by eapply card_ok_keeps.
  - by eapply card_ok_keeps.
  - by eapply card_ok_keeps.
  - unfold session_ok, no_session.
    destruct Hcase as [(-> & R1 & R2 & R3 & R4 & Hfail)|(-> & R1 & R2 & R3 & R4 & _ & Hn & _ & _ & Hrec)].
    + rewrite R1, R2, R3, R4. repeat (split; [done|]).
      destruct Hfail as [(_ & -> & _)|(_ & _ & -> & _)]; done.
    + exists type, uuid, (length (writables (world s))), (length (streams (world s))).
      repeat (split; [done|]). destruct Hrec as [->|[-> _]]; auto.
  - intros sid Hs.
    destruct Hcase as [(_ & _ & _ & _ & _ & Hfail)|(_ & _ & _ & _ & -> & Hst & _)].
    + destruct Hfail as [(_ & _ & ->)|(_ & _ & _ & Hst)]; [by apply Hdead in Hs|].
      rewrite Hst in Hs. apply lookup_snoc_Some in Hs as [[_ Hs]|[_ [=]]].
      by apply Hdead in Hs.
    + rewrite Hst in Hs. apply lookup_snoc_Some in Hs as [[_ Hs]|[-> _]]; [|done].
      by apply Hdead in Hs.
Qed.

Lemma onstop_consistent type uuid s :
  consistent s →
  currentFileHandleRef (app s) = Some (mkHandle (recording_name type uuid)) →
  names_file (world s) (recording_name type uuid) →
  consistent (run (onstop type) s).
Proof.
  intros [[Hb1 Hb2] Ht Hw Hsc Hts Hwp Hsp Hse Hcap] Hf Hn.
  destruct (onstop_spec type s)
    as (_ & Hr & Hno & Hk & Hst & C1 & C2 & Co & Cou & Hl & _ & Hcur).
  rewrite Hf in Hcur. destruct Hcur as (Ch & Cu & Hi).
  pose proof (prefix_recording_name type uuid) as Hp.
  split; rewrite ?C1, ?C2; try done.
  - split; congruence.
  - by eapply card_ok_keeps.
  - destruct type; simpl in *.
    + rewrite Ch. apply card_ok_Some; [done|by apply Hk].
    + rewrite Co. by eapply card_ok_keeps.
  - destruct type; simpl in *.
    + rewrite Co. by eapply card_ok_keeps.
    + rewrite Ch. apply card_ok_Some; [done|by apply Hk].
  - destruct type; simpl in *; [by rewrite Ch|by rewrite Cou, Co].
  - destruct type; simpl in *; [by rewrite Cou, Co|by rewrite Ch].
  - unfold session_ok. by rewrite Hr.
  - intros sid Hs. rewrite Hst in Hs. by apply released_not_live in Hs.
Qed.

Lemma ended_consistent last recorder s :
  consistent s → mediaRecorderRef (app s) = Some recorder →
  consistent (run (ondataavailable last;; onstop (recorder_type recorder)) s).
Proof.
  intros Hc Hm. unfold run. unfold_M.
  pose proof (session _ Hc) as Hse. unfold session_ok in Hse.
  destruct (isRecording (app s)) eqn:Hr.
  2: { destruct Hse as (_ & Hn & _). congruence. }
  destruct Hse as (type & uuid & r & sid & T1 & T2 & T3 & T4 & T5 & [T6|T6]); [congruence|].
  rewrite Hm in T6. injection T6 as ->. simpl.
  pose proof (ondataavailable_consistent last s Hc) as Hc1.
  destruct (ondataavailable_frame last s) as (a1 & w1 & t1 & E & Ha & Hs & Hst).
  unfold run in Hc1. rewrite E in *. simpl in *.
  apply (onstop_consistent type uuid (mkSys a1 w1 t1) Hc1); simpl.
  - by destruct Ha as [->|[m ->]].
  - destruct T3 as [bytes T3]. exists bytes. by rewrite Hs.
Qed.

Lemma stopRecording_consistent last s :
  consistent s → consistent (run (stopRecording last) s).
Proof.
  intros Hc. unfold run, stopRecording. unfold mbind at 1. unfold M_bind, get_app. simpl.
  destruct (mediaRecorderRef (app s)) as [recorder|] eqn:Hm; [|done].
  destruct (isRecording (app s)) eqn:Hr; [|done].
  unfold recorder_stop, await. unfold mbind at 1. unfold M_bind at 1. simpl.
  pose proof (not_busy _ Hc) as [Hb1 Hb2].
  assert (consistent (mkSys (app s) (world s) (tick call_stop (traffic s)))) as Hc0
    by (apply (consistent_keep s); try done; apply keeps_files_refl).
  destruct (next_fault (traffic s)); [done|].
  by apply (ended_consistent last recorder _ Hc0).
Qed.

Lemma checkSupportAndLoad_frame s :
  ∃ res a' w' t', checkSupportAndLoad s = (res, mkSys a' w' t') ∧
    same_session (app s) a' ∧ same_cards (app s) a' ∧
    isLoading a' = isLoading (app s) ∧
    (isInspecting a' = isInspecting (app s) ∨ isInspecting a' = false) ∧
    storage w' = storage (world s) ∧ streams w' = streams (world s).
Proof.
  unfold checkSupportAndLoad, persisted, persist, await. unfold_setters. unfold_M. simpl.
  destruct (has_storage (navigator (world s)) && has_getDirectory (navigator (world s))
            && has_mediaDevices (navigator (world s))
            && has_MediaRecorder (navigator (world s))); simpl.
  2: { eexists _, _, _, _. split; [reflexivity|]. simpl. repeat split; auto. }
  fault_case.
  { eexists _, _, _, _. split; [reflexivity|]. simpl. repeat split; auto. }
  destruct (is_persisted (navigator (world s))); simpl.
  2: fault_case;
     [eexists _, _, _, _; split; [reflexivity|]; simpl; repeat split; auto|].
  2: destruct (grants_persist (navigator (world s))); simpl.
  all: match goal with |- context [handleListFiles ?s0] =>
         destruct (handleListFiles_frame s0) as (a' & t' & -> & Hss & Hsc & Hl & Hi & _) end.
  all: eexists _, _, _, _; (split; [reflexivity|]); simpl in *.
  all: repeat split; auto; try apply Hss; apply Hsc.
Qed.

Lemma mount_consistent nav root script :
  consistent (run checkSupportAndLoad (Sys_mount nav root script)).
Proof.
  unfold run.
  destruct (checkSupportAndLoad_frame (Sys_mount nav root script))
    as (res & a' & w' & t' & -> & Hss & Hsc & Hl & Hi & Hs & Hst).
  simpl in *.
  assert (consistent (Sys_mount nav root script)) as Hc.
  { split; simpl; try done; apply card_ok_None. }
  assert (isInspecting a' = false) as Hi' by by destruct Hi.
  apply (consistent_keep (Sys_mount nav root script)); try done.
  by apply keeps_files_storage.
Qed.

Lemma click_consistent text c i ds :
  consistent (snd ds) → usable c (app (snd ds)) →
  consistent (snd (runD (click text c i) ds)).
Proof.
  destruct ds as [doc s]. simpl. intros Hc [_ Hd].
  destruct c; simpl in *; unfold runD, lift; simpl.
  - apply startRecording_consistent; [done|]. by apply orb_false_elim in Hd as [? _].
  - by apply stopRecording_consistent.
  - by apply handleFileSelect_consistent.
  - by apply handleListFiles_consistent.
  - by apply handleLoadFile_consistent.
  - apply handleDeleteFile_consistent; [done|]. by apply orb_false_elim in Hd as [_ ?].
  - by apply handleShowFile_consistent.
  - by apply (handleDownloadTextFile_consistent doc).
  - by apply handlePlayMedia_consistent.
  - by apply (handleDownloadMedia_consistent _ doc).
Qed.

Lemma step_consistent text ds ds' :
  step text ds ds' → consistent (snd ds) → consistent (snd ds').
Proof.
  intros [c i ds0 Hu|data ds0 _|recorder last ds0 Hm|script ds0] Hc.
  - by apply click_consistent.
  - destruct ds0 as [doc s]. by apply ondataavailable_consistent.
  - destruct ds0 as [doc s]. by apply (ended_consistent last recorder).
  - by apply with_script_consistent.
Qed.

Lemma reachable_consistent text ds : reachable text ds → consistent (snd ds).
Proof.
  induction 1 as [nav root script|ds ds' _ IH Hstep].
  - apply mount_consistent.
  - by apply (step_consistent text ds).
Qed.

Lemma page_mounted_reachable : reachable utf8 page_mounted.
Proof. apply reach_mount. Qed.

Lemma page_uploaded_reachable : reachable utf8 page_uploaded.
Proof.
  apply (reach_step utf8 page_mounted); [apply page_mounted_reachable|].
  apply step_click. split; vm_compute; reflexivity.
Qed.

Lemma page_recording_reachable : reachable utf8 page_recording.
Proof.
  apply (reach_step utf8 page_uploaded); [apply page_uploaded_reachable|].
  apply step_click. split; vm_compute; reflexivity.
Qed.

Lemma page_recorded_reachable : reachable utf8 page_recorded.
Proof.
  eapply reach_step; [eapply reach_step; [apply page_recording_reachable|]|].
  - apply (step_dataavailable utf8 [x01]). vm_compute. discriminate.
  - apply step_click. split; vm_compute; reflexivity.
Qed.

(** ** Start-up and the inspector *)

(** X1. When the browser lacks one of the four capabilities the
    start-up effect asks for, it makes no call to the host at all, not
    even [persisted()], and leaves the component as it was created: the
    page is the notice for unsupported browsers and none of the controls
    can be used. *)
Theorem unsupported_browser_makes_no_call nav root script :
  capable nav = false →
  let s := Sys_mount nav root script in
  checkSupportAndLoad s = (Ok tt, s) ∧ ∀ c, ¬ usable c (app s).
Proof.
  intros Hcap s. split.
  - unfold checkSupportAndLoad. unfold_setters. unfold_M. simpl.
    unfold capable in Hcap. by rewrite Hcap.
  - intros c [Hr _]. unfold rendered in Hr. simpl in Hr. done.
Qed.

Lemma unsupported_browser_makes_no_call_witness :
  capable no_camera = false ∧
  calls (traffic (run checkSupportAndLoad (Sys_mount no_camera ∅ [Some "SecurityError"])))
    = [] ∧
  ¬ usable (RecordButton webcam)
      (app (Sys_mount no_camera ∅ [Some "SecurityError"])).
Proof.
  destruct (unsupported_browser_makes_no_call no_camera ∅ [Some "SecurityError"])
    as [E H]; [vm_compute; reflexivity|].
  split; [vm_compute; reflexivity|]. split; [|apply H].
  unfold run. rewrite E. reflexivity.
Defined.

(** X2. On a host that answers, [handleListFiles] puts into the list of
    the inspector exactly the names of the entries of the root that are
    files, each once; directories are left out, and the root is not
    changed. *)
Theorem listing_shows_the_files_of_the_root s :
  quiet (traffic s) →
  let s' := run handleListFiles s in
  (∀ fileName, fileName ∈ fileList (app s') ↔ names_file (world s) fileName) ∧
  NoDup (fileList (app s')) ∧
  world s' = world s.
Proof.
  intros Hq s'. subst s'. unfold run.
  destruct (handleListFiles_spec s) as (a' & t' & -> & _ & Hs).
  destruct (Hs Hq) as (-> & _). simpl. split; [|split; [|done]].
  - intros fileName. apply elem_of_listing.
  - unfold listing. rewrite collect_files_spec. simpl.
    apply (sublist_NoDup _ (map_to_list (storage (world s))).*1).
    + apply NoDup_fst_map_to_list.
    + apply fmap_sublist, sublist_filter.
Qed.

Lemma listing_shows_the_files_of_the_root_witness :
  quiet (traffic with_folder) ∧
  storage (world with_folder) !! "docs" = Some a_directory ∧
  "text-u1.txt" ∈ fileList (app (run handleListFiles with_folder)) ∧
  "docs" ∉ fileList (app (run handleListFiles with_folder)).
Proof.
  assert (quiet (traffic with_folder)) as Hq by (vm_compute; constructor).
  destruct (listing_shows_the_files_of_the_root with_folder Hq) as (H & _).
  split; [done|]. split; [vm_compute; reflexivity|]. split.
  - apply H. exists [x68]. vm_compute. reflexivity.
  - intros Hin. apply H in Hin as [bytes Hb]. vm_compute in Hb. discriminate.
Defined.

(** X3. Whatever the host does, [handleListFiles] ends normally with
    the inspecting flag down, and touches neither the root, the cards
    nor the session.  Either it lists the root, or it reports the
    failure and the list of the inspector stays as it was, so that it
    may name entries that are gone. *)
Theorem a_failed_listing_keeps_the_old_list s :
  let s' := run handleListFiles s in
  fst (handleListFiles s) = Ok tt ∧
  world s' = world s ∧ isInspecting (app s') = false ∧
  same_cards (app s) (app s') ∧ same_session (app s) (app s') ∧
  (fileList (app s') = listing (world s) ∧ error (app s') = error (app s)
   ∨ fileList (app s') = fileList (app s) ∧
     ∃ m, error (app s') = "Could not list files: " +:+ m).
Proof.
  intros s'. subst s'. unfold run.
  destruct (handleListFiles_frame s) as (a' & t' & -> & Hss & Hsc & _ & Hi & _ & Hcase).
  simpl. repeat (split; [done|]).
  destruct Hcase as [(He & _ & Hl)|(Hm & _ & Hl)]; [by left|by right].
Qed.

(** ** Sessions *)

(** X4. When the capture is granted but the session is not started,
    that is when the entry or its writable stream could not be created,
    [startRecording] has stopped the tracks of the stream it had just
    acquired and has dropped it: the camera does not stay on.  The
    reason is reported. *)
Theorem failed_setup_releases_the_capture type uuid s :
  isRecording (app s) = false →
  next_fault (traffic s) = None →
  let s' := run (startRecording type uuid) s in
  isRecording (app s') = false →
  streams (world s') = streams (world s) ++ [false] ∧
  mediaStreamRef (app s') = None ∧
  ∃ m, error (app s') = "Could not create recording file: " +:+ m.
Proof.
  intros Hr Hf s'. subst s'. unfold run.
  destruct (startRecording_cases type uuid s Hr)
    as (res & a' & w' & t' & -> & _ & _ & _ & _ & _ & _ & _ & _ & _ & _ & _ & _ & Hcase).
  simpl. intros Hr'.
  destruct Hcase as [(_ & _ & _ & _ & _ & Hfail)|(Hr'' & _)]; [|congruence].
  destruct Hfail as [([m [Hm _]] & _)|(Hm & _ & Hn & Hst)]; [congruence|done].
Qed.

Lemma failed_setup_releases_the_capture_witness :
  let s := with_script [None; Some "SecurityError"] (snd page_uploaded) in
  let s' := run (startRecording webcam "u2") s in
  isRecording (app s) = false ∧ isRecording (app s') = false ∧
  streams (world s') = [false] ∧ mediaStreamRef (app s') = None.
Proof.
  cbv zeta.
  destruct (failed_setup_releases_the_capture webcam "u2"
              (with_script [None; Some "SecurityError"] (snd page_uploaded)))
    as (H1 & H2 & _); try (vm_compute; reflexivity).
  split; [vm_compute; reflexivity|]. split; [vm_compute; reflexivity|].
  split; [|exact H2]. rewrite H1. vm_compute. reflexivity.
Defined.

(** X5. When the capture is granted and the entry is created but the
    constructor of [MediaRecorder] throws, as it does in a browser that
    does not record [video/webm], [startRecording] is rejected with the
    recording flag already set: no recorder is held, the capture stream
    stays live, no error message is shown, and [Stop] is the only
    control left enabled. *)
Theorem recorder_failure_leaves_recording_on type uuid message rest s :
  isRecording (app s) = false →
  mediaRecorderRef (app s) = None →
  storage (world s) !! recording_name type uuid ≠ Some a_directory →
  faults (traffic s) = None :: None :: None :: None :: Some message :: rest →
  let s' := run (startRecording type uuid) s in
  fst (startRecording type uuid s) = Err message ∧
  isRecording (app s') = true ∧ mediaRecorderRef (app s') = None ∧
  mediaStreamRef (app s') = Some (length (streams (world s))) ∧
  streams (world s') = streams (world s) ++ [true] ∧
  error (app s') = EmptyString ∧
  ∀ c, usable c (app s') → c = StopButton.
Proof.
  intros Hr Hm Hd Hf s'. subst s'. unfold run.
  destruct s as [a w [fs cs]]. simpl in *. subst fs.
  unfold startRecording. fold (recording_name type uuid).
  unfold getUserMedia, getDisplayMedia, new_stream, newMediaRecorder, start,
    open_new_file, getDirectory, getFileHandle, createWritable, await, next_fault, tick.
  unfold_setters. unfold_M. simpl. rewrite Hr. simpl.
  assert (∀ a0 : App, isRecording a0 = true → ∀ c, usable c a0 → c = StopButton) as Hstop.
  { intros a0 Ha0 c [_ Hdis]. destruct c; simpl in Hdis; rewrite Ha0 in Hdis;
      rewrite ?orb_true_r in Hdis; simpl in Hdis; done. }
  destruct type; simpl.
  all: destruct (storage w !! _) as [[bytes|]|] eqn:E; simpl; [| done |].
  all: rewrite ?lookup_insert_eq; simpl.
  all: rewrite ?E; simpl.
  all: repeat (split; [done|]); by apply Hstop.
Qed.

Lemma recorder_failure_leaves_recording_on_witness :
  let s := with_script [None; None; None; None; Some "NotSupportedError"] mounted in
  isRecording (app s) = false ∧
  fst (startRecording webcam "u2" s) = Err "NotSupportedError" ∧
  isRecording (app (snd no_recorder)) = true ∧
  streams (world (snd no_recorder)) = [true] ∧
  error (app (snd no_recorder)) = EmptyString.
Proof.
  cbv zeta.
  destruct (recorder_failure_leaves_recording_on webcam "u2" "NotSupportedError" []
              (with_script [None; None; None; None; Some "NotSupportedError"] mounted))
    as (H1 & H2 & _ & _ & H5 & H6 & _); try (vm_compute; reflexivity).
  { vm_compute. discriminate. }
  split; [vm_compute; reflexivity|]. split; [exact H1|]. split; [exact H2|].
  split; [exact H5|exact H6].
Defined.

(** X6. Once the recording flag is set and no recorder is held, the
    page cannot leave that state: [Stop], the one control still enabled,
    returns at once, no slice and no [stop] event can arrive, and so no
    step changes the component, the host or the document.  The capture stream stays live
    and every other control stays disabled. *)
Theorem page_is_stuck_without_recorder text ds ds' :
  isRecording (app (snd ds)) = true →
  mediaRecorderRef (app (snd ds)) = None →
  step text ds ds' →
  fst ds' = fst ds ∧ app (snd ds') = app (snd ds) ∧ world (snd ds') = world (snd ds).
Proof.
  intros Hr Hm Hstep.
  destruct Hstep as [c i ds [_ Hdis]|data ds Hrec|recorder last ds Hrec|script ds].
  - assert (c = StopButton) as ->.
    { destruct c; simpl in Hdis; rewrite Hr in Hdis;
        rewrite ?orb_true_r in Hdis; simpl in Hdis; done. }
    destruct ds as [doc s]. simpl in *.
    unfold runD, lift, stopRecording. unfold_M. simpl. by rewrite Hm.
  - done.
  - congruence.
  - done.
Qed.

Lemma page_is_stuck_without_recorder_witness :
  let ds' := runD (click utf8 StopButton (mkInput "u3" None [x03])) no_recorder in
  usable StopButton (app (snd no_recorder)) ∧
  isRecording (app (snd ds')) = true ∧
  streams (world (snd ds')) = [true].
Proof.
  cbv zeta.
  assert (usable StopButton (app (snd no_recorder))) as Hu
    by (split; vm_compute; reflexivity).
  destruct (page_is_stuck_without_recorder utf8 no_recorder
              (runD (click utf8 StopButton (mkInput "u3" None [x03])) no_recorder))
    as (_ & Ha & Hw).
  - vm_compute. reflexivity.
  - vm_compute. reflexivity.
  - by apply step_click.
  - split; [exact Hu|]. rewrite Ha, Hw. split; vm_compute; reflexivity.
Defined.

(** X7. When [stop()] itself does not throw, [stopRecording] always
    ends the session, whatever the host does to the last write, to the
    close and to the listing: the flag and the references are reset, the
    tracks of the held stream are stopped, no file of the root is lost,
    and the entry of the session becomes the active entry of its card,
    with no playback URL. *)
Theorem stop_always_ends_the_session last recorder fileHandle s :
  isRecording (app s) = true →
  mediaRecorderRef (app s) = Some recorder →
  currentFileHandleRef (app s) = Some fileHandle →
  next_fault (traffic s) = None →
  let s' := run (stopRecording last) s in
  fst (stopRecording last s) = Ok tt ∧
  isRecording (app s') = false ∧ no_session (app s') ∧
  streams (world s') = released (mediaStreamRef (app s)) (streams (world s)) ∧
  keeps_files (world s) (world s') ∧
  card_handle (recorder_type recorder) (app s') = Some fileHandle ∧
  card_url (recorder_type recorder) (app s') = None.
Proof.
  intros Hr Hm Hfh Hf s'. subst s'.
  unfold run, stopRecording, recorder_stop, await. unfold_M. simpl.
  rewrite Hm, Hr, Hf. simpl.
  match goal with |- context [ondataavailable last ?s0] =>
    destruct (ondataavailable_frame last s0) as (a1 & w1 & t1 & -> & Ha & Hs & Hst) end.
  simpl in *.
  pose proof (onstop_spec (recorder_type recorder) (mkSys a1 w1 t1)) as Hon.
  unfold run in Hon. simpl in Hon.
  assert (currentFileHandleRef a1 = Some fileHandle ∧
          mediaStreamRef a1 = mediaStreamRef (app s)) as [Hfh1 Hms1].
  { by destruct Ha as [->|[m ->]]. }
  rewrite Hfh1, Hms1, Hst in Hon.
  destruct Hon as (H1 & H2 & H3 & H4 & H5 & _ & _ & _ & _ & _ & _ & H6 & H7 & _).
  destruct (onstop (recorder_type recorder) (mkSys a1 w1 t1)) as [res [a2 w2 t2]].
  simpl in *. subst res. repeat (split; [done|]). split; [|done].
  eapply keeps_files_trans; [|exact H4]. by apply keeps_files_storage.
Qed.

Lemma stop_always_ends_the_session_witness :
  let s' := run (stopRecording [x03]) host_gone in
  isRecording (app host_gone) = true ∧
  streams (world host_gone) = [true] ∧
  isRecording (app s') = false ∧
  streams (world s') = [false] ∧
  activeWebcamFileHandle (app s') = Some (mkHandle "webcam-u2.webm").
Proof.
  cbv zeta.
  destruct (stop_always_ends_the_session [x03] (mkRecorder webcam 0)
              (mkHandle "webcam-u2.webm") host_gone)
    as (_ & H2 & _ & H4 & _ & H6 & _); try (vm_compute; reflexivity).
  split; [vm_compute; reflexivity|]. split; [vm_compute; reflexivity|].
  split; [exact H2|]. split.
  - rewrite H4. vm_compute. reflexivity.
  - vm_compute in H6. vm_compute. exact H6.
Defined.

Lemma failed_write_loses_the_recording_witness :
  let s1 := run (ondataavailable [x01]) write_refused in
  let s2 := run (stopRecording [x03]) (run (deliver [[x02]]) (with_script [] s1)) in
  isRecording (app write_refused) = true ∧
  error (app s1) = "Recording error: QuotaExceededError" ∧
  storage (world s2) !! "webcam-u2.webm" = Some (a_file []) ∧
  activeWebcamFileHandle (app s2) = Some (mkHandle "webcam-u2.webm").
Proof.
  cbv zeta.
  destruct (failed_write_loses_the_recording [x01] [[x02]] [x03] []
              (mkRecorder webcam 0) (mkHandle "webcam-u2.webm") 1
              (mkWritable "webcam-u2.webm" [] writable_) "QuotaExceededError"
              write_refused)
    as (H1 & _ & H3 & H4); try (vm_compute; reflexivity).
  split; [vm_compute; reflexivity|]. split; [exact H1|]. split.
  - rewrite H3. vm_compute. reflexivity.
  - assert (isRecording
              (app (run (stopRecording [x03])
                      (run (deliver [[x02]])
                         (with_script [] (run (ondataavailable [x01]) write_refused)))))
            = false) as E by (vm_compute; reflexivity).
    apply H4 in E. vm_compute in E. vm_compute. exact E.
Defined.

(** ** Ingestion *)

(** X9. An ingestion that fails stores none of the bytes of the file:
    the root is as it was, or it has gained the new name as an empty
    file.  The list of the inspector is not refreshed, so that such an
    entry is on the disk without being on the page.  The busy flag is
    down again. *)
Theorem failed_upload_stores_none_of_the_bytes file uuid s :
  let s' := run (handleFileSelect (Some file) uuid) s in
  activeTextFileHandle (app s') = None →
  (storage (world s') = storage (world s)
   ∨ storage (world s) !! text_name uuid = None ∧
     storage (world s') = <[text_name uuid := a_file []]> (storage (world s))) ∧
  fileList (app s') = fileList (app s) ∧
  isLoading (app s') = false ∧
  String.prefix "Upload failed: " (error (app s')) = true.
Proof.
  intros s'. subst s'. unfold run, handleFileSelect.
  destruct (upload_frame CHUNK_SIZE file uuid s CHUNK_SIZE_positive)
    as (res & a' & w' & t' & -> & _ & _ & _ & _ & _ & _ & Hl & _ & _ & _ & _ & Hcase).
  simpl. intros Hn.
  destruct Hcase as [(_ & He & Hfl & Hst)|(Ha & _)]; [done|congruence].
Qed.

Lemma failed_upload_stores_none_of_the_bytes_witness :
  let s := with_script [None; None; None; Some "QuotaExceededError"] mounted in
  let s' := run (handleFileSelect (Some hello) "u1") s in
  activeTextFileHandle (app s') = None ∧
  storage (world s') !! "text-u1.txt" = Some (a_file []) ∧
  fileList (app s') = [].
Proof.
  cbv zeta.
  destruct (failed_upload_stores_none_of_the_bytes hello "u1"
              (with_script [None; None; None; Some "QuotaExceededError"] mounted))
    as (_ & H2 & _); [vm_compute; reflexivity|].
  split; [vm_compute; reflexivity|]. split; [vm_compute; reflexivity|].
  rewrite H2. vm_compute. reflexivity.
Defined.

(** ** What holds of every page *)

(** X10. On every page that can be reached, each card names a file
    that is in the root and carries the prefix of its category, and a
    text on display or a playback URL always comes with an active entry.
    In particular a deletion never leaves a card on a deleted entry. *)
Theorem cards_name_files_of_the_root text ds :
  reachable text ds →
  let a := app (snd ds) in
  let w := world (snd ds) in
  card_ok "text-" w (activeTextFileHandle a) ∧
  card_ok "webcam-" w (activeWebcamFileHandle a) ∧
  card_ok "screen-" w (activeScreenFileHandle a) ∧
  (fileContent a ≠ EmptyString → activeTextFileHandle a ≠ None) ∧
  (∀ type, card_url type a ≠ None → card_handle type a ≠ None).
Proof.
  intros Hreach a w. subst a w.
  destruct (reachable_consistent text ds Hreach) as [_ Ht Hw Hs Hts Hwp Hsp _ _].
  repeat (split; [done|]). by intros [].
Qed.

Lemma cards_name_files_of_the_root_witness :
  activeWebcamFileHandle (app (snd page_recorded)) = Some (mkHandle "webcam-u2.webm") ∧
  names_file (world (snd page_recorded)) "webcam-u2.webm".
Proof.
  destruct (cards_name_files_of_the_root utf8 page_recorded page_recorded_reachable)
    as (_ & H & _).
  assert (activeWebcamFileHandle (app (snd page_recorded))
          = Some (mkHandle "webcam-u2.webm")) as E by (vm_compute; reflexivity).
  split; [exact E|]. apply (H _ E).
Defined.

(** X11. On every page that can be reached and is not recording, no
    capture stream is live and none of the references of a session is
    held: the camera or the screen capture never stays on after a
    session has ended or has failed to start. *)
Theorem idle_page_holds_no_capture text ds :
  reachable text ds →
  isRecording (app (snd ds)) = false →
  all_stopped (world (snd ds)) ∧ no_session (app (snd ds)).
Proof.
  intros Hreach Hr.
  destruct (reachable_consistent text ds Hreach) as [_ _ _ _ _ _ _ Hse Hcap].
  unfold session_ok in Hse. rewrite Hr in Hse. split; [|done].
  intros sid Hs. apply Hcap in Hs. destruct Hse as (_ & _ & Hm & _). congruence.
Qed.

Lemma idle_page_holds_no_capture_witness :
  streams (world (snd page_recording)) = [true] ∧
  isRecording (app (snd page_recorded)) = false ∧
  all_stopped (world (snd page_recorded)).
Proof.
  assert (isRecording (app (snd page_recorded)) = false) as E by (vm_compute; reflexivity).
  destruct (idle_page_holds_no_capture utf8 page_recorded page_recorded_reachable E)
    as (H & _).
  split; [vm_compute; reflexivity|]. split; [exact E|exact H].
Defined.

(** X12. The two busy flags are down on every page that can be reached:
    every handler that raises [isLoading] or [isInspecting] lowers it
    again on each of its paths, so that, unlike the recording flag, they
    never keep a control disabled. *)
Theorem busy_flags_are_released text ds :
  reachable text ds →
  isLoading (app (snd ds)) = false ∧ isInspecting (app (snd ds)) = false.
Proof. intros Hreach. apply (reachable_consistent text ds Hreach). Qed.

Lemma busy_flags_are_released_witness :
  isLoading (app (snd page_uploaded)) = false ∧
  isInspecting (app (snd page_uploaded)) = false.
Proof. exact (busy_flags_are_released utf8 page_uploaded page_uploaded_reachable). Defined.

(** X13. On every page that can be reached and is recording, the
    session is whole but for the recorder: the type is set, the entry
    of the session has the name of that type and is a file of the root,
    a writable stream and a capture stream are held, no other capture
    stream is live, and the recorder, if there is one, records that
    stream for that type. *)
Theorem recording_session_is_whole text ds :
  reachable text ds →
  isRecording (app (snd ds)) = true →
  let a := app (snd ds) in
  let w := world (snd ds) in
  ∃ type uuid r sid,
    currentRecordingType a = Some type ∧
    currentFileHandleRef a = Some (mkHandle (recording_name type uuid)) ∧
    names_file w (recording_name type uuid) ∧
    writableStreamRef a = Some r ∧
    mediaStreamRef a = Some sid ∧
    (∀ j, streams w !! j = Some true → j = sid) ∧
    (mediaRecorderRef a = None ∨ mediaRecorderRef a = Some (mkRecorder type sid)).
Proof.
  intros Hreach Hr a w. subst a w.
  destruct (reachable_consistent text ds Hreach) as [_ _ _ _ _ _ _ Hse Hcap].
  unfold session_ok in Hse. rewrite Hr in Hse.
  destruct Hse as (type & uuid & r & sid & H1 & H2 & H3 & H4 & H5 & H6).
  exists type, uuid, r, sid. repeat (split; [done|]). split; [|done].
  intros j Hj. apply Hcap in Hj. congruence.
Qed.

Lemma recording_session_is_whole_witness :
  isRecording (app (snd page_recording)) = true ∧
  ∃ type uuid, names_file (world (snd page_recording)) (recording_name type uuid).
Proof.
  assert (isRecording (app (snd page_recording)) = true) as E by (vm_compute; reflexivity).
  destruct (recording_session_is_whole utf8 page_recording page_recording_reachable E)
    as (type & uuid & _ & _ & _ & _ & H & _).
  split; [exact E|]. by exists type, uuid.
Defined.

(** X14. On every page that can be reached, showing the active text
    entry never finds it missing: when no text is on display and the
    host answers the two calls, the entry is a file of the root and its
    bytes, decoded, are put on display. *)
Theorem loaded_text_can_be_shown text ds h :
  reachable text ds →
  activeTextFileHandle (app (snd ds)) = Some h →
  fileContent (app (snd ds)) = EmptyString →
  answered 2 (traffic (snd ds)) →
  ∃ bytes, storage (world (snd ds)) !! name h = Some (a_file bytes) ∧
    fileContent (app (run (handleShowFile text) (snd ds))) = text bytes.
Proof.
  intros Hreach Ha Hc Hq.
  destruct (reachable_consistent text ds Hreach) as [_ Ht _ _ _ _ _ _ _].
  destruct (Ht h Ha) as (_ & bytes & Hb). exists bytes. split; [done|].
  by apply (show_displays text h).
Qed.

Lemma loaded_text_can_be_shown_witness :
  activeTextFileHandle (app (snd page_recorded)) = Some (mkHandle "text-u1.txt") ∧
  ∃ bytes, fileContent (app (run (handleShowFile utf8) (snd page_recorded))) = utf8 bytes.
Proof.
  destruct (loaded_text_can_be_shown utf8 page_recorded (mkHandle "text-u1.txt")
              page_recorded_reachable) as (bytes & _ & H).
  - vm_compute. reflexivity.
  - vm_compute. reflexivity.
  - vm_compute. constructor.
  - split; [vm_compute; reflexivity|]. by exists bytes.
Defined.

(** X15. On every page that can be reached, playing a loaded media
    card never finds its entry missing: when the host answers the call,
    the card gets the object URL just created, and the other media card
    and the text card are as before. *)
Theorem loaded_media_can_be_played text ds type h :
  reachable text ds →
  card_handle type (app (snd ds)) = Some h →
  next_fault (traffic (snd ds)) = None →
  let s' := run (handlePlayMedia type) (snd ds) in
  card_url type (app s') = Some (blob_url (world (snd ds))) ∧
  card_url (other type) (app s') = card_url (other type) (app (snd ds)) ∧
  fileContent (app s') = fileContent (app (snd ds)) ∧
  storage (world s') = storage (world (snd ds)).
Proof.
  intros Hreach Ha Hf s'. subst s'. unfold run.
  destruct (reachable_consistent text ds Hreach) as [_ _ Hw Hs _ _ _ _ _].
  assert (names_file (world (snd ds)) (name h)) as Hn.
  { destruct type; simpl in Ha; [by apply (Hw h)|by apply (Hs h)]. }
  destruct (handlePlayMedia_cases type (snd ds))
    as (a' & w' & t' & -> & _ & _ & _ & _ & _ & _ & Hc & Ho & _ & _ & Hst & _ & Hm).
  simpl. rewrite Ha in Hm.
  destruct Hm as [(Hu & _)|(_ & _ & _ & Hno)]; [done|]. by destruct (Hno Hf).
Qed.

Lemma loaded_media_can_be_played_witness :
  card_handle webcam (app (snd page_recorded)) = Some (mkHandle "webcam-u2.webm") ∧
  card_url webcam (app (snd page_recorded)) = None ∧
  card_url webcam (app (run (handlePlayMedia webcam) (snd page_recorded)))
    = Some "blob:0".
Proof.
  destruct (loaded_media_can_be_played utf8 page_recorded webcam
              (mkHandle "webcam-u2.webm") page_recorded_reachable) as (H & _).
  - vm_compute. reflexivity.
  - vm_compute. reflexivity.
  - split; [vm_compute; reflexivity|]. split; [vm_compute; reflexivity|].
    rewrite H. vm_compute. reflexivity.
Defined.

(** ** Downloads *)

(** X16. On every page that can be reached, downloading the active
    text entry never finds it missing: when the host answers the call,
    one anchor is clicked, which carries the name of the entry and the
    object URL just created; the anchor is taken out of the body again,
    that URL is revoked, the error message is cleared, and the root and
    the cards are as before. *)
Theorem text_download_clicks_one_anchor text ds h :
  reachable text ds →
  activeTextFileHandle (app (snd ds)) = Some h →
  next_fault (traffic (snd ds)) = None →
  let ds' := runD handleDownloadTextFile ds in
  let url := blob_url (world (snd ds)) in
  body (fst ds') = body (fst ds) ∧
  clicked (fst ds') = clicked (fst ds) ++ [mkAnchor url (name h)] ∧
  revoked (fst ds') = revoked (fst ds) ++ [url] ∧
  error (app (snd ds')) = EmptyString ∧
  storage (world (snd ds')) = storage (world (snd ds)) ∧
  same_cards (app (snd ds)) (app (snd ds')).
Proof.
  intros Hreach Ha Hf ds' url. subst ds' url. unfold runD.
  destruct (reachable_consistent text ds Hreach) as [_ Ht _ _ _ _ _ _ _].
  destruct (Ht h Ha) as (_ & Hn). destruct ds as [doc s]. simpl in *.
  destruct (handleDownloadTextFile_cases doc s)
    as (doc' & a' & w' & t' & -> & _ & Hsc & _ & _ & _ & _ & Hs & _ & Hb & Hm).
  simpl. rewrite Ha in Hm.
  destruct Hm as [(Hc & Hrv & _ & He & _)|(_ & _ & _ & _ & Hno)]; [done|].
  by destruct (Hno Hf).
Qed.

Lemma text_download_clicks_one_anchor_witness :
  activeTextFileHandle (app (snd page_recorded)) = Some (mkHandle "text-u1.txt") ∧
  clicked (fst (runD handleDownloadTextFile page_recorded))
    = [mkAnchor "blob:0" "text-u1.txt"] ∧
  revoked (fst (runD handleDownloadTextFile page_recorded)) = ["blob:0"] ∧
  body (fst (runD handleDownloadTextFile page_recorded)) = [].
Proof.
  destruct (text_download_clicks_one_anchor utf8 page_recorded (mkHandle "text-u1.txt")
              page_recorded_reachable) as (H1 & H2 & H3 & _).
  - vm_compute. reflexivity.
  - vm_compute. reflexivity.
  - split; [vm_compute; reflexivity|].
    rewrite H1, H2, H3. repeat split; vm_compute; reflexivity.
Defined.

(** X17. Downloading a loaded media card works the same way on every
    page that can be reached, but [handleDownloadMedia] does not clear
    the messages: after a download that worked, the error message shown
    before is still shown, next to the new success message. *)
Theorem media_download_keeps_the_error text ds type h :
  reachable text ds →
  card_handle type (app (snd ds)) = Some h →
  next_fault (traffic (snd ds)) = None →
  let ds' := runD (handleDownloadMedia type) ds in
  let url := blob_url (world (snd ds)) in
  body (fst ds') = body (fst ds) ∧
  clicked (fst ds') = clicked (fst ds) ++ [mkAnchor url (name h)] ∧
  revoked (fst ds') = revoked (fst ds) ++ [url] ∧
  error (app (snd ds')) = error (app (snd ds)) ∧
  success (app (snd ds')) ≠ EmptyString ∧
  storage (world (snd ds')) = storage (world (snd ds)) ∧
  same_cards (app (snd ds)) (app (snd ds')).
Proof.
  intros Hreach Ha Hf ds' url. subst ds' url. unfold runD.
  destruct (reachable_consistent text ds Hreach) as [_ _ Hw Hs _ _ _ _ _].
  assert (names_file (world (snd ds)) (name h)) as Hn.
  { destruct type; simpl in Ha; [by apply (Hw h)|by apply (Hs h)]. }
  destruct ds as [doc s]. simpl in *.
  destruct (handleDownloadMedia_cases type doc s)
    as (doc' & a' & w' & t' & -> & _ & Hsc & _ & _ & _ & _ & Hst & _ & Hb & Hm).
  simpl. rewrite Ha in Hm.
  destruct Hm as [(Hc & Hrv & _ & He & Hsu & _)|(_ & _ & _ & _ & Hno)]; [done|].
  by destruct (Hno Hf).
Qed.

Lemma page_play_refused_reachable : reachable utf8 page_play_refused.
Proof.
  eapply reach_step; [eapply reach_step; [apply page_recorded_reachable|]|].
  - apply (step_host utf8 [Some "NotReadableError"]).
  - apply step_click. split; vm_compute; reflexivity.
Qed.

Lemma media_download_keeps_the_error_witness :
  let ds' := runD (handleDownloadMedia webcam) page_play_refused in
  error (app (snd ds')) = "Could not play file: NotReadableError" ∧
  success (app (snd ds')) ≠ EmptyString ∧
  clicked (fst ds') = [mkAnchor "blob:0" "webcam-u2.webm"].
Proof.
  cbv zeta.
  destruct (media_download_keeps_the_error utf8 page_play_refused webcam
              (mkHandle "webcam-u2.webm") page_play_refused_reachable)
    as (_ & H2 & _ & H4 & H5 & _).
  - vm_compute. reflexivity.
  - vm_compute. reflexivity.
  - rewrite H2, H4. split; [vm_compute; reflexivity|]. split; [exact H5|].
    vm_compute. reflexivity.
Defined.
